(** * rpw.db.collector: the Collector query facade and ParameterFilter

    A shallow embedding of [src/rpw/db/collector.py].  Python objects become
    values of an inductive type, keyword dictionaries become association
    lists (their order is the dictionary's iteration order, which Python 2
    leaves unspecified: the results below hold for every order), raised
    exceptions become the left summand of a result type, and the one
    mutable [FilteredElementCollector] shared by a Collector and its
    [_Filter] helper becomes a field of the Collector state that is threaded
    through a small state-and-exception monad. *)

From Stdlib Require Import List String Ascii ZArith Bool Lia Floats.
From Stdlib Require Import Permutation.
Import ListNotations.
Local Open Scope string_scope.
Local Open Scope list_scope.

Set Implicit Arguments.
Set Warnings "-register-all,-inexact-float".

(** ** Python values *)

(** The values that reach the collector: Python scalars, Revit API handles
    (ids, elements with their class and [Id], enumeration members, class
    objects, documents), containers, and [ParameterFilter] wrappers (the
    rule list and the inversion flag of the wrapped
    [DB.ElementParameterFilter]). *)
Inductive Value : Type :=
| VNone
| VBool (b : bool)
| VInt (z : Z)
| VFloat (f : float)
| VStr (s : string)
| VElementId (id : Z)
| VElement (cls : string) (id : Z)
| VCategory (bic : Z)
| VType (name : string)
| VDocument (d : Z)
| VList (l : list Value)
| VDict (d : list (string * Value))
| VParameterFilter (rules : list FilterRule) (inverted : bool)
with FilterRule : Type :=
| Rule (factory : string) (parameter_id : Value) (args : list Value)
| FilterInverseRule (r : FilterRule).

(** [DB.ElementFilter] objects accepted by [WherePasses]. *)
Inductive ElementFilter : Type :=
| FamilyInstanceFilter (doc : Z) (symbol_id : Z)
| ElementLevelFilter (level_id : Z) (inverted : bool)
| ElementParameterFilter (rules : list FilterRule) (inverted : bool).

(** ** Exceptions *)

(** [RPW_Exception] carries its message as the format template and the
    arguments given to [str.format]; [RPW_TypeError] the expected and the
    received type.  The others are raised by Python itself or by the host. *)
Inductive exn : Type :=
| RPW_Exception (template : string) (args : list Value)
| RPW_TypeError (expected : string) (received : string)
| KeyError (key : string)
| AttributeError (attr : string)
| TypeError (callee : string)
| LookupError (name : string)
| RuntimeError (msg : string).

Definition Res (A : Type) : Type := (exn + A)%type.

Definition Ok {A} (a : A) : Res A := inr a.
Definition Raise {A} (e : exn) : Res A := inl e.

Definition res_bind {A B} (r : Res A) (k : A -> Res B) : Res B :=
  match r with
  | inl e => inl e
  | inr a => k a
  end.

Definition res_map {A B} (f : A -> B) (r : Res A) : Res B :=
  res_bind r (fun a => Ok (f a)).

Declare Scope res_scope.
Delimit Scope res_scope with res.
Notation "'try' x <- c1 ; c2" := (res_bind c1 (fun x => c2))
  (at level 60, x pattern, c1 at next level, right associativity) : res_scope.

(** ** Dictionaries *)

Module Dict.

Definition t (V : Type) : Type := list (string * V).

Fixpoint get {V} (k : string) (d : t V) : option V :=
  match d with
  | [] => None
  | (k', v) :: d' => if String.eqb k k' then Some v else get k d'
  end.

(** [d.get(k, default)] *)
Definition get_default {V} (k : string) (d : t V) (default : V) : V :=
  match get k d with
  | Some v => v
  | None => default
  end.

(** [k in d] *)
Definition contains {V} (k : string) (d : t V) : bool :=
  match get k d with
  | Some _ => true
  | None => false
  end.

(** [d[k]] *)
Definition getitem {V} (k : string) (d : t V) : Res V :=
  match get k d with
  | Some v => Ok v
  | None => Raise (KeyError k)
  end.

Fixpoint remove {V} (k : string) (d : t V) : t V :=
  match d with
  | [] => []
  | (k', v) :: d' => if String.eqb k k' then d' else (k', v) :: remove k d'
  end.

(** [d.pop(k)] without a default: the value and the remaining dictionary,
    or [KeyError]. *)
Definition pop {V} (k : string) (d : t V) : Res (V * t V) :=
  match get k d with
  | Some v => Ok (v, remove k d)
  | None => Raise (KeyError k)
  end.

(** [d[k] = v]: an existing key keeps its place. *)
Fixpoint set {V} (k : string) (v : V) (d : t V) : t V :=
  match d with
  | [] => [(k, v)]
  | (k', v') :: d' =>
      if String.eqb k k' then (k, v) :: d' else (k', v') :: set k v d'
  end.

Definition keys {V} (d : t V) : list string := map fst d.

Definition iteritems {V} (d : t V) : list (string * V) := d.

Definition copy {V} (d : t V) : t V := d.

(** Truth value of a dictionary. *)
Definition nonempty {V} (d : t V) : bool :=
  match d with
  | [] => false
  | _ :: _ => true
  end.

(** [for key, value in src.iteritems(): dst[key] = value] *)
Definition update {V} (dst src : t V) : t V :=
  fold_left (fun d kv => set (fst kv) (snd kv) d) (iteritems src) dst.

End Dict.

Definition dict : Type := Dict.t Value.

(** ** Strings and type tests *)

(** [sub in s] *)
Fixpoint str_contains (sub s : string) : bool :=
  if String.prefix sub s then true
  else match s with
       | EmptyString => false
       | String _ s' => str_contains sub s'
       end.

(** [s.startswith(p)] *)
Definition startswith (p s : string) : bool := String.prefix p s.

(** [isinstance(v, str)] and [isinstance(v, float)] *)
Definition is_str (v : Value) : bool :=
  match v with VStr _ => true | _ => false end.

Definition is_float (v : Value) : bool :=
  match v with VFloat _ => true | _ => false end.

(** [isinstance(v, bool)] and [isinstance(v, ParameterFilter)] *)
Definition is_bool (v : Value) : bool :=
  match v with VBool _ => true | _ => false end.

Definition is_parameter_filter (v : Value) : bool :=
  match v with VParameterFilter _ _ => true | _ => false end.

(** [type(v)], by name. *)
Definition type_name (v : Value) : string :=
  match v with
  | VNone => "NoneType"
  | VBool _ => "bool"
  | VInt _ => "int"
  | VFloat _ => "float"
  | VStr _ => "str"
  | VElementId _ => "ElementId"
  | VElement cls _ => cls
  | VCategory _ => "BuiltInCategory"
  | VType _ => "type"
  | VDocument _ => "Document"
  | VList _ => "list"
  | VDict _ => "dict"
  | VParameterFilter _ _ => "ParameterFilter"
  end.

(** ** The element store *)

(** What a [DB.FilteredElementCollector] was constructed over. *)
Inductive Scope : Type :=
| WholeDocument
| InView (view_id : Z)
| AmongIds (ids : list Z).

(** The narrowing operations of a [DB.FilteredElementCollector]. *)
Inductive NarrowOp : Type :=
| OfClass (cls : string)
| OfCategory (bic : Z)
| WhereElementIsNotElementType
| WhereElementIsElementType
| WhereElementIsViewIndependent
| WherePasses (f : ElementFilter).

(** Modelled from the spec: the Element Store Adapter, which is the Revit
    API's [DB.FilteredElementCollector] and no code of this repository.  It
    is bound to a scope and is mutable: every narrowing method records its
    filter on the collector itself and returns that same collector. *)
Record FilteredElementCollector : Type := mkFEC {
  fec_doc : Z;
  fec_scope : Scope;
  fec_applied : list NarrowOp
}.

(** Arguments of a host method call: a Python value or a host filter. *)
Inductive Arg : Type :=
| AVal (v : Value)
| AFilter (f : ElementFilter).

(** The overload of [method] that accepts [args], if any. *)
Definition method_op (method : string) (args : list Arg) : option NarrowOp :=
  if String.eqb method "OfClass" then
    match args with [AVal (VType cls)] => Some (OfClass cls) | _ => None end
  else if String.eqb method "OfCategory" then
    match args with [AVal (VCategory b)] => Some (OfCategory b) | _ => None end
  else if String.eqb method "WhereElementIsNotElementType" then
    match args with [] => Some WhereElementIsNotElementType | _ => None end
  else if String.eqb method "WhereElementIsElementType" then
    match args with [] => Some WhereElementIsElementType | _ => None end
  else if String.eqb method "WhereElementIsViewIndependent" then
    match args with [] => Some WhereElementIsViewIndependent | _ => None end
  else if String.eqb method "WherePasses" then
    match args with [AFilter f] => Some (WherePasses f) | _ => None end
  else None.

(** Calling the method named [method] of [collector] on [args]. *)
Definition fec_call (method : string) (args : list Arg)
           (collector : FilteredElementCollector)
  : Res FilteredElementCollector :=
  match method_op method args with
  | Some op => Ok (mkFEC (fec_doc collector) (fec_scope collector)
                         (fec_applied collector ++ [op]))
  | None => Raise (TypeError method)
  end.

(** [DB.FilteredElementCollector(doc)], [(doc, view_id)], [(doc, ids)] *)
Definition new_FilteredElementCollector (doc : Value) (scope : Scope)
  : Res FilteredElementCollector :=
  match doc with
  | VDocument d => Ok (mkFEC d scope [])
  | _ => Raise (TypeError "FilteredElementCollector")
  end.

(** [List[DB.ElementId](v)] *)
Fixpoint element_id_list (l : list Value) : Res (list Z) :=
  match l with
  | [] => Ok []
  | VElementId id :: l' =>
      (try ids <- element_id_list l'; Ok (id :: ids))%res
  | _ :: _ => Raise (TypeError "List[ElementId]")
  end.

Definition List_ElementId (v : Value) : Res (list Z) :=
  match v with
  | VList l => element_id_list l
  | _ => Raise (TypeError "List[ElementId]")
  end.

(** The collaborators outside this module, taken as parameters: the ambient
    document [rpw.revit.doc], the class hierarchy of the host API
    ([derives_from c cls]: the element class named [c] is a proper subclass
    of the class named [cls]), the enumeration resolver [BicEnum.get] and
    [getattr(DB, name)], identity coercion [to_element_ids], the overloads
    that the host's rule factory accepts, and the store's elements with the
    meaning of its quick filters and atomic rules. *)
Class Host : Type := {
  Elem : Type;
  revit_doc : Z;
  derives_from : string -> string -> bool;
  BicEnum_get : string -> Res Value;
  DB_getattr : string -> Res Value;
  to_element_ids : Value -> Res Value;
  factory_accepts : string -> Value -> list Value -> bool;
  scope_elements : Z -> Scope -> list Elem;
  has_class : string -> Elem -> bool;
  has_category : Z -> Elem -> bool;
  is_element_type : Elem -> bool;
  is_view_independent : Elem -> bool;
  instance_of_symbol : Z -> Z -> Elem -> bool;
  on_level : Z -> Elem -> bool;
  atomic_passes : string -> Value -> list Value -> Elem -> bool
}.

Section Store.

Context {H : Host}.

(** A rule, evaluated on an element: [DB.FilterInverseRule] negates. *)
Fixpoint rule_passes (r : FilterRule) (e : Elem) : bool :=
  match r with
  | Rule factory parameter_id args => atomic_passes factory parameter_id args e
  | FilterInverseRule r' => negb (rule_passes r' e)
  end.

(** An element filter, evaluated on an element: a parameter filter passes
    the elements that satisfy all of its rules, or the others when inverted. *)
Definition filter_passes (f : ElementFilter) (e : Elem) : bool :=
  match f with
  | FamilyInstanceFilter d symbol_id => instance_of_symbol d symbol_id e
  | ElementLevelFilter level_id inverted => xorb inverted (on_level level_id e)
  | ElementParameterFilter rules inverted =>
      xorb inverted (forallb (fun r => rule_passes r e) rules)
  end.

Definition op_passes (op : NarrowOp) (e : Elem) : bool :=
  match op with
  | OfClass cls => has_class cls e
  | OfCategory bic => has_category bic e
  | WhereElementIsNotElementType => negb (is_element_type e)
  | WhereElementIsElementType => is_element_type e
  | WhereElementIsViewIndependent => is_view_independent e
  | WherePasses f => filter_passes f e
  end.

(** Modelled from the spec: the store adapter is enumerable into element
    handles, and narrowing only ever restricts.  Enumerating the host
    collector yields the elements of its scope that pass every filter
    applied to it so far, in the store's order. *)
Definition enumerate (collector : FilteredElementCollector) : list Elem :=
  filter (fun e => forallb (fun op => op_passes op e) (fec_applied collector))
         (scope_elements (fec_doc collector) (fec_scope collector)).

End Store.

(** ** ParameterFilter *)

Module ParameterFilter.

Definition RULES : Dict.t string :=
  [ ("equals", "CreateEqualsRule");
    ("not_equals", "CreateEqualsRule");
    ("contains", "CreateContainsRule");
    ("not_contains", "CreateContainsRule");
    ("begins", "CreateBeginsWithRule");
    ("not_begins", "CreateBeginsWithRule");
    ("ends", "CreateEndsWithRule");
    ("not_ends", "CreateEndsWithRule");
    ("greater", "CreateGreaterRule");
    ("not_greater", "CreateGreaterRule");
    ("greater_equal", "CreateGreaterOrEqualRule");
    ("not_greater_equal", "CreateGreaterOrEqualRule");
    ("less", "CreateLessRule");
    ("not_less", "CreateLessRule");
    ("less_equal", "CreateLessOrEqualRule");
    ("not_less_equal", "CreateLessOrEqualRule") ].

Definition CASE_SENSITIVE : Value := VBool true.
Definition FLOAT_PRECISION : Value := VFloat 0.0013020833333333%float.

(** The first loop of [__init__]: every key must be a rule name. *)
Fixpoint check_conditions (ks : list string) : Res unit :=
  match ks with
  | [] => Ok tt
  | condition :: ks' =>
      if negb (Dict.contains condition RULES)
      then Raise (RPW_Exception "Rule not valid: {}" [VStr condition])
      else check_conditions ks'
  end.

Section WithHost.

Context {H : Host}.

(** Calling the factory method [name] of [DB.ParameterFilterRuleFactory]
    on the parameter id and the arguments. *)
Definition call_factory (name : string) (parameter_id : Value)
           (args : list Value) : Res FilterRule :=
  if factory_accepts name parameter_id args
  then Ok (Rule name parameter_id args)
  else Raise (TypeError name).

(** One iteration of the second loop: the rule of one condition. *)
Definition build_rule (parameter_id case_sensitive precision : Value)
           (condition_name : string) (condition_value : Value)
  : Res FilterRule :=
  (try rule_factory_name <-
     match Dict.get condition_name RULES with
     | Some n => Ok n
     | None => Raise (TypeError "getattr")
     end;
   let args := [condition_value] in
   let args := if is_str condition_value
               then args ++ [case_sensitive] else args in
   let args := if is_float condition_value
               then args ++ [precision] else args in
   try filter_rule <- call_factory rule_factory_name parameter_id args;
   Ok (if str_contains "not_" condition_name
       then FilterInverseRule filter_rule
       else filter_rule))%res.

Fixpoint build_rules (parameter_id case_sensitive precision : Value)
         (items : list (string * Value)) (rules : list FilterRule)
  : Res (list FilterRule) :=
  match items with
  | [] => Ok rules
  | (condition_name, condition_value) :: items' =>
      (try filter_rule <- build_rule parameter_id case_sensitive
                                     precision condition_name
                                     condition_value;
       build_rules parameter_id case_sensitive precision items'
                   (rules ++ [filter_rule]))%res
  end.

(** [DB.ElementParameterFilter(List[DB.FilterRule](rules), reverse)],
    wrapped. *)
Definition wrap_ElementParameterFilter (rules : list FilterRule)
           (reverse : Value) : Res Value :=
  match reverse with
  | VBool b => Ok (VParameterFilter rules b)
  | _ => Raise (TypeError "ElementParameterFilter")
  end.

(** [ParameterFilter] called on [parameter_id] and keyword arguments
    [conditions]. *)
Definition __init__ (parameter_id : Value) (conditions : dict)
  : Res Value :=
  let reverse := Dict.get_default "reverse" conditions (VBool false) in
  let case_sensitive :=
    Dict.get_default "case_sensitive" conditions CASE_SENSITIVE in
  let precision :=
    Dict.get_default "precision" conditions FLOAT_PRECISION in
  (try _ <- check_conditions (Dict.keys conditions);
   try rules <- build_rules parameter_id case_sensitive precision
                            (Dict.iteritems conditions) [];
   match rules with
   | [] => Raise (RPW_Exception "malformed filter rule: {}"
                                [VDict conditions])
   | _ :: _ => wrap_ElementParameterFilter rules reverse
   end)%res.

(** The predicate of a constructed [ParameterFilter]: what the store's
    [WherePasses] evaluates on an element. *)
Definition predicate (pf : Value) (e : Elem) : option bool :=
  match pf with
  | VParameterFilter rules inverted =>
      Some (filter_passes (ElementParameterFilter rules inverted) e)
  | _ => None
  end.

End WithHost.

End ParameterFilter.

(** ** Sub-filters *)

Section SubFilters.

Context {H : Host}.

(** [isinstance(v, DB.<cls>)] for an API handle: an element is an instance
    of its own class and of every class that its class derives from.  No
    element class derives from [DB.ElementId]. *)
Definition isinstance (v : Value) (cls : string) : bool :=
  match v with
  | VElementId _ => String.eqb cls "ElementId"
  | VElement c _ =>
      String.eqb c cls
      || (negb (String.eqb cls "ElementId") && derives_from c cls)
  | _ => false
  end.

(** [v.Id] *)
Definition get_Id (v : Value) : Res Value :=
  match v with
  | VElement _ id => Ok (VElementId id)
  | _ => Raise (AttributeError "Id")
  end.

(** [DB.FamilyInstanceFilter(doc, symbol_id)] *)
Definition new_FamilyInstanceFilter (doc symbol_id : Value)
  : Res ElementFilter :=
  match doc, symbol_id with
  | VDocument d, VElementId id => Ok (FamilyInstanceFilter d id)
  | _, _ => Raise (TypeError "FamilyInstanceFilter")
  end.

(** [DB.ElementLevelFilter(level_id, reverse)] *)
Definition new_ElementLevelFilter (level_id : Value) (reverse : bool)
  : Res ElementFilter :=
  match level_id with
  | VElementId id => Ok (ElementLevelFilter id reverse)
  | _ => Raise (TypeError "ElementLevelFilter")
  end.

(** [_FamilyInstanceFilter(symbol_or_id, doc=doc).unwrap()] *)
Definition _FamilyInstanceFilter (symbol_or_id doc : Value)
  : Res ElementFilter :=
  (try symbol_id <-
     (if isinstance symbol_or_id "ElementId" then Ok symbol_or_id
      else if isinstance symbol_or_id "FamilySymbol" then
        get_Id symbol_or_id
      else Raise (RPW_TypeError "FamilySymbol or FamilySymbol Id"
                                (type_name symbol_or_id)));
   new_FamilyInstanceFilter doc symbol_id)%res.

(** [_ElementLevelFilter(level_or_id, reverse=reverse).unwrap()] *)
Definition _ElementLevelFilter (level_or_id : Value) (reverse : bool)
  : Res ElementFilter :=
  (try level_id <-
     (if isinstance level_or_id "ElementId" then Ok level_or_id
      else if isinstance level_or_id "Level" then get_Id level_or_id
      else Raise (RPW_TypeError "Level or Level Id"
                                (type_name level_or_id)));
   new_ElementLevelFilter level_id reverse)%res.

End SubFilters.

(** ** The Collector object and its monad *)

Section CollectorObject.

Context {H : Host}.

(** The attributes of a [Collector] instance.  [_revit_object] is the one
    host collector that the instance, its [_Filter] helper and every
    recursive [_chain] call share. *)
Record CollectorObj : Type := mkCollector {
  _revit_object : FilteredElementCollector;
  _collector_doc : Value;
  elements : list Elem;
  _filters : dict
}.

(** Computations on a Collector: they may change it and may raise, and what
    was changed before an exception stays changed. *)
Definition M (A : Type) : Type := CollectorObj -> Res A * CollectorObj.

Definition ret {A} (a : A) : M A := fun c => (Ok a, c).

Definition raise {A} (e : exn) : M A := fun c => (Raise e, c).

Definition bind {A B} (m : M A) (k : A -> M B) : M B :=
  fun c => match m c with
           | (inl e, c') => (inl e, c')
           | (inr a, c') => k a c'
           end.

Definition lift {A} (r : Res A) : M A := fun c => (r, c).

Definition gets {A} (f : CollectorObj -> A) : M A := fun c => (Ok (f c), c).

Definition modify (f : CollectorObj -> CollectorObj) : M unit :=
  fun c => (Ok tt, f c).

Definition set_revit_object (fec : FilteredElementCollector)
           (c : CollectorObj) : CollectorObj :=
  mkCollector fec (_collector_doc c) (elements c) (_filters c).

Definition set_elements (els : list Elem) (c : CollectorObj) : CollectorObj :=
  mkCollector (_revit_object c) (_collector_doc c) els (_filters c).

Definition set_filters (fs : dict) (c : CollectorObj) : CollectorObj :=
  mkCollector (_revit_object c) (_collector_doc c) (elements c) fs.

End CollectorObject.

Declare Scope collector_scope.
Delimit Scope collector_scope with M.
Notation "'do' x <- c1 ; c2" := (bind c1 (fun x => c2))
  (at level 60, x pattern, c1 at next level, right associativity)
  : collector_scope.

(** ** _Filter *)

Module _Filter.

Definition MAP : Dict.t string :=
  [ ("of_class", "OfClass");
    ("of_category", "OfCategory");
    ("is_not_type", "WhereElementIsNotElementType");
    ("is_type", "WhereElementIsElementType");
    ("is_view_independent", "WhereElementIsViewIndependent");
    ("symbol", "WherePasses");
    ("level", "WherePasses");
    ("not_level", "WherePasses");
    ("parameter_filter", "WherePasses") ].

Section WithHost.

Context {H : Host}.

(** Calling a narrowing method of the Collector's host collector: the host
    collector is changed in place. *)
Definition call_collector (method : string) (args : list Arg) : M unit :=
  fun c => match fec_call method args (_revit_object c) with
           | inl e => (Raise e, c)
           | inr fec => (Ok tt, set_revit_object fec c)
           end.

(** The body of the loop of [_chain], up to the pop: the narrowing for one
    filter.  The method is looked up in [MAP] before the name is checked. *)
Definition apply_filter (filter_name : string) (filter_value : Value)
  : M unit :=
  (do collector_filter <- lift (Dict.getitem filter_name MAP);
   if negb (Dict.contains filter_name MAP) then
     raise (RPW_Exception "collector filter rule does not exist: {}"
                          [VStr filter_name])
   else
     match filter_value with
     | VBool true => call_collector collector_filter []
     | VBool false =>
         if String.eqb filter_name "is_type" then
           do collector_filter <- lift (Dict.getitem "is_not_type" MAP);
           call_collector collector_filter []
         else if String.eqb filter_name "is_not_type" then
           do collector_filter <- lift (Dict.getitem "is_type" MAP);
           call_collector collector_filter []
         else ret tt
     | VParameterFilter rules inverted =>
         call_collector collector_filter
                        [AFilter (ElementParameterFilter rules inverted)]
     | _ =>
         if String.eqb filter_name "symbol" then
           do doc <- gets _collector_doc;
           do f <- lift (_FamilyInstanceFilter filter_value doc);
           call_collector collector_filter [AFilter f]
         else if String.eqb filter_name "level"
                 || String.eqb filter_name "not_level" then
           let reverse := if startswith "not" filter_name
                          then true else false in
           do f <- lift (_ElementLevelFilter filter_value reverse);
           call_collector collector_filter [AFilter f]
         else if String.eqb filter_name "of_class"
                 || String.eqb filter_name "of_category" then
           call_collector collector_filter [AVal filter_value]
         else
           raise (RPW_Exception "unknown parameter filter error: {}:{}"
                                [VStr filter_name; filter_value])
     end)%M.

(** The loop of [_chain] over the items of [filters], with [filter_stack]
    the copy that loses a name at every iteration; [chain] is the recursive
    call. *)
Fixpoint chain_loop (chain : dict -> M unit)
         (items : list (string * Value)) (filter_stack : dict) : M unit :=
  match items with
  | [] => ret tt
  | (filter_name, filter_value) :: items' =>
      (do _ <- apply_filter filter_name filter_value;
       do popped <- lift (Dict.pop filter_name filter_stack);
       let filter_stack := snd popped in
       do _ <- chain filter_stack;
       chain_loop chain items' filter_stack)%M
  end.

(** [_chain], with the depth of recursion left. *)
Fixpoint chain_rec (depth : nat) (filters : dict) : M unit :=
  match depth with
  | O => raise (RuntimeError "maximum recursion depth exceeded")
  | S depth' =>
      chain_loop (chain_rec depth') (Dict.iteritems filters)
                 (Dict.copy filters)
  end.

(** [self._chain(filters)]: the recursion is never deeper than the number
    of filters plus one. *)
Definition _chain (filters : dict) : M unit :=
  chain_rec (S (List.length filters)) filters.

Definition _coerce_filter_values (filters : dict) : Res dict :=
  (let category_name := Dict.get "of_category" filters in
   try filters <-
     match category_name with
     | Some (VStr (String a s)) =>
         try v <- BicEnum_get (String a s);
         Ok (Dict.set "of_category" v filters)
     | _ => Ok filters
     end;
   let class_name := Dict.get "of_class" filters in
   match class_name with
   | Some (VStr (String a s)) =>
       try v <- DB_getattr (String a s);
       Ok (Dict.set "of_class" v filters)
   | _ => Ok filters
   end)%res.

(** [collector.filter] called on keyword arguments [filters]; the Collector
    it returns is the state. *)
Definition __call__ (filters : dict) : M unit :=
  (do filters <- lift (_coerce_filter_values filters);
   do _ <- modify (fun c => set_filters (Dict.update (_filters c) filters) c);
   do stored <- gets _filters;
   do _ <- _chain stored;
   modify (fun c => set_elements (enumerate (_revit_object c)) c))%M.

End WithHost.

End _Filter.

(** ** Collector *)

Module Collector.

(** The loop of [__init__] over the keys left after the scope was picked. *)
Fixpoint check_filters (ks : list string) : Res unit :=
  match ks with
  | [] => Ok tt
  | key :: ks' =>
      if negb (Dict.contains key _Filter.MAP)
      then Raise (RPW_Exception "Collector Filter not valid: {}" [VStr key])
      else check_filters ks'
  end.

(** [DB.FilteredElementCollector(collector_doc, view_id)] *)
Definition new_collector_in_view (collector_doc view_id : Value)
  : Res FilteredElementCollector :=
  match view_id with
  | VElementId id => new_FilteredElementCollector collector_doc (InView id)
  | _ => Raise (TypeError "FilteredElementCollector")
  end.

(** [DB.FilteredElementCollector(collector_doc, List[DB.ElementId](ids))] *)
Definition new_collector_among (collector_doc element_ids : Value)
  : Res FilteredElementCollector :=
  (try ids <- List_ElementId element_ids;
   new_FilteredElementCollector collector_doc (AmongIds ids))%res.

Section WithHost.

Context {H : Host}.

(** The scope part of [__init__]: the document, the host collector bound to
    the chosen scope, and the keyword arguments that were not popped. *)
Definition pick_scope (filters : dict)
  : Res (Value * FilteredElementCollector * dict) :=
  (try (collector_doc, filters) <-
     (if Dict.contains "doc" filters then Dict.pop "doc" filters
      else Ok (VDocument revit_doc, filters));
   if Dict.contains "view" filters then
     try (view, filters) <- Dict.pop "view" filters;
     try view_id <- (if isinstance view "ElementId" then Ok view
                     else get_Id view);
     try collector <- new_collector_in_view collector_doc view_id;
     Ok (collector_doc, collector, filters)
   else if Dict.contains "elements" filters then
     try (elements, filters) <- Dict.pop "elements" filters;
     try element_ids <- to_element_ids elements;
     try collector <- new_collector_among collector_doc element_ids;
     Ok (collector_doc, collector, filters)
   else if Dict.contains "element_ids" filters then
     try (element_ids, filters) <- Dict.pop "element_ids" filters;
     try collector <- new_collector_among collector_doc element_ids;
     Ok (collector_doc, collector, filters)
   else
     try collector <- new_FilteredElementCollector collector_doc
                                                   WholeDocument;
     Ok (collector_doc, collector, filters))%res.

(** [Collector] called on keyword arguments [filters]. *)
Definition __init__ (filters : dict) : Res CollectorObj :=
  (try (collector_doc, collector, filters) <- pick_scope filters;
   try _ <- check_filters (Dict.keys filters);
   let self := mkCollector collector collector_doc [] filters in
   if Dict.nonempty filters then
     match _Filter.__call__ filters self with
     | (inl e, _) => Raise e
     | (inr _, self') => Ok self'
     end
   else Ok self)%res.

(** [collector.filter] called on keyword arguments: the exception raised,
    if any, and the Collector afterwards. *)
Definition filter (filters : dict) (self : CollectorObj)
  : Res unit * CollectorObj :=
  _Filter.__call__ filters self.

(** [iter(collector)], run to the end. *)
Definition __iter__ (self : CollectorObj) : list Elem :=
  enumerate (_revit_object self).

(** [collector.first]; [None] is Python's. *)
Definition first (self : CollectorObj) : option Elem :=
  nth_error (elements self) 0.

Definition __bool__ (self : CollectorObj) : bool :=
  match elements self with
  | [] => false
  | _ :: _ => true
  end.

Definition __len__ (self : CollectorObj) : nat :=
  List.length (elements self).

(** The ResultSet of a construction or of a call: the exception, or the
    cached elements. *)
Definition result_set (r : Res CollectorObj) : Res (list Elem) :=
  res_map elements r.

End WithHost.

End Collector.

(** ** Scope precedence *)

Section BindScope.

Context {H : Host}.

(** The document and the host collector that [Collector.pick_scope] binds,
    as a function of the four scope arguments: a view comes before explicit
    elements, these before explicit ids, these before the whole document. *)
Definition bind_scope (doc view elements element_ids : option Value)
  : Res (Value * FilteredElementCollector) :=
  let collector_doc := match doc with
                       | Some d => d
                       | None => VDocument revit_doc
                       end in
  match view, elements, element_ids with
  | Some view, _, _ =>
      (try view_id <- (if isinstance view "ElementId" then Ok view
                       else get_Id view);
       try collector <- Collector.new_collector_in_view collector_doc view_id;
       Ok (collector_doc, collector))%res
  | None, Some elements, _ =>
      (try element_ids <- to_element_ids elements;
       try collector <- Collector.new_collector_among collector_doc
                                                      element_ids;
       Ok (collector_doc, collector))%res
  | None, None, Some element_ids =>
      (try collector <- Collector.new_collector_among collector_doc
                                                      element_ids;
       Ok (collector_doc, collector))%res
  | None, None, None =>
      (try collector <- new_FilteredElementCollector collector_doc
                                                     WholeDocument;
       Ok (collector_doc, collector))%res
  end.

End BindScope.

(** ** A small host to run the code on *)

Module Demo.

Definition wall_1 : Z := 1%Z.
Definition wall_2 : Z := 2%Z.
Definition wall_type : Z := 3%Z.
Definition door : Z := 4%Z.

Definition demo_to_element_ids (v : Value) : Res Value :=
  match v with
  | VList l =>
      Ok (VList (map (fun x => match x with
                               | VElement _ id => VElementId id
                               | _ => x
                               end) l))
  | _ => Raise (TypeError "to_element_ids")
  end.

Definition demo_scope_elements (d : Z) (s : Scope) : list Z :=
  match s with
  | WholeDocument => [wall_1; wall_2; wall_type; door]
  | InView _ => [wall_1; door]
  | AmongIds ids => ids
  end.

Definition host : Host := {|
  Elem := Z;
  revit_doc := 0;
  derives_from := fun c cls =>
    String.eqb c "AnnotationSymbolType" && String.eqb cls "FamilySymbol";
  BicEnum_get := fun s =>
    if String.eqb s "OST_Walls" then Ok (VCategory 2000011)
    else Raise (LookupError s);
  DB_getattr := fun s =>
    if String.eqb s "Wall" || String.eqb s "WallType" then Ok (VType s)
    else Raise (AttributeError s);
  to_element_ids := demo_to_element_ids;
  factory_accepts := fun _ _ _ => true;
  scope_elements := demo_scope_elements;
  has_class := fun cls e =>
    if String.eqb cls "Wall" then Z.leb e 2
    else if String.eqb cls "WallType" then Z.eqb e 3
    else false;
  has_category := fun bic e => Z.eqb bic 2000011 && Z.leb e 3;
  is_element_type := fun e => Z.eqb e 3;
  is_view_independent := fun _ => true;
  instance_of_symbol := fun _ sym e => Z.eqb sym 3 && Z.leb e 2;
  on_level := fun lvl e => Z.eqb lvl 10 && Z.leb e 2;
  atomic_passes := fun factory _ args e =>
    match args with
    | VInt z :: _ => String.eqb factory "CreateEqualsRule" && Z.eqb e z
    | _ => false
    end
|}.

(** A Collector over the whole demo document, before any filter. *)
Definition fresh : CollectorObj (H := host) :=
  mkCollector (H := host) (mkFEC 0 WholeDocument []) (VDocument 0) [] [].

(** [Collector(of_class='Wall')] on the demo host. *)
Definition walls : CollectorObj (H := host) :=
  mkCollector (H := host) (mkFEC 0 WholeDocument [OfClass "Wall"])
              (VDocument 0) [wall_1; wall_2] [("of_class", VType "Wall")].

End Demo.

(** ** What a chain applies *)

(** A host collector with further operations recorded on it. *)
Definition narrowed (ops : list NarrowOp) (fec : FilteredElementCollector)
  : FilteredElementCollector :=
  mkFEC (fec_doc fec) (fec_scope fec) (fec_applied fec ++ ops).

Section ChainOps.

Context {H : Host}.

(** A Collector over [doc] with nothing applied, stored or cached. *)
Definition blank (doc : Value) : CollectorObj :=
  mkCollector (mkFEC 0 WholeDocument []) doc [] [].

(** The narrowing operations that [_Filter.apply_filter] records for one
    filter, read off a run on a blank Collector. *)
Definition narrowing (doc : Value) (filter_name : string)
           (filter_value : Value) : Res (list NarrowOp) :=
  match _Filter.apply_filter filter_name filter_value (blank doc) with
  | (inl e, _) => Raise e
  | (inr _, c) => Ok (fec_applied (_revit_object c))
  end.

(** The operations of a whole [_chain]: after each filter, the chain of the
    filters behind it runs twice, once as the recursive call and once as
    the rest of the loop. *)
Fixpoint chain_ops (doc : Value) (filters : dict) : Res (list NarrowOp) :=
  match filters with
  | [] => Ok []
  | (filter_name, filter_value) :: filters' =>
      (try here <- narrowing doc filter_name filter_value;
       try deeper <- chain_ops doc filters';
       try after <- chain_ops doc filters';
       Ok (here ++ deeper ++ after))%res
  end.

(** Recording operations on the Collector's host collector. *)
Definition push (ops : list NarrowOp) (c : CollectorObj) : CollectorObj :=
  set_revit_object (narrowed ops (_revit_object c)) c.

End ChainOps.

(** The comparison vocabulary of [ParameterFilter], without negation. *)
Definition comparisons : list string :=
  [ "equals"; "contains"; "begins"; "ends";
    "greater"; "greater_equal"; "less"; "less_equal" ].

(** The option names that the docstring of [ParameterFilter] lists next to
    the conditions. *)
Definition option_keys : list string :=
  [ "case_sensitive"; "precision"; "reverse" ].

(** What is left of the keyword arguments once [Collector.__init__] has
    popped the document and the one scope it picked. *)
Definition after_scope (kw : dict) : dict :=
  let kw := Dict.remove "doc" kw in
  if Dict.contains "view" kw then Dict.remove "view" kw
  else if Dict.contains "elements" kw then Dict.remove "elements" kw
  else if Dict.contains "element_ids" kw then Dict.remove "element_ids" kw
  else kw.

(** Two keyword dictionaries that differ in one stretch only: [x] stands in
    the first where [y] stands in the second. *)
Definition differ_at (x y d1 d2 : dict) : Prop :=
  exists pre post, d1 = pre ++ x ++ post /\ d2 = pre ++ y ++ post.

(** The keyword arguments that select the scope of a Collector. *)
Definition scope_keys : list string :=
  [ "doc"; "view"; "elements"; "element_ids" ].

(** Two results agree when they raise the same exception or return lists
    with the same members. *)
Definition same_ops (r1 r2 : Res (list NarrowOp)) : Prop :=
  match r1, r2 with
  | inl e1, inl e2 => e1 = e2
  | inr o1, inr o2 => forall op, In op o1 <-> In op o2
  | _, _ => False
  end.

(** ** The chain, one filter at a time *)

Section OnceOps.

Context {H : Host}.

(** The operations of the filters of a dictionary when each filter is
    applied once, in the dictionary's order. *)
Fixpoint once_ops (doc : Value) (filters : dict) : Res (list NarrowOp) :=
  match filters with
  | [] => Ok []
  | (filter_name, filter_value) :: filters' =>
      (try here <- narrowing doc filter_name filter_value;
       try rest <- once_ops doc filters';
       Ok (here ++ rest))%res
  end.

(** The elements that pass every one of some operations. *)
Definition passes_all (ops : list NarrowOp) (e : Elem) : bool :=
  forallb (fun op => op_passes op e) ops.

End OnceOps.

(** A filter that the chain passes over: [False] for any name other than
    [is_type] and [is_not_type]. *)
Definition skipped (filter_name : string) (filter_value : Value) : bool :=
  match filter_value with
  | VBool false =>
      negb (String.eqb filter_name "is_type"
            || String.eqb filter_name "is_not_type")
  | _ => false
  end.


(** ** The rule of one condition, spelt out *)

(** What follows the value in the argument list of a rule factory: the
    default case sensitivity after a string, the default precision after a
    float, nothing otherwise. *)
Definition default_extra_args (value : Value) : list Value :=
  match value with
  | VStr _ => [ParameterFilter.CASE_SENSITIVE]
  | VFloat _ => [ParameterFilter.FLOAT_PRECISION]
  | _ => []
  end.

(** [r] is the rule of the condition [kv] on [parameter_id] under the
    default options: built by the factory method that [RULES] binds the
    name to, inverted exactly when the name starts with [not_]. *)
Definition rule_for (parameter_id : Value) (kv : string * Value)
           (r : FilterRule) : Prop :=
  exists factory,
    Dict.get (fst kv) ParameterFilter.RULES = Some factory
    /\ r = let atomic := Rule factory parameter_id
                              (snd kv :: default_extra_args (snd kv)) in
           if String.prefix "not_" (fst kv)
           then FilterInverseRule atomic else atomic.


(** ** Name resolution, one key at a time *)

(** How [_coerce_filter_values] treats the value under one key: a non-empty
    string is replaced by what the resolver returns for it, anything else
    (no value, another type, the empty string) is left as it is. *)
Definition resolved (resolve : string -> Res Value)
           (before after : option Value) : Prop :=
  match before with
  | Some (VStr (String a s)) =>
      exists v, resolve (String a s) = Ok v /\ after = Some v
  | _ => after = before
  end.


(** ** Wrapped elements and the wall wrappers of [rpw.db.wall] *)

(** The collaborators of the wrappers, taken as parameters:
    [Element.Factory], [BipEnum.get_id], the [name] of a wrapped symbol,
    the [Kind] and [Category] attributes that the host gives a wall type,
    and [BaseObjectWrapper.__getattr__], the lookup of an attribute name on
    a [WallKind] wrapper that Python falls back to when the property of
    that name raises [AttributeError].  A [WallKind] or [WallCategory]
    wrapper is identified with the host value it wraps. *)
Class Wrappers {H : Host} : Type := {
  Wrapped : Type;
  Element_Factory : Elem -> Wrapped;
  BipEnum_get_id : string -> Res Value;
  wrapped_name : Wrapped -> Value;
  Kind : Wrapped -> Z;
  Category : Elem -> Value;
  wall_kind_getattr : Z -> string -> Res Value
}.

Module CollectorViews.

Section WithWrappers.

Context {H : Host} {W : Wrappers}.

(** [collector.wrapped_elements] *)
Definition wrapped_elements (self : CollectorObj) : list Wrapped :=
  map Element_Factory (elements self).

End WithWrappers.

End CollectorViews.

Module Wall.

Definition _collector_params : dict :=
  [("of_class", VType "Wall"); ("is_type", VBool false)].

End Wall.

Module WallType.

Definition _collector_params : dict :=
  [("of_class", VType "WallType"); ("is_type", VBool true)].

Section WithWrappers.

Context {H : Host} {W : Wrappers}.

(** [wall_type.instances] *)
Definition instances (self : Wrapped) : Res (list Wrapped) :=
  (try bip <- BipEnum_get_id "SYMBOL_NAME_PARAM";
   try param_filter <-
     ParameterFilter.__init__ bip [("equals", wrapped_name self)];
   try collector <-
     Collector.__init__ (("parameter_filter", param_filter)
                           :: Wall._collector_params);
   Ok (CollectorViews.wrapped_elements collector))%res.

End WithWrappers.

End WallType.

Module WallKind.

Section WithWrappers.

Context {H : Host} {W : Wrappers}.

(** [wall_kind.wall_types], for the kind that the wrapper wraps. *)
Definition wall_types (self : Z) : Res (list Wrapped) :=
  (try collector <- Collector.__init__ WallType._collector_params;
   let wall_types := CollectorViews.wrapped_elements collector in
   Ok (List.filter (fun wall_type => Z.eqb (Kind wall_type) self)
                   wall_types))%res.

(** [wall_kind.symbols] *)
Definition symbols (self : Z) : Res (list Wrapped) := wall_types self.

(** The loop of [wall_kind.instances]. *)
Fixpoint extend_instances (wall_types : list Wrapped)
         (instances : list Wrapped) : Res (list Wrapped) :=
  match wall_types with
  | [] => Ok instances
  | wall_type :: wall_types' =>
      (try found <- WallType.instances wall_type;
       extend_instances wall_types' (instances ++ found))%res
  end.

(** [wall_kind.instances] *)
Definition instances (self : Z) : Res (list Wrapped) :=
  (try wall_types <- wall_types self;
   extend_instances wall_types [])%res.

(** The body of the property [wall_kind.category].  Without a wall type,
    [first] is [None] and reading [Category] off it raises
    [AttributeError]. *)
Definition category_getter (self : Z) : Res Value :=
  (try collector <-
     Collector.__init__ [("of_class", VType "WallType");
                         ("is_type", VBool true)];
   match Collector.first collector with
   | Some wall_type => Ok (Category wall_type)
   | None => Raise (AttributeError "Category")
   end)%res.

(** [wall_kind.category]: the class defines [__getattr__], so when the
    property raises [AttributeError] the attribute access goes on to
    [__getattr__] with the name [category], and what that returns or raises
    is the outcome; any other exception of the property is raised as it
    is. *)
Definition category (self : Z) : Res Value :=
  match category_getter self with
  | inl (AttributeError _) => wall_kind_getattr self "category"
  | r => r
  end.

End WithWrappers.

End WallKind.

Module WallTypeLinks.

Section WithWrappers.

Context {H : Host} {W : Wrappers}.

(** [wall_type.siblings]: the wall types of the wall type's own kind. *)
Definition siblings (self : Wrapped) : Res (list Wrapped) :=
  WallKind.wall_types (Kind self).

End WithWrappers.

End WallTypeLinks.

(** ** A small set of wrappers to run the wall code on *)

Module DemoWalls.

Definition demo_get_id (s : string) : Res Value :=
  if String.eqb s "SYMBOL_NAME_PARAM" then Ok (VElementId 7)
  else Raise (LookupError s).

(** Every element is wrapped as itself; the wall type of the demo document
    is of kind 1 and carries the name that the first wall is typed by. *)
Definition wrappers : Wrappers (H := Demo.host) :=
  @Build_Wrappers Demo.host Z (fun e : Z => e) demo_get_id
                  (fun w : Z => VInt (w - 2)) (fun w : Z => Z.modulo w 2)
                  (fun e : Z => VCategory 2000011)
                  (fun (k : Z) (name : string) => Raise (AttributeError name)).


End DemoWalls.

(** * Properties *)

Unset Implicit Arguments.

(** ** Dictionaries *)

Section DictFacts.

Variable V : Type.
Implicit Types (d s : Dict.t V) (k : string) (v : V).

Lemma get_set_same k v d : Dict.get k (Dict.set k v d) = Some v.
Proof.
  induction d as [|[k' v'] d IH]; simpl.
  - now rewrite String.eqb_refl.
  - destruct (String.eqb k k') eqn:E; simpl; rewrite ?String.eqb_refl, ?E; auto.
Qed.

Lemma get_set_other k k' v d :
  k <> k' -> Dict.get k (Dict.set k' v d) = Dict.get k d.
Proof.
  intros Hne. induction d as [|[k1 v1] d IH]; simpl.
  - apply String.eqb_neq in Hne. now rewrite Hne.
  - destruct (String.eqb k' k1) eqn:E; simpl.
    + apply String.eqb_eq in E. subst k1.
      apply String.eqb_neq in Hne. now rewrite Hne.
    + now rewrite IH.
Qed.

Lemma contains_set k k' v d :
  Dict.contains k d = true -> Dict.contains k (Dict.set k' v d) = true.
Proof.
  unfold Dict.contains. intros Hk.
  destruct (string_dec k k') as [->|Hne].
  - now rewrite get_set_same.
  - now rewrite get_set_other.
Qed.

Lemma set_set k v v' d : Dict.set k v (Dict.set k v' d) = Dict.set k v d.
Proof.
  induction d as [|[k1 v1] d IH]; simpl.
  - now rewrite String.eqb_refl.
  - destruct (String.eqb k k1) eqn:E; simpl; rewrite ?String.eqb_refl, ?E.
    + reflexivity.
    + now rewrite IH.
Qed.

Lemma set_comm k k' v v' d :
  k <> k' -> Dict.contains k d = true ->
  Dict.set k v (Dict.set k' v' d) = Dict.set k' v' (Dict.set k v d).
Proof.
  intros Hne. unfold Dict.contains.
  induction d as [|[k1 v1] d IH]; simpl; [discriminate|].
  destruct (String.eqb k k1) eqn:E.
  - intros _. apply String.eqb_eq in E. subst k1.
    assert (E' : String.eqb k' k = false)
      by (apply String.eqb_neq; congruence).
    rewrite E'. simpl. now rewrite String.eqb_refl, E'.
  - intros Hk. destruct (String.eqb k' k1) eqn:E1; simpl.
    + apply String.eqb_eq in E1. subst k1.
      now rewrite E, String.eqb_refl.
    + now rewrite E, E1, IH.
Qed.

Lemma set_get_id k v d : Dict.get k d = Some v -> Dict.set k v d = d.
Proof.
  induction d as [|[k1 v1] d IH]; simpl; [discriminate|].
  destruct (String.eqb k k1) eqn:E.
  - intros [= ->]. apply String.eqb_eq in E. now subst.
  - intros Hk. now rewrite IH.
Qed.

Lemma keys_set_present k v d :
  Dict.contains k d = true -> Dict.keys (Dict.set k v d) = Dict.keys d.
Proof.
  unfold Dict.contains, Dict.keys.
  induction d as [|[k1 v1] d IH]; simpl; [discriminate|].
  destruct (String.eqb k k1) eqn:E; simpl.
  - intros _. apply String.eqb_eq in E. now subst.
  - intros Hk. now rewrite IH.
Qed.

Lemma contains_update k d s :
  Dict.contains k d = true -> Dict.contains k (Dict.update d s) = true.
Proof.
  unfold Dict.update, Dict.iteritems. revert d.
  induction s as [|[k1 v1] s IH]; simpl; intros d Hk; auto.
  apply IH. now apply contains_set.
Qed.

Lemma get_update_other k d s :
  ~ In k (Dict.keys s) -> Dict.get k (Dict.update d s) = Dict.get k d.
Proof.
  unfold Dict.update, Dict.iteritems. revert d.
  induction s as [|[k1 v1] s IH]; simpl; intros d Hk; auto.
  rewrite IH by tauto. apply get_set_other. intros ->. tauto.
Qed.

Lemma update_set_absorbed k v d s :
  Dict.contains k d = true -> In k (Dict.keys s) ->
  Dict.update (Dict.set k v d) s = Dict.update d s.
Proof.
  unfold Dict.update, Dict.iteritems. revert d.
  induction s as [|[k1 v1] s IH]; simpl; intros d Hk Hin; [tauto|].
  destruct (string_dec k1 k) as [->|Hne].
  - rewrite set_set. reflexivity.
  - rewrite <- (set_comm k k1) by auto.
    apply IH.
    + now apply contains_set.
    + destruct Hin; [congruence|assumption].
Qed.

(** Merging the same keyword arguments a second time changes nothing. *)
Lemma update_idempotent d s :
  Dict.update (Dict.update d s) s = Dict.update d s.
Proof.
  revert d. induction s as [|[k v] s IH]; intros d; [reflexivity|].
  change (Dict.update d ((k, v) :: s)) with (Dict.update (Dict.set k v d) s).
  set (d' := Dict.set k v d).
  change (Dict.update (Dict.update d' s) ((k, v) :: s))
    with (Dict.update (Dict.set k v (Dict.update d' s)) s).
  assert (Hk : Dict.contains k (Dict.update d' s) = true).
  { apply contains_update. unfold Dict.contains, d'.
    now rewrite get_set_same. }
  destruct (in_dec string_dec k (Dict.keys s)) as [Hin|Hnin].
  - rewrite update_set_absorbed by assumption. apply IH.
  - rewrite set_get_id; [apply IH|].
    rewrite get_update_other by assumption. apply get_set_same.
Qed.

Lemma set_app_notin k v pre d :
  ~ In k (Dict.keys pre) ->
  Dict.set k v (pre ++ d) = pre ++ Dict.set k v d.
Proof.
  unfold Dict.keys.
  induction pre as [|[k1 v1] pre IH]; simpl; intros Hk; auto.
  destruct (String.eqb k k1) eqn:E.
  - apply String.eqb_eq in E. subst. tauto.
  - now rewrite IH by tauto.
Qed.

Lemma update_over_prefix pre d d' :
  NoDup (Dict.keys (pre ++ d)) -> Dict.keys d' = Dict.keys d ->
  Dict.update (pre ++ d) d' = pre ++ d'.
Proof.
  revert pre d. induction d' as [|[k v] d' IH]; intros pre d Hnd Hkeys.
  - destruct d; [reflexivity|discriminate].
  - destruct d as [|[k1 v1] d]; [discriminate|].
    simpl in Hkeys. injection Hkeys as <- Hkeys.
    change (Dict.update (pre ++ (k, v1) :: d) ((k, v) :: d'))
      with (Dict.update (Dict.set k v (pre ++ (k, v1) :: d)) d').
    assert (Hpre : ~ In k (Dict.keys pre)).
    { unfold Dict.keys in *. rewrite map_app in Hnd. simpl in Hnd.
      apply NoDup_remove_2 in Hnd. rewrite in_app_iff in Hnd. tauto. }
    rewrite set_app_notin by assumption. simpl. rewrite String.eqb_refl.
    change (pre ++ (k, v) :: d) with (pre ++ [(k, v)] ++ d).
    change (pre ++ (k, v) :: d') with (pre ++ [(k, v)] ++ d').
    rewrite !app_assoc. apply IH; [|assumption].
    rewrite <- app_assoc. simpl.
    unfold Dict.keys in *. rewrite map_app in *. simpl in *. assumption.
Qed.

(** Storing a dictionary over one with the same distinct keys gives it. *)
Lemma update_same_keys d d' :
  NoDup (Dict.keys d) -> Dict.keys d' = Dict.keys d -> Dict.update d d' = d'.
Proof. intros. now apply (update_over_prefix [] d d'). Qed.

Lemma remove_absent k d : Dict.get k d = None -> Dict.remove k d = d.
Proof.
  induction d as [|[k1 v1] d IH]; simpl; auto.
  destruct (String.eqb k k1); [discriminate|].
  intros Hk. now rewrite IH.
Qed.

Lemma get_remove_other k k' d :
  k <> k' -> Dict.get k (Dict.remove k' d) = Dict.get k d.
Proof.
  intros Hne. induction d as [|[k1 v1] d IH]; simpl; auto.
  destruct (String.eqb k' k1) eqn:E; simpl.
  - apply String.eqb_eq in E. subst k1.
    apply String.eqb_neq in Hne. now rewrite Hne.
  - now rewrite IH.
Qed.

Lemma contains_remove_other k k' d :
  k <> k' -> Dict.contains k (Dict.remove k' d) = Dict.contains k d.
Proof. intros. unfold Dict.contains. now rewrite get_remove_other. Qed.

Lemma contains_in_keys k d :
  Dict.contains k d = true <-> In k (Dict.keys d).
Proof.
  unfold Dict.contains, Dict.keys.
  induction d as [|[k1 v1] d IH]; simpl; [split; [discriminate|tauto]|].
  destruct (String.eqb k k1) eqn:E.
  - apply String.eqb_eq in E. subst. tauto.
  - apply String.eqb_neq in E. rewrite IH. split; [tauto|].
    intros [Heq|Hin]; [congruence|assumption].
Qed.

Lemma in_keys_remove k k' d :
  In k (Dict.keys (Dict.remove k' d)) -> In k (Dict.keys d).
Proof.
  unfold Dict.keys. induction d as [|[k1 v1] d IH]; simpl; auto.
  destruct (String.eqb k' k1); simpl; tauto.
Qed.

Lemma set_nonempty k v d : Dict.set k v d <> [].
Proof.
  destruct d as [|[k1 v1] d]; simpl; [discriminate|].
  destruct (String.eqb k k1); discriminate.
Qed.

Lemma update_nonempty d s : d <> [] -> Dict.update d s <> [].
Proof.
  unfold Dict.update, Dict.iteritems. revert d.
  induction s as [|[k v] s IH]; simpl; intros d Hd; auto.
  apply IH, set_nonempty.
Qed.

Lemma set_absent k v d :
  Dict.get k d = None -> Dict.set k v d = d ++ [(k, v)].
Proof.
  induction d as [|[k1 v1] d IH]; simpl; auto.
  destruct (String.eqb k k1); [discriminate|].
  intros Hk. now rewrite IH.
Qed.

Lemma get_app_notin k pre d :
  ~ In k (Dict.keys pre) -> Dict.get k (pre ++ d) = Dict.get k d.
Proof.
  unfold Dict.keys.
  induction pre as [|[k1 v1] pre IH]; simpl; intros Hk; auto.
  destruct (String.eqb k k1) eqn:E.
  - apply String.eqb_eq in E. subst. tauto.
  - apply IH. tauto.
Qed.

Lemma remove_app_notin k pre d :
  ~ In k (Dict.keys pre) ->
  Dict.remove k (pre ++ d) = pre ++ Dict.remove k d.
Proof.
  unfold Dict.keys.
  induction pre as [|[k1 v1] pre IH]; simpl; intros Hk; auto.
  destruct (String.eqb k k1) eqn:E.
  - apply String.eqb_eq in E. subst. tauto.
  - now rewrite IH by tauto.
Qed.

Lemma NoDup_keys_remove k d :
  NoDup (Dict.keys d) -> NoDup (Dict.keys (Dict.remove k d)).
Proof.
  induction d as [|[k1 v1] d IH]; simpl; intros Hnd; auto.
  unfold Dict.keys in *. simpl in Hnd. inversion Hnd as [|? ? Hnotin Hnd'].
  subst. destruct (String.eqb k k1); [assumption|].
  simpl. constructor; [|now apply IH].
  intros Hin. apply Hnotin. eapply in_keys_remove. exact Hin.
Qed.

Lemma keys_app d d' : Dict.keys (d ++ d') = Dict.keys d ++ Dict.keys d'.
Proof. unfold Dict.keys. apply map_app. Qed.

Lemma contains_update_new k d s :
  In k (Dict.keys s) -> Dict.contains k (Dict.update d s) = true.
Proof.
  unfold Dict.update, Dict.iteritems, Dict.keys. revert d.
  induction s as [|[k1 v1] s IH]; simpl; intros d Hin; [destruct Hin|].
  destruct (string_dec k1 k) as [->|Hne].
  - apply (contains_update k (Dict.set k v1 d) s).
    unfold Dict.contains. now rewrite get_set_same.
  - apply IH. destruct Hin; [contradiction|assumption].
Qed.

End DictFacts.

(** ** The filter chain *)

Section ChainFacts.

Context {H : Host}.

Lemma push_nil (c : CollectorObj) : push [] c = c.
Proof.
  destruct c as [[d s a] doc els fs].
  unfold push, set_revit_object, narrowed. simpl. now rewrite app_nil_r.
Qed.

Lemma push_push (o1 o2 : list NarrowOp) (c : CollectorObj) :
  push o2 (push o1 c) = push (o1 ++ o2) c.
Proof.
  unfold push, set_revit_object, narrowed. simpl. now rewrite app_assoc.
Qed.

Lemma call_collector_spec method args (c : CollectorObj) :
  _Filter.call_collector method args c =
  match method_op method args with
  | Some op => (Ok tt, push [op] c)
  | None => (Raise (TypeError method), c)
  end.
Proof.
  unfold _Filter.call_collector, fec_call.
  destruct (method_op method args); reflexivity.
Qed.

(** One filter either records its operations on the host collector and
    returns, or raises and leaves the Collector as it was; which of the two,
    and which operations, depends on the Collector's document only. *)
Lemma apply_filter_spec filter_name filter_value (c : CollectorObj) :
  _Filter.apply_filter filter_name filter_value c =
  match narrowing (_collector_doc c) filter_name filter_value with
  | inl e => (inl e, c)
  | inr ops => (Ok tt, push ops c)
  end.
Proof.
  unfold narrowing, _Filter.apply_filter, bind, lift, gets, raise, ret,
    Dict.getitem, Dict.contains.
  destruct (Dict.get filter_name _Filter.MAP) as [m|] eqn:Em;
    [|reflexivity].
  unfold Raise, Ok. cbn [negb].
  destruct filter_value as [| [|] | | | | | | | | | | |];
    repeat match goal with
      | |- context [if ?b then _ else _] => destruct b
      end;
    cbn [Dict.get _Filter.MAP String.eqb Ascii.eqb Bool.eqb];
    rewrite ?call_collector_spec; cbn [_collector_doc blank];
    repeat match goal with
      | |- context [method_op ?a ?b] => destruct (method_op a b)
      | |- context [_FamilyInstanceFilter ?a ?b] =>
          destruct (_FamilyInstanceFilter a b)
      | |- context [_ElementLevelFilter ?a ?b] =>
          destruct (_ElementLevelFilter a b)
      end;
    rewrite ?call_collector_spec;
    repeat match goal with
      | |- context [method_op ?a ?b] => destruct (method_op a b)
      end;
    cbn; rewrite ?push_nil; reflexivity.
Qed.

Lemma chain_loop_spec (l : dict) :
  forall (n : nat) (c : CollectorObj), List.length l <= n ->
  let r := _Filter.chain_loop (_Filter.chain_rec n) l l c in
  match chain_ops (_collector_doc c) l with
  | inr ops => r = (Ok tt, push ops c)
  | inl e => fst r = inl e /\ _filters (snd r) = _filters c
             /\ elements (snd r) = elements c
  end.
Proof.
  induction l as [|[k v] l IH]; intros n c Hn r.
  - subst r. simpl. unfold ret. now rewrite push_nil.
  - simpl in Hn. destruct n as [|m]; [lia|].
    assert (Hm : List.length l <= m) by lia.
    assert (HSm : List.length l <= S m) by lia.
    assert (Hr : r = _Filter.chain_loop (_Filter.chain_rec (S m))
                                        ((k, v) :: l) ((k, v) :: l) c)
      by reflexivity.
    clearbody r.
    cbn [_Filter.chain_loop chain_ops] in *. unfold bind at 1 in Hr.
    rewrite apply_filter_spec in Hr. unfold Ok in *.
    destruct (narrowing (_collector_doc c) k v) as [e|here]; cbn [res_bind].
    + subst r. auto.
    + unfold bind, lift, Dict.pop in Hr. cbn [Dict.get Dict.remove] in Hr.
      rewrite String.eqb_refl in Hr. unfold Ok in Hr. cbn [snd] in Hr.
      pose proof (IH m (push here c) Hm) as Hdeep.
      pose proof (fun c' => IH (S m) c' HSm) as Hafter.
      cbn zeta in Hdeep, Hafter.
      change (_Filter.chain_rec (S m) l)
        with (_Filter.chain_loop (_Filter.chain_rec m) l l) in Hr.
      change (_collector_doc (push here c)) with (_collector_doc c) in Hdeep.
      destruct (chain_ops (_collector_doc c) l) as [e|deeper] eqn:Eops;
        cbn [res_bind].
      * destruct (_Filter.chain_loop (_Filter.chain_rec m) l l (push here c))
          as [[e'|[]] c'].
        -- simpl in Hdeep. destruct Hdeep as (Hd & Hf & He).
           injection Hd as ->. subst r. simpl. auto.
        -- simpl in Hdeep. destruct Hdeep as (Hd & _). discriminate.
      * rewrite Hdeep in Hr.
        specialize (Hafter (push deeper (push here c))).
        change (_collector_doc (push deeper (push here c)))
          with (_collector_doc c) in Hafter.
        rewrite Eops in Hafter. rewrite Hafter in Hr. subst r.
        now rewrite !push_push, app_assoc.
Qed.

(** The chain of [filters] applies exactly [chain_ops]: it returns with
    those operations recorded, or raises their exception and leaves the
    stored filters and the cached elements alone. *)
Lemma chain_spec (filters : dict) (c : CollectorObj) :
  match chain_ops (_collector_doc c) filters with
  | inr ops => _Filter._chain filters c = (Ok tt, push ops c)
  | inl e => fst (_Filter._chain filters c) = inl e
             /\ _filters (snd (_Filter._chain filters c)) = _filters c
             /\ elements (snd (_Filter._chain filters c)) = elements c
  end.
Proof.
  unfold _Filter._chain.
  change (_Filter.chain_rec (S (List.length filters)) filters)
    with (_Filter.chain_loop (_Filter.chain_rec (List.length filters))
                             filters filters).
  apply (chain_loop_spec filters (List.length filters) c). lia.
Qed.

(** More depth than the number of filters changes nothing. *)
Lemma chain_rec_enough (filters : dict) (n : nat) (c : CollectorObj) :
  List.length filters < n ->
  fst (_Filter.chain_rec n filters c) = fst (_Filter._chain filters c).
Proof.
  intros Hn. destruct n as [|m]; [lia|].
  change (_Filter.chain_rec (S m) filters)
    with (_Filter.chain_loop (_Filter.chain_rec m) filters filters).
  pose proof (chain_loop_spec filters m c ltac:(lia)) as H1.
  pose proof (chain_spec filters c) as H2. cbn zeta in H1.
  destruct (chain_ops (_collector_doc c) filters).
  - destruct H1 as (-> & _). destruct H2 as (-> & _). reflexivity.
  - now rewrite H1, H2.
Qed.

End ChainFacts.

(** ** ParameterFilter *)

Section ParameterFilterFacts.

Context {H : Host}.

Lemma check_conditions_rejects (ks : list string) (k : string) :
  In k ks -> Dict.contains k ParameterFilter.RULES = false ->
  exists k', In k' ks
             /\ Dict.contains k' ParameterFilter.RULES = false
             /\ ParameterFilter.check_conditions ks
                = Raise (RPW_Exception "Rule not valid: {}" [VStr k']).
Proof.
  induction ks as [|k0 ks IH]; intros Hin Hk; [destruct Hin|].
  cbn [ParameterFilter.check_conditions].
  destruct (Dict.contains k0 ParameterFilter.RULES) eqn:E0; cbn [negb].
  - destruct Hin as [->|Hin]; [congruence|].
    destruct (IH Hin Hk) as (k' & Hin' & Hk' & Hrej).
    exists k'. simpl. auto.
  - exists k0. simpl. auto.
Qed.

Lemma check_conditions_accepts (ks : list string) :
  (forall k, In k ks -> Dict.contains k ParameterFilter.RULES = true) ->
  ParameterFilter.check_conditions ks = Ok tt.
Proof.
  induction ks as [|k0 ks IH]; intros Hall; [reflexivity|].
  cbn [ParameterFilter.check_conditions].
  rewrite (Hall k0) by (simpl; auto). cbn [negb].
  apply IH. intros k Hk. apply Hall. simpl. auto.
Qed.

(** C1, on the code: whenever one of the option names [case_sensitive],
    [precision] or [reverse] is among the keyword arguments of
    [ParameterFilter], whatever the conditions next to it, the constructor
    raises [RPW_Exception] "Rule not valid" for a key that is not a rule
    name: no filter is built and no [reverse] flag is carried. *)
Theorem C1_option_keys_are_rejected (parameter_id : Value)
        (conditions : dict) (k : string) :
  In k option_keys -> In k (Dict.keys conditions) ->
  exists k', In k' (Dict.keys conditions)
             /\ Dict.contains k' ParameterFilter.RULES = false
             /\ ParameterFilter.__init__ parameter_id conditions
                = Raise (RPW_Exception "Rule not valid: {}" [VStr k']).
Proof.
  intros Hopt Hin.
  assert (Hk : Dict.contains k ParameterFilter.RULES = false).
  { simpl in Hopt.
    destruct Hopt as [<-|[<-|[<-|[]]]]; reflexivity. }
  destruct (check_conditions_rejects _ _ Hin Hk) as (k' & Hin' & Hk' & Hrej).
  exists k'. repeat split; auto.
  unfold ParameterFilter.__init__. now rewrite Hrej.
Qed.

(** C6: for every comparison name and every value, the [not_] form is bound
    to the same factory method as the plain form; when the plain form builds
    the one-rule filter [r], the [not_] form builds the one-rule filter
    [FilterInverseRule r], whose predicate is the negation of the plain
    form's predicate on every element; and when the host rejects the plain
    form, it rejects the [not_] form with the same exception. *)
Theorem C6_not_prefix_inverts (parameter_id : Value) (name : string)
        (value : Value) :
  In name comparisons ->
  Dict.get ("not_" ++ name)%string ParameterFilter.RULES
  = Dict.get name ParameterFilter.RULES
  /\ match ParameterFilter.__init__ parameter_id [(name, value)] with
     | inr p =>
         exists factory args,
           p = VParameterFilter [Rule factory parameter_id args] false
           /\ Dict.get name ParameterFilter.RULES = Some factory
           /\ ParameterFilter.__init__ parameter_id
                                       [(("not_" ++ name)%string, value)]
              = Ok (VParameterFilter
                      [FilterInverseRule (Rule factory parameter_id args)]
                      false)
           /\ forall e : Elem,
               ParameterFilter.predicate
                 (VParameterFilter
                    [FilterInverseRule (Rule factory parameter_id args)]
                    false) e
               = option_map negb (ParameterFilter.predicate p e)
     | inl err =>
         ParameterFilter.__init__ parameter_id [(("not_" ++ name)%string, value)]
         = Raise err
     end.
Proof.
  intros Hin. simpl in Hin.
  assert (Hpred : forall factory args (e : Elem),
             ParameterFilter.predicate
               (VParameterFilter
                  [FilterInverseRule (Rule factory parameter_id args)]
                  false) e
             = option_map negb
                 (ParameterFilter.predicate
                    (VParameterFilter [Rule factory parameter_id args] false)
                    e)).
  { intros. cbn. now rewrite !andb_true_r. }
  repeat (destruct Hin as [<-|Hin]); try destruct Hin;
    (split; [reflexivity|]);
    unfold ParameterFilter.__init__, ParameterFilter.build_rules,
      ParameterFilter.build_rule, ParameterFilter.call_factory;
    cbn [String.append Dict.keys Dict.iteritems map fst
         ParameterFilter.check_conditions];
    destruct value; cbn;
    match goal with
    | |- context [factory_accepts ?f ?p ?a] =>
        destruct (factory_accepts f p a); cbn
    end;
    try reflexivity;
    (do 2 eexists; repeat split; try reflexivity; intros; apply Hpred).
Qed.

End ParameterFilterFacts.

(** The option-key rejection of C1 on a concrete call, in both iteration
    orders of the keyword dictionary. *)
Lemma C1_witness :
  In "reverse" option_keys
  /\ In "reverse" (Dict.keys [("equals", VInt 2); ("reverse", VBool true)])
  /\ ParameterFilter.__init__ (H := Demo.host) (VElementId 7)
       [("equals", VInt 2); ("reverse", VBool true)]
     = Raise (RPW_Exception "Rule not valid: {}" [VStr "reverse"])
  /\ ParameterFilter.__init__ (H := Demo.host) (VElementId 7)
       [("reverse", VBool true); ("equals", VInt 2)]
     = Raise (RPW_Exception "Rule not valid: {}" [VStr "reverse"])
  /\ exists k', In k' (Dict.keys [("equals", VInt 2); ("reverse", VBool true)])
                /\ Dict.contains k' ParameterFilter.RULES = false
                /\ ParameterFilter.__init__ (H := Demo.host) (VElementId 7)
                     [("equals", VInt 2); ("reverse", VBool true)]
                   = Raise (RPW_Exception "Rule not valid: {}" [VStr k']).
Proof.
  split; [simpl; tauto|]. split; [simpl; tauto|].
  split; [reflexivity|]. split; [reflexivity|].
  apply (@C1_option_keys_are_rejected Demo.host (VElementId 7)
           [("equals", VInt 2); ("reverse", VBool true)] "reverse");
    simpl; tauto.
Defined.

Lemma C6_witness :
  In "equals" comparisons
  /\ ParameterFilter.__init__ (H := Demo.host) (VElementId 7)
       [("not_equals", VInt 2)]
     = Ok (VParameterFilter
             [FilterInverseRule
                (Rule "CreateEqualsRule" (VElementId 7) [VInt 2])] false)
  /\ forall e : Z,
      ParameterFilter.predicate (H := Demo.host)
        (VParameterFilter
           [FilterInverseRule
              (Rule "CreateEqualsRule" (VElementId 7) [VInt 2])] false) e
      = option_map negb
          (ParameterFilter.predicate (H := Demo.host)
             (VParameterFilter
                [Rule "CreateEqualsRule" (VElementId 7) [VInt 2]] false) e).
Proof.
  split; [simpl; tauto|].
  destruct (@C6_not_prefix_inverts Demo.host (VElementId 7) "equals"
              (VInt 2) ltac:(simpl; tauto)) as [_ Hneg].
  cbn in Hneg. destruct Hneg as (factory & args & Hp & _ & Hq & Hinv).
  injection Hp as <- <-. split; [exact Hq|exact Hinv].
Defined.

(** ** Enumeration *)

Section EnumerateFacts.

Context {H : Host}.

(** The enumeration depends on which operations were recorded, not on how
    often or in which order. *)
Lemma enumerate_same_members (d : Z) (s : Scope) (o1 o2 : list NarrowOp) :
  (forall op, In op o1 <-> In op o2) ->
  enumerate (mkFEC d s o1) = enumerate (mkFEC d s o2).
Proof.
  intros Hmem. unfold enumerate. cbn [fec_applied fec_doc fec_scope].
  apply filter_ext. intros e.
  destruct (forallb (fun op => op_passes op e) o2) eqn:E2.
  - rewrite forallb_forall in *. intros op Hop. apply E2, Hmem, Hop.
  - destruct (forallb (fun op => op_passes op e) o1) eqn:E1; [|reflexivity].
    rewrite <- E2. symmetry. rewrite forallb_forall in *.
    intros op Hop. apply E1, Hmem, Hop.
Qed.

Lemma enumerate_narrowed_twice (ops : list NarrowOp)
      (fec : FilteredElementCollector) :
  enumerate (narrowed ops (narrowed ops fec)) = enumerate (narrowed ops fec).
Proof.
  destruct fec as [d s a]. unfold narrowed. cbn [fec_doc fec_scope fec_applied].
  apply enumerate_same_members. intros op. rewrite !in_app_iff. tauto.
Qed.

Lemma enumerate_narrowed_same (o1 o2 : list NarrowOp)
      (fec : FilteredElementCollector) :
  (forall op, In op o1 <-> In op o2) ->
  enumerate (narrowed o1 fec) = enumerate (narrowed o2 fec).
Proof.
  intros Hmem. destruct fec as [d s a]. unfold narrowed.
  cbn [fec_doc fec_scope fec_applied].
  apply enumerate_same_members. intros op. rewrite !in_app_iff.
  specialize (Hmem op). tauto.
Qed.

End EnumerateFacts.

(** ** Calls of [filter] and of the constructor *)

Section CallFacts.

Context {H : Host}.

Lemma call_coerce_fails (kw : dict) (c : CollectorObj) (e : exn) :
  _Filter._coerce_filter_values kw = inl e ->
  _Filter.__call__ kw c = (inl e, c).
Proof.
  intros Hco. unfold _Filter.__call__, bind, lift. now rewrite Hco.
Qed.

(** A call whose chain returns: the new pairs are stored, the operations are
    recorded on the host collector, and its enumeration is cached. *)
Lemma call_ok (kw co : dict) (c : CollectorObj) (ops : list NarrowOp) :
  _Filter._coerce_filter_values kw = inr co ->
  chain_ops (_collector_doc c) (Dict.update (_filters c) co) = inr ops ->
  _Filter.__call__ kw c
  = (Ok tt,
     mkCollector (narrowed ops (_revit_object c)) (_collector_doc c)
                 (enumerate (narrowed ops (_revit_object c)))
                 (Dict.update (_filters c) co)).
Proof.
  intros Hco Hops. unfold _Filter.__call__, bind, lift, modify, gets.
  rewrite Hco. cbn [_filters set_filters].
  pose proof (chain_spec (Dict.update (_filters c) co)
                (set_filters (Dict.update (_filters c) co) c)) as Hchain.
  cbn [_collector_doc set_filters] in Hchain. rewrite Hops in Hchain.
  unfold Ok in *. rewrite Hchain. reflexivity.
Qed.

(** A call whose chain raises: the new pairs are stored all the same, and
    the cached elements stay. *)
Lemma call_chain_fails (kw co : dict) (c : CollectorObj) (e : exn) :
  _Filter._coerce_filter_values kw = inr co ->
  chain_ops (_collector_doc c) (Dict.update (_filters c) co) = inl e ->
  fst (_Filter.__call__ kw c) = inl e
  /\ _filters (snd (_Filter.__call__ kw c)) = Dict.update (_filters c) co
  /\ elements (snd (_Filter.__call__ kw c)) = elements c.
Proof.
  intros Hco Hops. unfold _Filter.__call__, bind, lift, modify, gets.
  rewrite Hco. cbn [_filters set_filters].
  pose proof (chain_spec (Dict.update (_filters c) co)
                (set_filters (Dict.update (_filters c) co) c)) as Hchain.
  cbn [_collector_doc set_filters] in Hchain. rewrite Hops in Hchain.
  unfold Ok in *.
  destruct (_Filter._chain (Dict.update (_filters c) co)
              (set_filters (Dict.update (_filters c) co) c)) as [[e'|[]] c'].
  - cbn in *. destruct Hchain as (Hd & Hf & He). auto.
  - cbn in Hchain. destruct Hchain as (Hd & _). discriminate.
Qed.

(** The constructor, with the chain replaced by what it applies. *)
Lemma init_spec (kw : dict) :
  Collector.__init__ kw
  = (try (collector_doc, collector, filters) <- Collector.pick_scope kw;
     try _ <- Collector.check_filters (Dict.keys filters);
     if Dict.nonempty filters then
       try co <- _Filter._coerce_filter_values filters;
       try ops <- chain_ops collector_doc (Dict.update filters co);
       Ok (mkCollector (narrowed ops collector) collector_doc
                       (enumerate (narrowed ops collector))
                       (Dict.update filters co))
     else Ok (mkCollector collector collector_doc [] filters))%res.
Proof.
  unfold Collector.__init__.
  destruct (Collector.pick_scope kw) as [e|[[doc fec] filters]];
    [reflexivity|]. cbn [res_bind].
  destruct (Collector.check_filters (Dict.keys filters)) as [e|[]];
    [reflexivity|]. cbn [res_bind].
  destruct (Dict.nonempty filters); [|reflexivity].
  set (self := mkCollector fec doc [] filters).
  destruct (_Filter._coerce_filter_values filters) as [e|co] eqn:Hco.
  - rewrite (call_coerce_fails _ self _ Hco). reflexivity.
  - cbn [res_bind].
    destruct (chain_ops doc (Dict.update filters co)) as [e|ops] eqn:Hops.
    + destruct (call_chain_fails filters co self e Hco Hops) as (Hd & _).
      destruct (_Filter.__call__ filters self) as [[e'|[]] c'];
        cbn in Hd; [|discriminate].
      injection Hd as ->. reflexivity.
    + rewrite (call_ok filters co self ops Hco Hops). reflexivity.
Qed.

End CallFacts.

(** ** Scope selection *)

Section ScopeFacts.

Context {H : Host}.

Lemma pop_some (V : Type) (k : string) (d : Dict.t V) :
  Dict.contains k d = true ->
  exists v, Dict.get k d = Some v /\ Dict.pop k d = Ok (v, Dict.remove k d).
Proof.
  unfold Dict.contains, Dict.pop.
  destruct (Dict.get k d) as [v|]; [|discriminate]. eauto.
Qed.

(** Whatever scope is picked, the keys that were not popped stay. *)
Lemma pick_scope_rest (kw : dict) (doc : Value)
      (fec : FilteredElementCollector) (rest : dict) :
  Collector.pick_scope kw = Ok (doc, fec, rest) -> rest = after_scope kw.
Proof.
  unfold Collector.pick_scope, after_scope.
  assert (Hdoc : exists d,
             (if Dict.contains "doc" kw then Dict.pop "doc" kw
              else Ok (VDocument revit_doc, kw))
             = Ok (d, Dict.remove "doc" kw)).
  { destruct (Dict.contains "doc" kw) eqn:Edoc.
    - destruct (pop_some _ _ _ Edoc) as (v & _ & ->). eauto.
    - rewrite remove_absent; [eauto|].
      unfold Dict.contains in Edoc.
      destruct (Dict.get "doc" kw); [discriminate|reflexivity]. }
  destruct Hdoc as (d & ->). generalize (Dict.remove "doc" kw). intros kw0.
  unfold Ok, Raise. cbn [res_bind].
  repeat match goal with
    | |- context [if Dict.contains ?k kw0 then _ else _] =>
        let E := fresh "E" in
        destruct (Dict.contains k kw0) eqn:E;
        [destruct (pop_some _ _ _ E) as (? & _ & ->);
         unfold Ok; cbn [res_bind]|]
    end;
    repeat match goal with
      | |- context [res_bind ?r _] => destruct r; cbn [res_bind]
      end;
    first [discriminate | intros [= <- <- <-]; reflexivity].
Qed.

(** The scope is bound from the four scope arguments alone. *)
Lemma pick_scope_spec (kw : dict) :
  Collector.pick_scope kw
  = (try p <- bind_scope (Dict.get "doc" kw) (Dict.get "view" kw)
                         (Dict.get "elements" kw)
                         (Dict.get "element_ids" kw);
     Ok (fst p, snd p, after_scope kw))%res.
Proof.
  unfold Collector.pick_scope, after_scope, bind_scope.
  rewrite <- (get_remove_other _ "view" "doc" kw) by discriminate.
  rewrite <- (get_remove_other _ "elements" "doc" kw) by discriminate.
  rewrite <- (get_remove_other _ "element_ids" "doc" kw) by discriminate.
  assert (Hdoc : (if Dict.contains "doc" kw then Dict.pop "doc" kw
                  else Ok (VDocument revit_doc, kw))
                 = Ok (match Dict.get "doc" kw with
                       | Some d => d
                       | None => VDocument revit_doc
                       end, Dict.remove "doc" kw)).
  { unfold Dict.contains, Dict.pop.
    destruct (Dict.get "doc" kw) eqn:Edoc; [reflexivity|].
    now rewrite remove_absent. }
  rewrite Hdoc. generalize (Dict.remove "doc" kw). intros kw0.
  generalize (match Dict.get "doc" kw with
              | Some d => d
              | None => VDocument revit_doc
              end). intros collector_doc.
  unfold Dict.contains, Dict.pop. unfold Ok, Raise. cbn [res_bind].
  destruct (Dict.get "view" kw0) as [view|]; cbn [res_bind].
  - destruct (isinstance view "ElementId"); [|destruct (get_Id view)];
      cbn [res_bind]; try reflexivity;
      match goal with
      | |- context [Collector.new_collector_in_view ?d ?v] =>
          now destruct (Collector.new_collector_in_view d v)
      end.
  - destruct (Dict.get "elements" kw0) as [els|]; cbn [res_bind].
    + destruct (to_element_ids els) as [e|ids]; cbn [res_bind];
        [reflexivity|].
      now destruct (Collector.new_collector_among collector_doc ids).
    + destruct (Dict.get "element_ids" kw0) as [ids|]; cbn [res_bind].
      * now destruct (Collector.new_collector_among collector_doc ids).
      * now destruct (new_FilteredElementCollector collector_doc
                                                   WholeDocument).
Qed.

Lemma check_filters_rejects (ks : list string) (k : string) :
  In k ks -> Dict.contains k _Filter.MAP = false ->
  exists k', In k' ks
             /\ Dict.contains k' _Filter.MAP = false
             /\ Collector.check_filters ks
                = Raise (RPW_Exception "Collector Filter not valid: {}"
                                       [VStr k']).
Proof.
  induction ks as [|k0 ks IH]; intros Hin Hk; [destruct Hin|].
  cbn [Collector.check_filters].
  destruct (Dict.contains k0 _Filter.MAP) eqn:E0; cbn [negb].
  - destruct Hin as [->|Hin]; [congruence|].
    destruct (IH Hin Hk) as (k' & Hin' & Hk' & Hrej).
    exists k'. simpl. auto.
  - exists k0. simpl. auto.
Qed.

(** C5, on the code: when a view is supplied together with an explicit
    element list or id list, the constructor never returns a Collector.
    The view is picked first, but only the picked key is popped: unless
    binding the scope itself fails, the other scope key is still among the
    keyword arguments when they are checked against [_Filter.MAP], and the
    constructor raises [RPW_Exception] "Collector Filter not valid". *)
Theorem C5_view_with_elements_raises (kw : dict) :
  Dict.contains "view" kw = true ->
  Dict.contains "elements" kw = true
  \/ Dict.contains "element_ids" kw = true ->
  exists e, Collector.__init__ kw = Raise e
            /\ (Collector.pick_scope kw = Raise e
                \/ exists k, In k (Dict.keys kw)
                             /\ Dict.contains k _Filter.MAP = false
                             /\ e = RPW_Exception
                                      "Collector Filter not valid: {}"
                                      [VStr k]).
Proof.
  intros Hview Hother. unfold Collector.__init__.
  destruct (Collector.pick_scope kw) as [e|[[doc fec] rest]] eqn:Hpick.
  - exists e. auto.
  - cbn [res_bind]. apply pick_scope_rest in Hpick.
    assert (Hv : Dict.contains "view" (Dict.remove "doc" kw) = true)
      by (rewrite contains_remove_other; [assumption|discriminate]).
    unfold after_scope in Hpick. rewrite Hv in Hpick.
    assert (Hleft : exists k, In k (Dict.keys rest)
                              /\ Dict.contains k _Filter.MAP = false).
    { destruct Hother as [Hk|Hk]; [exists "elements"|exists "element_ids"];
        (split; [|reflexivity]); apply contains_in_keys; subst rest;
        rewrite !contains_remove_other by discriminate; assumption. }
    destruct Hleft as (k & Hin & Hk).
    destruct (check_filters_rejects _ _ Hin Hk) as (k' & Hin' & Hk' & Hrej).
    rewrite Hrej. exists (RPW_Exception "Collector Filter not valid: {}"
                                        [VStr k']).
    split; [reflexivity|]. right. exists k'. repeat split; auto.
    subst rest. now apply in_keys_remove, in_keys_remove in Hin'.
Qed.

End ScopeFacts.

(** [Collector(view=..., elements=[...])] on the demo host, in both
    iteration orders of the keyword dictionary. *)
Lemma C5_witness :
  Dict.contains "view" [("view", VElementId 5);
                        ("elements", VList [VElementId 1])] = true
  /\ Collector.__init__ (H := Demo.host)
       [("view", VElementId 5); ("elements", VList [VElementId 1])]
     = Raise (RPW_Exception "Collector Filter not valid: {}"
                            [VStr "elements"])
  /\ Collector.__init__ (H := Demo.host)
       [("elements", VList [VElementId 1]); ("view", VElementId 5)]
     = Raise (RPW_Exception "Collector Filter not valid: {}"
                            [VStr "elements"])
  /\ exists e, Collector.__init__ (H := Demo.host)
                 [("view", VElementId 5); ("elements", VList [VElementId 1])]
               = Raise e.
Proof.
  split; [reflexivity|]. split; [reflexivity|]. split; [reflexivity|].
  destruct (@C5_view_with_elements_raises Demo.host
              [("view", VElementId 5); ("elements", VList [VElementId 1])]
              eq_refl (or_introl eq_refl)) as (e & He & _).
  exists e. exact He.
Defined.

(** ** Filter calls *)

Section FilterFacts.

Context {H : Host}.

Lemma narrowing_unknown (doc : Value) (name : string) (value : Value) :
  Dict.contains name _Filter.MAP = false ->
  narrowing doc name value = Raise (KeyError name).
Proof.
  intros Hk. unfold narrowing, _Filter.apply_filter, bind, lift, Dict.getitem.
  unfold Dict.contains in Hk.
  destruct (Dict.get name _Filter.MAP); [discriminate|reflexivity].
Qed.

Lemma narrowing_known (doc : Value) (name : string) (value : Value)
      (ops : list NarrowOp) :
  narrowing doc name value = inr ops ->
  Dict.contains name _Filter.MAP = true.
Proof.
  unfold narrowing, _Filter.apply_filter, bind, lift, Dict.getitem,
    Dict.contains.
  destruct (Dict.get name _Filter.MAP); [reflexivity|discriminate].
Qed.

Lemma chain_ops_keys (doc : Value) (filters : dict) (ops : list NarrowOp) :
  chain_ops doc filters = inr ops ->
  forall k, In k (Dict.keys filters) -> Dict.contains k _Filter.MAP = true.
Proof.
  revert ops. induction filters as [|[k1 v1] filters IH]; intros ops Hops k;
    [intros []|].
  cbn [chain_ops] in Hops.
  destruct (narrowing doc k1 v1) as [e|here] eqn:Hhere; [discriminate|].
  cbn [res_bind] in Hops.
  destruct (chain_ops doc filters) as [e|deeper]; [discriminate|].
  intros [<-|Hin].
  - eapply narrowing_known, Hhere.
  - eapply IH; eauto.
Qed.

(** No filter raises on its own what running out of depth raises. *)
Lemma narrowing_not_RuntimeError (doc : Value) (name : string)
      (value : Value) (msg : string) :
  narrowing doc name value <> Raise (RuntimeError msg).
Proof.
  unfold narrowing, _Filter.apply_filter, bind, lift, gets, raise, ret,
    Dict.getitem, Dict.contains, _FamilyInstanceFilter, _ElementLevelFilter,
    new_FamilyInstanceFilter, new_ElementLevelFilter, get_Id, Raise, Ok.
  destruct (Dict.get name _Filter.MAP) as [m|]; [|discriminate].
  cbn [negb res_bind].
  destruct value as [| [|] | | | | | | | | | | |];
    repeat match goal with
      | |- context [if ?b then _ else _] => destruct b
      end;
    cbn [Dict.get _Filter.MAP String.eqb Ascii.eqb Bool.eqb res_bind
         _collector_doc blank];
    rewrite ?call_collector_spec;
    repeat match goal with
      | |- context [method_op ?a ?b] => destruct (method_op a b)
      | |- context [match ?d with VDocument _ => _ | _ => _ end] =>
          destruct d
      end;
    cbn [res_bind]; rewrite ?call_collector_spec;
    repeat match goal with
      | |- context [method_op ?a ?b] => destruct (method_op a b)
      end;
    discriminate.
Qed.

Lemma chain_ops_not_RuntimeError (doc : Value) (filters : dict)
      (msg : string) :
  chain_ops doc filters <> Raise (RuntimeError msg).
Proof.
  induction filters as [|[k v] filters IH]; [discriminate|].
  cbn [chain_ops].
  pose proof (narrowing_not_RuntimeError doc k v msg) as Hhere.
  destruct (narrowing doc k v) as [e|here]; [exact Hhere|].
  cbn [res_bind].
  destruct (chain_ops doc filters) as [e|deeper]; [exact IH|discriminate].
Qed.

(** The depth that [_chain] allows itself is never used up. *)
Lemma chain_depth_suffices (filters : dict) (c : CollectorObj)
      (msg : string) :
  fst (_Filter._chain filters c) <> Raise (RuntimeError msg).
Proof.
  pose proof (chain_spec filters c) as Hspec.
  pose proof (chain_ops_not_RuntimeError (_collector_doc c) filters msg)
    as Hops.
  destruct (chain_ops (_collector_doc c) filters) as [e|ops].
  - destruct Hspec as (-> & _). intros [= ->]. now apply Hops.
  - rewrite Hspec. discriminate.
Qed.

(** A failing filter behind filters that apply: its exception comes out. *)
Lemma chain_ops_last_fails (doc : Value) (filters : dict)
      (ops : list NarrowOp) (name : string) (value : Value) (e : exn) :
  chain_ops doc filters = inr ops ->
  narrowing doc name value = inl e ->
  chain_ops doc (filters ++ [(name, value)]) = inl e.
Proof.
  revert ops. induction filters as [|[k1 v1] filters IH]; intros ops Hops He.
  - cbn. now rewrite He.
  - cbn [chain_ops app] in *.
    destruct (narrowing doc k1 v1) as [e1|here]; [discriminate|].
    cbn [res_bind] in *.
    destruct (chain_ops doc filters) as [e1|deeper]; [discriminate|].
    now rewrite (IH deeper eq_refl He).
Qed.

Lemma coerce_single_other (name : string) (value : Value) :
  name <> "of_category" -> name <> "of_class" ->
  _Filter._coerce_filter_values [(name, value)] = Ok [(name, value)].
Proof.
  intros Hcat Hcls. unfold _Filter._coerce_filter_values. cbn [Dict.get].
  assert (E1 : String.eqb "of_category" name = false)
    by (apply String.eqb_neq; congruence).
  assert (E2 : String.eqb "of_class" name = false)
    by (apply String.eqb_neq; congruence).
  rewrite E1. cbn [res_bind]. unfold Ok. cbn [res_bind Dict.get].
  now rewrite E2.
Qed.

(** Coercion replaces values in place: the keys stay. *)
Lemma coerce_keys (d co : dict) :
  _Filter._coerce_filter_values d = inr co -> Dict.keys co = Dict.keys d.
Proof.
  unfold _Filter._coerce_filter_values.
  assert (Hset : forall k v (f : dict) w,
             Dict.get k f = Some w -> Dict.keys (Dict.set k v f) = Dict.keys f).
  { intros k v f w Hw. apply keys_set_present. unfold Dict.contains.
    now rewrite Hw. }
  destruct (Dict.get "of_category" d)
    as [[| | | | [|a s] | | | | | | | |]|] eqn:Ecat; cbn [res_bind];
    try (destruct (BicEnum_get (String a s)) as [e|v]; cbn [res_bind];
         [discriminate|]);
    unfold Ok; cbn [res_bind];
    match goal with
    | |- context [Dict.get "of_class" ?f] =>
        destruct (Dict.get "of_class" f)
          as [[| | | | [|a' s'] | | | | | | | |]|] eqn:Ecls
    end;
    try (destruct (DB_getattr (String a' s')) as [e'|v']; cbn [res_bind];
         [discriminate|]);
    intros [= <-];
    repeat (erewrite Hset by eassumption); reflexivity.
Qed.

(** C2, on the code: an unsupported name handed to [filter] on a Collector
    whose stored filters apply without error does not raise
    [RPW_Exception]: the chain looks the name up in [_Filter.MAP] before it
    checks it, and the lookup raises [KeyError]. *)
Theorem C2_filter_unknown_name_is_KeyError (c : CollectorObj)
        (name : string) (value : Value) :
  Dict.contains name _Filter.MAP = false ->
  fst (_Filter._chain (_filters c) c) = Ok tt ->
  fst (Collector.filter [(name, value)] c) = Raise (KeyError name).
Proof.
  intros Hname Hstored.
  assert (Hco : _Filter._coerce_filter_values [(name, value)]
                = inr [(name, value)]).
  { apply coerce_single_other; intros ->; discriminate. }
  pose proof (chain_spec (_filters c) c) as Hspec.
  destruct (chain_ops (_collector_doc c) (_filters c)) as [e|ops] eqn:Hops.
  { destruct Hspec as (He & _). rewrite Hstored in He. discriminate. }
  assert (Habsent : Dict.get name (_filters c) = None).
  { destruct (Dict.get name (_filters c)) eqn:Eg; [|reflexivity].
    assert (Hin : Dict.contains name (_filters c) = true)
      by (unfold Dict.contains; now rewrite Eg).
    apply contains_in_keys in Hin.
    rewrite (chain_ops_keys _ _ _ Hops _ Hin) in Hname. discriminate. }
  unfold Collector.filter.
  apply (call_chain_fails [(name, value)] [(name, value)] c (KeyError name)
           Hco).
  unfold Dict.update. cbn [Dict.iteritems fold_left fst snd].
  rewrite set_absent by assumption.
  eapply chain_ops_last_fails; eauto using narrowing_unknown.
Qed.

(** C3, on the code: when the keyword arguments of [filter] hold an
    unrecognized key (and their values were coerced), the call raises, but
    the stored filters have absorbed every new pair all the same, the
    unrecognized one included; only the cached elements are kept. *)
Theorem C3_failed_filter_still_stores (c : CollectorObj) (kw co : dict)
        (k : string) :
  _Filter._coerce_filter_values kw = Ok co ->
  In k (Dict.keys kw) -> Dict.contains k _Filter.MAP = false ->
  exists e, fst (Collector.filter kw c) = Raise e
            /\ _filters (snd (Collector.filter kw c))
               = Dict.update (_filters c) co
            /\ Dict.contains k (_filters (snd (Collector.filter kw c)))
               = true
            /\ elements (snd (Collector.filter kw c)) = elements c.
Proof.
  intros Hco Hin Hk. unfold Collector.filter.
  assert (Hstored : Dict.contains k (Dict.update (_filters c) co) = true).
  { apply contains_update_new. now rewrite (coerce_keys kw co Hco). }
  destruct (chain_ops (_collector_doc c) (Dict.update (_filters c) co))
    as [e|ops] eqn:Hops.
  - destruct (call_chain_fails kw co c e Hco Hops) as (Hd & Hf & He).
    exists e. rewrite Hf. auto.
  - apply contains_in_keys in Hstored.
    rewrite (chain_ops_keys _ _ _ Hops _ Hstored) in Hk. discriminate.
Qed.

(** C7: when [filter] returns on some keyword arguments, calling it again
    on the same arguments returns too, stores nothing new and caches the
    same elements. *)
Theorem C7_filter_twice (c : CollectorObj) (kw : dict) (c1 : CollectorObj) :
  Collector.filter kw c = (Ok tt, c1) ->
  exists c2, Collector.filter kw c1 = (Ok tt, c2)
             /\ elements c2 = elements c1
             /\ _filters c2 = _filters c1.
Proof.
  unfold Collector.filter. intros Hfirst.
  destruct (_Filter._coerce_filter_values kw) as [e|co] eqn:Hco.
  { rewrite (call_coerce_fails kw c e Hco) in Hfirst. discriminate. }
  destruct (chain_ops (_collector_doc c) (Dict.update (_filters c) co))
    as [e|ops] eqn:Hops.
  { destruct (call_chain_fails kw co c e Hco Hops) as (Hd & _).
    rewrite Hfirst in Hd. discriminate. }
  rewrite (call_ok kw co c ops Hco Hops) in Hfirst.
  injection Hfirst as <-.
  eexists. split; [|split].
  - apply (call_ok kw co _ ops Hco).
    cbn [_collector_doc _filters]. now rewrite update_idempotent.
  - cbn [elements _revit_object]. apply enumerate_narrowed_twice.
  - cbn [_filters]. apply update_idempotent.
Qed.

(** Whenever [filter] returns, iterating the Collector yields the cached
    elements. *)
Lemma filter_ok_iter (kw : dict) (c c' : CollectorObj) :
  Collector.filter kw c = (Ok tt, c') ->
  Collector.__iter__ c' = elements c'.
Proof.
  unfold Collector.filter. intros Hcall.
  destruct (_Filter._coerce_filter_values kw) as [e|co] eqn:Hco.
  { rewrite (call_coerce_fails kw c e Hco) in Hcall. discriminate. }
  destruct (chain_ops (_collector_doc c) (Dict.update (_filters c) co))
    as [e|ops] eqn:Hops.
  { destruct (call_chain_fails kw co c e Hco Hops) as (Hd & _).
    rewrite Hcall in Hd. discriminate. }
  rewrite (call_ok kw co c ops Hco Hops) in Hcall.
  injection Hcall as <-. reflexivity.
Qed.

End FilterFacts.

(** [filter(bogus=1)] on the demo Collector of walls: [KeyError], with the
    pair stored. *)
Lemma C2_witness :
  Dict.contains "bogus" _Filter.MAP = false
  /\ fst (_Filter._chain (_filters Demo.walls) Demo.walls) = Ok tt
  /\ fst (Collector.filter [("bogus", VInt 1)] Demo.walls)
     = Raise (KeyError "bogus").
Proof.
  split; [reflexivity|]. split; [reflexivity|].
  apply (@C2_filter_unknown_name_is_KeyError Demo.host Demo.walls
           "bogus" (VInt 1)); reflexivity.
Defined.

(** [filter(is_type=True, bogus=1)] on the demo Collector of walls: the
    call raises, both pairs are stored, the host collector was narrowed
    further, and the cached elements are the old ones. *)
Lemma C3_witness :
  Collector.__init__ (H := Demo.host) [("of_class", VStr "Wall")]
  = Ok Demo.walls
  /\ Collector.filter [("is_type", VBool true); ("bogus", VInt 1)] Demo.walls
     = (Raise (KeyError "bogus"),
        mkCollector (H := Demo.host)
          (mkFEC 0 WholeDocument
                 [OfClass "Wall"; OfClass "Wall"; WhereElementIsElementType])
          (VDocument 0) [Demo.wall_1; Demo.wall_2]
          [("of_class", VType "Wall"); ("is_type", VBool true);
           ("bogus", VInt 1)])
  /\ exists e,
      fst (Collector.filter [("is_type", VBool true); ("bogus", VInt 1)]
                            Demo.walls) = Raise e
      /\ _filters (snd (Collector.filter
                          [("is_type", VBool true); ("bogus", VInt 1)]
                          Demo.walls))
         = Dict.update (_filters Demo.walls)
                       [("is_type", VBool true); ("bogus", VInt 1)]
      /\ Dict.contains "bogus"
           (_filters (snd (Collector.filter
                             [("is_type", VBool true); ("bogus", VInt 1)]
                             Demo.walls))) = true
      /\ elements (snd (Collector.filter
                          [("is_type", VBool true); ("bogus", VInt 1)]
                          Demo.walls))
         = elements Demo.walls.
Proof.
  split; [reflexivity|]. split; [reflexivity|].
  apply (@C3_failed_filter_still_stores Demo.host Demo.walls
           [("is_type", VBool true); ("bogus", VInt 1)]
           [("is_type", VBool true); ("bogus", VInt 1)] "bogus").
  - reflexivity.
  - simpl. tauto.
  - reflexivity.
Defined.

(** [filter(of_class='Wall')] twice on a fresh demo Collector. *)
Lemma C7_witness :
  Collector.filter [("of_class", VStr "Wall")] Demo.fresh
  = (Ok tt, Demo.walls)
  /\ exists c2, Collector.filter [("of_class", VStr "Wall")] Demo.walls
                = (Ok tt, c2)
                /\ elements c2 = elements Demo.walls
                /\ _filters c2 = _filters Demo.walls.
Proof.
  split; [reflexivity|].
  apply (@C7_filter_twice Demo.host Demo.fresh [("of_class", VStr "Wall")]
           Demo.walls).
  reflexivity.
Defined.

(** ** Wrong shapes *)

Section ShapeFacts.

Context {H : Host}.

Lemma init_single_filter (name : string) (value : Value) :
  In name (Dict.keys _Filter.MAP) ->
  name <> "of_category" -> name <> "of_class" ->
  Collector.__init__ [(name, value)]
  = (try ops <- narrowing (VDocument revit_doc) name value;
     Ok (mkCollector (mkFEC revit_doc WholeDocument ops)
                     (VDocument revit_doc)
                     (enumerate (mkFEC revit_doc WholeDocument ops))
                     [(name, value)]))%res.
Proof.
  intros Hin Hcat Hcls. rewrite init_spec.
  assert (Hpick : Collector.pick_scope [(name, value)]
                  = Ok (VDocument revit_doc,
                        mkFEC revit_doc WholeDocument [], [(name, value)])).
  { cbn in Hin.
    repeat (destruct Hin as [<-|Hin]; [reflexivity|]). destruct Hin. }
  rewrite Hpick. unfold Ok at 1. cbn [res_bind].
  assert (Hcheck : Collector.check_filters (Dict.keys [(name, value)])
                   = Ok tt).
  { cbn in Hin.
    repeat (destruct Hin as [<-|Hin]; [reflexivity|]). destruct Hin. }
  rewrite Hcheck. unfold Ok at 1. cbn [res_bind Dict.nonempty].
  rewrite coerce_single_other by assumption. unfold Ok at 1.
  cbn [res_bind]. unfold Dict.update.
  cbn [Dict.iteritems fold_left fst snd Dict.set].
  rewrite String.eqb_refl. cbn [chain_ops].
  destruct (narrowing (VDocument revit_doc) name value) as [e|ops];
    [reflexivity|].
  cbn [res_bind]. unfold narrowed. cbn. now rewrite app_nil_r.
Qed.

Lemma narrowing_symbol_wrong (doc value : Value) :
  is_bool value = false -> is_parameter_filter value = false ->
  isinstance value "ElementId" = false ->
  isinstance value "FamilySymbol" = false ->
  narrowing doc "symbol" value
  = Raise (RPW_TypeError "FamilySymbol or FamilySymbol Id"
                         (type_name value)).
Proof.
  intros Hb Hp Hid Hsym.
  unfold narrowing, _Filter.apply_filter, bind, lift, gets,
    _FamilyInstanceFilter.
  destruct value; try discriminate; cbn [Dict.getitem Dict.get _Filter.MAP
    String.eqb Ascii.eqb Bool.eqb Dict.contains negb Ok];
    rewrite ?Hid, ?Hsym; reflexivity.
Qed.

Lemma narrowing_level_wrong (doc value : Value) (name : string) :
  In name ["level"; "not_level"] ->
  is_bool value = false -> is_parameter_filter value = false ->
  isinstance value "ElementId" = false ->
  isinstance value "Level" = false ->
  narrowing doc name value
  = Raise (RPW_TypeError "Level or Level Id" (type_name value)).
Proof.
  intros Hin Hb Hp Hid Hlvl. cbn in Hin.
  unfold narrowing, _Filter.apply_filter, bind, lift, gets,
    _ElementLevelFilter.
  destruct Hin as [<-|[<-|[]]];
    (destruct value; try discriminate; cbn [Dict.getitem Dict.get _Filter.MAP
       String.eqb Ascii.eqb Bool.eqb Dict.contains negb Ok orb];
     rewrite ?Hid, ?Hlvl; reflexivity).
Qed.

Lemma narrowing_unknown_shape (doc value : Value) (name : string) :
  In name ["parameter_filter"; "is_type"; "is_not_type";
           "is_view_independent"] ->
  is_bool value = false -> is_parameter_filter value = false ->
  narrowing doc name value
  = Raise (RPW_Exception "unknown parameter filter error: {}:{}"
                         [VStr name; value]).
Proof.
  intros Hin Hb Hp. cbn in Hin.
  unfold narrowing, _Filter.apply_filter, bind, lift, gets.
  destruct Hin as [<-|[<-|[<-|[<-|[]]]]];
    (destruct value; try discriminate; reflexivity).
Qed.

End ShapeFacts.

(** ** Keyword dictionaries that differ in one stretch *)

Section DifferFacts.

Context {H : Host}.

Variables x y : dict.

Lemma differ_get (k : string) (d1 d2 : dict) :
  ~ In k (Dict.keys x) -> ~ In k (Dict.keys y) ->
  differ_at x y d1 d2 -> Dict.get k d1 = Dict.get k d2.
Proof.
  intros Hx Hy (pre & post & -> & ->).
  induction pre as [|[k1 v1] pre IH]; simpl.
  - now rewrite !get_app_notin.
  - now destruct (String.eqb k k1).
Qed.

Lemma differ_contains (k : string) (d1 d2 : dict) :
  ~ In k (Dict.keys x) -> ~ In k (Dict.keys y) ->
  differ_at x y d1 d2 -> Dict.contains k d1 = Dict.contains k d2.
Proof.
  intros Hx Hy Hd. unfold Dict.contains.
  now rewrite (differ_get k d1 d2 Hx Hy Hd).
Qed.

Lemma differ_remove (k : string) (d1 d2 : dict) :
  ~ In k (Dict.keys x) -> ~ In k (Dict.keys y) ->
  differ_at x y d1 d2 -> differ_at x y (Dict.remove k d1) (Dict.remove k d2).
Proof.
  intros Hx Hy (pre & post & -> & ->).
  induction pre as [|[k1 v1] pre IH]; simpl.
  - exists [], (Dict.remove k post). now rewrite !remove_app_notin.
  - destruct (String.eqb k k1).
    + now exists pre, post.
    + destruct IH as (pre' & post' & -> & ->).
      now exists ((k1, v1) :: pre'), post'.
Qed.

Lemma differ_set (k : string) (v : Value) (d1 d2 : dict) :
  ~ In k (Dict.keys x) -> ~ In k (Dict.keys y) ->
  differ_at x y d1 d2 ->
  differ_at x y (Dict.set k v d1) (Dict.set k v d2).
Proof.
  intros Hx Hy (pre & post & -> & ->).
  induction pre as [|[k1 v1] pre IH]; simpl.
  - exists [], (Dict.set k v post). now rewrite !set_app_notin.
  - destruct (String.eqb k k1).
    + now exists ((k, v) :: pre), post.
    + destruct IH as (pre' & post' & -> & ->).
      now exists ((k1, v1) :: pre'), post'.
Qed.

(** The stretch holds filter names only, none of them coerced. *)
Hypothesis x_filters :
  forall k, In k (Dict.keys x) -> Dict.contains k _Filter.MAP = true.
Hypothesis y_filters :
  forall k, In k (Dict.keys y) -> Dict.contains k _Filter.MAP = true.
Hypothesis x_not_coerced :
  ~ In "of_category" (Dict.keys x) /\ ~ In "of_class" (Dict.keys x).
Hypothesis y_not_coerced :
  ~ In "of_category" (Dict.keys y) /\ ~ In "of_class" (Dict.keys y).

Lemma scope_key_outside (k : string) :
  In k scope_keys -> ~ In k (Dict.keys x) /\ ~ In k (Dict.keys y).
Proof.
  intros Hk. split; intros Hin;
    [apply x_filters in Hin|apply y_filters in Hin];
    cbn in Hk; repeat (destruct Hk as [<-|Hk]; [discriminate|]);
    destruct Hk.
Qed.

Lemma differ_after_scope (d1 d2 : dict) :
  differ_at x y d1 d2 -> differ_at x y (after_scope d1) (after_scope d2).
Proof using x_filters y_filters.
  intros Hd. unfold after_scope.
  destruct (scope_key_outside "doc") as [? ?]; [cbn; auto 6|].
  destruct (scope_key_outside "view") as [? ?]; [cbn; auto 6|].
  destruct (scope_key_outside "elements") as [? ?]; [cbn; auto 6|].
  destruct (scope_key_outside "element_ids") as [? ?]; [cbn; auto 6|].
  assert (Hd0 : differ_at x y (Dict.remove "doc" d1) (Dict.remove "doc" d2))
    by now apply differ_remove.
  rewrite (differ_contains "view" _ _ ltac:(assumption) ltac:(assumption) Hd0).
  rewrite (differ_contains "elements" _ _ ltac:(assumption)
             ltac:(assumption) Hd0).
  rewrite (differ_contains "element_ids" _ _ ltac:(assumption)
             ltac:(assumption) Hd0).
  destruct (Dict.contains "view" (Dict.remove "doc" d2));
    [now apply differ_remove|].
  destruct (Dict.contains "elements" (Dict.remove "doc" d2));
    [now apply differ_remove|].
  destruct (Dict.contains "element_ids" (Dict.remove "doc" d2));
    [now apply differ_remove|assumption].
Qed.

(** Both dictionaries bind the same scope. *)
Lemma differ_pick_scope (d1 d2 : dict) :
  differ_at x y d1 d2 ->
  exists r : Res (Value * FilteredElementCollector),
    Collector.pick_scope d1
    = (try p <- r; Ok (fst p, snd p, after_scope d1))%res
    /\ Collector.pick_scope d2
       = (try p <- r; Ok (fst p, snd p, after_scope d2))%res.
Proof using x_filters y_filters.
  intros Hd.
  destruct (scope_key_outside "doc") as [? ?]; [cbn; auto 6|].
  destruct (scope_key_outside "view") as [? ?]; [cbn; auto 6|].
  destruct (scope_key_outside "elements") as [? ?]; [cbn; auto 6|].
  destruct (scope_key_outside "element_ids") as [? ?]; [cbn; auto 6|].
  exists (bind_scope (Dict.get "doc" d2) (Dict.get "view" d2)
                     (Dict.get "elements" d2) (Dict.get "element_ids" d2)).
  rewrite !pick_scope_spec.
  rewrite (differ_get "doc" d1 d2), (differ_get "view" d1 d2),
    (differ_get "elements" d1 d2), (differ_get "element_ids" d1 d2)
    by assumption.
  split; reflexivity.
Qed.

Lemma check_filters_app (l1 l2 : list string) :
  Collector.check_filters (l1 ++ l2)
  = (try _ <- Collector.check_filters l1; Collector.check_filters l2)%res.
Proof.
  induction l1 as [|k l1 IH]; [reflexivity|].
  cbn [app Collector.check_filters].
  destruct (negb (Dict.contains k _Filter.MAP)); [reflexivity|apply IH].
Qed.

Lemma check_filters_accepts (l : list string) :
  (forall k, In k l -> Dict.contains k _Filter.MAP = true) ->
  Collector.check_filters l = Ok tt.
Proof.
  induction l as [|k l IH]; intros Hall; [reflexivity|].
  cbn [Collector.check_filters]. rewrite (Hall k) by (simpl; auto).
  cbn [negb]. apply IH. intros k' Hk'. apply Hall. simpl. auto.
Qed.

Lemma differ_check_filters (d1 d2 : dict) :
  differ_at x y d1 d2 ->
  Collector.check_filters (Dict.keys d1)
  = Collector.check_filters (Dict.keys d2).
Proof.
  intros (pre & post & -> & ->).
  rewrite !keys_app, !check_filters_app.
  now rewrite (check_filters_accepts _ x_filters),
    (check_filters_accepts _ y_filters).
Qed.

Lemma differ_coerce (d1 d2 : dict) :
  differ_at x y d1 d2 ->
  match _Filter._coerce_filter_values d1,
        _Filter._coerce_filter_values d2 with
  | inl e1, inl e2 => e1 = e2
  | inr co1, inr co2 => differ_at x y co1 co2
  | _, _ => False
  end.
Proof.
  intros Hd. destruct x_not_coerced as [Hxc Hxk].
  destruct y_not_coerced as [Hyc Hyk].
  unfold _Filter._coerce_filter_values.
  rewrite (differ_get "of_category" d1 d2 Hxc Hyc Hd).
  assert (Hstep : forall (r1 r2 : Res dict),
             match r1, r2 with
             | inl e1, inl e2 => e1 = e2
             | inr f1, inr f2 => differ_at x y f1 f2
             | _, _ => False
             end ->
             match
               (try filters <- r1;
                match Dict.get "of_class" filters with
                | Some (VStr (String a s)) =>
                    try v <- DB_getattr (String a s);
                    Ok (Dict.set "of_class" v filters)
                | _ => Ok filters
                end)%res,
               (try filters <- r2;
                match Dict.get "of_class" filters with
                | Some (VStr (String a s)) =>
                    try v <- DB_getattr (String a s);
                    Ok (Dict.set "of_class" v filters)
                | _ => Ok filters
                end)%res
             with
             | inl e1, inl e2 => e1 = e2
             | inr co1, inr co2 => differ_at x y co1 co2
             | _, _ => False
             end).
  { intros [e1|f1] [e2|f2] Hr; try contradiction; cbn [res_bind]; auto.
    rewrite (differ_get "of_class" f1 f2 Hxk Hyk Hr).
    destruct (Dict.get "of_class" f2) as [[| | | | [|a s] | | | | | | | |]|];
      cbn; auto.
    destruct (DB_getattr (String a s)); cbn; auto.
    now apply differ_set. }
  apply Hstep.
  destruct (Dict.get "of_category" d2) as [[| | | | [|a s] | | | | | | | |]|];
    cbn; auto.
  destruct (BicEnum_get (String a s)); cbn; auto.
  now apply differ_set.
Qed.

End DifferFacts.

(** ** Constructions that yield the same ResultSet *)

Section SameResultSet.

Context {H : Host}.

Lemma same_ops_refl (r : Res (list NarrowOp)) : same_ops r r.
Proof. destruct r; cbn; [reflexivity|tauto]. Qed.

Lemma same_ops_step (here : Res (list NarrowOp))
      (d1 d2 : Res (list NarrowOp)) :
  same_ops d1 d2 ->
  same_ops
    (try h <- here; try deeper <- d1; try after <- d1;
     Ok (h ++ deeper ++ after))%res
    (try h <- here; try deeper <- d2; try after <- d2;
     Ok (h ++ deeper ++ after))%res.
Proof.
  destruct here as [e|h]; cbn; [reflexivity|].
  destruct d1 as [e1|o1], d2 as [e2|o2]; cbn; try tauto.
  intros Hmem op. rewrite !in_app_iff. specialize (Hmem op). tauto.
Qed.

Lemma differ_chain_ops (x y : dict) (doc : Value) (d1 d2 : dict) :
  (forall post, same_ops (chain_ops doc (x ++ post))
                         (chain_ops doc (y ++ post))) ->
  differ_at x y d1 d2 ->
  same_ops (chain_ops doc d1) (chain_ops doc d2).
Proof.
  intros Hxy (pre & post & -> & ->).
  induction pre as [|[k v] pre IH]; [apply Hxy|].
  cbn [app chain_ops]. now apply same_ops_step.
Qed.

(** Two constructions on keyword dictionaries with distinct keys that
    differ in one stretch of uncoerced filters, which a chain cannot tell
    apart by the operations it records: both raise the same exception, or
    both cache the same elements. *)
Lemma init_differ (x y d1 d2 : dict) :
  differ_at x y d1 d2 ->
  NoDup (Dict.keys d1) -> NoDup (Dict.keys d2) ->
  (forall k, In k (Dict.keys x) -> Dict.contains k _Filter.MAP = true) ->
  (forall k, In k (Dict.keys y) -> Dict.contains k _Filter.MAP = true) ->
  ~ In "of_category" (Dict.keys x) /\ ~ In "of_class" (Dict.keys x) ->
  ~ In "of_category" (Dict.keys y) /\ ~ In "of_class" (Dict.keys y) ->
  (forall doc post, same_ops (chain_ops doc (x ++ post))
                             (chain_ops doc (y ++ post))) ->
  Dict.nonempty (after_scope d1) = Dict.nonempty (after_scope d2) ->
  Collector.result_set (Collector.__init__ d1)
  = Collector.result_set (Collector.__init__ d2).
Proof.
  intros Hd Hnd1 Hnd2 Hx Hy Hxc Hyc Hxy Hne.
  rewrite !init_spec.
  destruct (differ_pick_scope x y Hx Hy d1 d2 Hd) as (r & -> & ->).
  destruct r as [e|[doc fec]]; [reflexivity|].
  unfold Ok. cbn [res_bind fst snd].
  pose proof (differ_after_scope x y Hx Hy d1 d2 Hd) as Hrest.
  assert (Hnd1' : NoDup (Dict.keys (after_scope d1))).
  { unfold after_scope.
    repeat match goal with
      | |- context [if ?b then _ else _] => destruct b
      end; repeat apply NoDup_keys_remove; assumption. }
  assert (Hnd2' : NoDup (Dict.keys (after_scope d2))).
  { unfold after_scope.
    repeat match goal with
      | |- context [if ?b then _ else _] => destruct b
      end; repeat apply NoDup_keys_remove; assumption. }
  revert Hrest Hnd1' Hnd2' Hne.
  generalize (after_scope d1) (after_scope d2). intros f1 f2 Hf Hn1 Hn2 Hne.
  rewrite (differ_check_filters x y Hx Hy f1 f2 Hf).
  destruct (Collector.check_filters (Dict.keys f2)) as [e|[]];
    [reflexivity|]. cbn [res_bind]. rewrite Hne.
  destruct (Dict.nonempty f2); [|reflexivity].
  pose proof (differ_coerce x y Hxc Hyc f1 f2 Hf) as Hco.
  destruct (_Filter._coerce_filter_values f1) as [e1|co1] eqn:E1,
           (_Filter._coerce_filter_values f2) as [e2|co2] eqn:E2;
    try contradiction; [now subst|]. cbn [res_bind].
  rewrite (update_same_keys _ f1 co1 Hn1 (coerce_keys f1 co1 E1)).
  rewrite (update_same_keys _ f2 co2 Hn2 (coerce_keys f2 co2 E2)).
  pose proof (differ_chain_ops x y doc co1 co2 (Hxy doc) Hco) as Hops.
  destruct (chain_ops doc co1) as [c1|o1], (chain_ops doc co2) as [c2|o2];
    cbn in Hops; try contradiction; [now subst|].
  cbn. unfold Ok. f_equal. now apply enumerate_narrowed_same.
Qed.

Lemma NoDup_keys_insert (pre post : dict) (k : string) (v : Value) :
  NoDup (Dict.keys (pre ++ post)) -> ~ In k (Dict.keys (pre ++ post)) ->
  NoDup (Dict.keys (pre ++ [(k, v)] ++ post)).
Proof.
  rewrite !keys_app. cbn [Dict.keys map fst app]. intros Hnd Hk.
  apply NoDup_cons with (x := k) in Hnd; [|assumption].
  revert Hnd. apply Permutation_NoDup.
  apply Permutation_middle.
Qed.

(** C4: whatever the scope arguments (and other filters) next to it,
    [is_type=False] yields the ResultSet of [is_not_type=True], and
    [is_not_type=False] the ResultSet of [is_type=True]: either both
    constructions raise the same exception or both cache the same elements.
    [pre] and [post] are the other keyword arguments, before and behind in
    the dictionary's order. *)
Theorem C4_type_filter_duality (pre post : dict) :
  NoDup (Dict.keys (pre ++ post)) ->
  ~ In "is_type" (Dict.keys (pre ++ post)) ->
  ~ In "is_not_type" (Dict.keys (pre ++ post)) ->
  Collector.result_set
    (Collector.__init__ (pre ++ [("is_type", VBool false)] ++ post))
  = Collector.result_set
      (Collector.__init__ (pre ++ [("is_not_type", VBool true)] ++ post))
  /\ Collector.result_set
       (Collector.__init__ (pre ++ [("is_not_type", VBool false)] ++ post))
     = Collector.result_set
         (Collector.__init__ (pre ++ [("is_type", VBool true)] ++ post)).
Proof.
  intros Hnd Hit Hint.
  assert (Hne : forall a b : string * Value,
             ~ In (fst a) scope_keys -> ~ In (fst b) scope_keys ->
             Dict.contains (fst a) _Filter.MAP = true ->
             Dict.contains (fst b) _Filter.MAP = true ->
             Dict.nonempty (after_scope (pre ++ [a] ++ post))
             = Dict.nonempty (after_scope (pre ++ [b] ++ post))).
  { intros [ka va] [kb vb] Ha Hb Hma Hmb. cbn [fst] in *.
    assert (Hd : differ_at [(ka, va)] [(kb, vb)]
                           (pre ++ [(ka, va)] ++ post)
                           (pre ++ [(kb, vb)] ++ post))
      by (now exists pre, post).
    apply differ_after_scope in Hd.
    - destruct Hd as (pre' & post' & -> & ->). now destruct pre'.
    - cbn. intros k [<-|[]]. assumption.
    - cbn. intros k [<-|[]]. assumption. }
  split.
  - apply (init_differ [("is_type", VBool false)]
                       [("is_not_type", VBool true)]).
    + now exists pre, post.
    + now apply NoDup_keys_insert.
    + now apply NoDup_keys_insert.
    + cbn. intros k [<-|[]]. reflexivity.
    + cbn. intros k [<-|[]]. reflexivity.
    + cbn. split; intros [Heq|[]]; discriminate.
    + cbn. split; intros [Heq|[]]; discriminate.
    + intros doc post'. apply same_ops_refl.
    + apply Hne; cbn; try reflexivity; intuition discriminate.
  - apply (init_differ [("is_not_type", VBool false)]
                       [("is_type", VBool true)]).
    + now exists pre, post.
    + now apply NoDup_keys_insert.
    + now apply NoDup_keys_insert.
    + cbn. intros k [<-|[]]. reflexivity.
    + cbn. intros k [<-|[]]. reflexivity.
    + cbn. split; intros [Heq|[]]; discriminate.
    + cbn. split; intros [Heq|[]]; discriminate.
    + intros doc post'. apply same_ops_refl.
    + apply Hne; cbn; try reflexivity; intuition discriminate.
Qed.

End SameResultSet.

(** [Collector(view=..., is_type=False)] and
    [Collector(view=..., is_not_type=True)] on the demo host. *)
Lemma C4_witness :
  NoDup (Dict.keys ([("view", VElementId 5)] ++ []))
  /\ Collector.result_set
       (Collector.__init__ (H := Demo.host)
          [("view", VElementId 5); ("is_type", VBool false)])
     = Ok [Demo.wall_1; Demo.door]
  /\ Collector.result_set
       (Collector.__init__ (H := Demo.host)
          ([("view", VElementId 5)] ++ [("is_type", VBool false)] ++ []))
     = Collector.result_set
         (Collector.__init__ (H := Demo.host)
            ([("view", VElementId 5)] ++ [("is_not_type", VBool true)] ++ [])).
Proof.
  assert (Hnd : NoDup (Dict.keys ([("view", VElementId 5)] ++ []))).
  { cbn. constructor; [intros []|constructor]. }
  split; [exact Hnd|]. split; [reflexivity|].
  apply (@C4_type_filter_duality Demo.host [("view", VElementId 5)] []).
  - exact Hnd.
  - cbn. intros [Heq|[]]. discriminate.
  - cbn. intros [Heq|[]]. discriminate.
Defined.

Section SkippedFilter.

Context {H : Host}.

Lemma contains_after_scope (k : string) (d : dict) :
  ~ In k scope_keys -> Dict.contains k (after_scope d) = Dict.contains k d.
Proof.
  intros Hk. cbn in Hk. unfold after_scope.
  repeat match goal with
    | |- context [if ?b then _ else _] => destruct b
    end;
    rewrite ?contains_remove_other; auto; intros ->; tauto.
Qed.

(** C10: [is_view_independent=False] records no operation and raises
    nothing, and next to an [of_category] filter, whatever the scope
    arguments (and other filters) around them, it does not change the
    ResultSet of the construction.  [pre] and [post] are the other keyword
    arguments, before and behind in the dictionary's order. *)
Theorem C10_view_independent_false_is_skipped (pre post : dict)
        (category : Value) :
  NoDup (Dict.keys (pre ++ post)) ->
  ~ In "is_view_independent" (Dict.keys (pre ++ post)) ->
  Dict.get "of_category" (pre ++ post) = Some category ->
  (forall c : CollectorObj,
      _Filter.apply_filter "is_view_independent" (VBool false) c = (Ok tt, c))
  /\ Collector.result_set
       (Collector.__init__
          (pre ++ [("is_view_independent", VBool false)] ++ post))
     = Collector.result_set (Collector.__init__ (pre ++ post)).
Proof.
  intros Hnd Hivi Hcat. split; [reflexivity|].
  assert (Hd : differ_at [("is_view_independent", VBool false)] []
                         (pre ++ [("is_view_independent", VBool false)]
                              ++ post)
                         (pre ++ post))
    by (now exists pre, post).
  assert (Hx : forall k, In k (Dict.keys [("is_view_independent", VBool false)])
                         -> Dict.contains k _Filter.MAP = true)
    by (cbn; intros k [<-|[]]; reflexivity).
  assert (Hy : forall k, In k (Dict.keys (@nil (string * Value)))
                         -> Dict.contains k _Filter.MAP = true)
    by (cbn; intros k []).
  apply (init_differ [("is_view_independent", VBool false)] []).
  - exact Hd.
  - now apply NoDup_keys_insert.
  - exact Hnd.
  - exact Hx.
  - exact Hy.
  - cbn. split; intros [Heq|[]]; discriminate.
  - cbn. tauto.
  - intros doc post'. cbn [app chain_ops].
    change (narrowing doc "is_view_independent" (VBool false))
      with (@inr exn (list NarrowOp) []).
    cbn [res_bind].
    destruct (chain_ops doc post') as [e|ops]; cbn; [reflexivity|].
    intros op. rewrite in_app_iff. tauto.
  - apply (differ_after_scope _ _ Hx Hy) in Hd.
    destruct Hd as (pre' & post' & -> & Hrest).
    assert (Hc : Dict.contains "of_category" (after_scope (pre ++ post))
                 = true).
    { rewrite contains_after_scope
        by (cbn; intuition discriminate).
      unfold Dict.contains. now rewrite Hcat. }
    destruct (after_scope (pre ++ post)); [discriminate|].
    now destruct pre'.
Qed.

End SkippedFilter.

(** [Collector(of_category='OST_Walls', is_view_independent=False)] and
    [Collector(of_category='OST_Walls')] on the demo host, in both
    iteration orders of the keyword dictionary. *)
Lemma C10_witness :
  Dict.get "of_category" ([("of_category", VStr "OST_Walls")] ++ [])
  = Some (VStr "OST_Walls")
  /\ Collector.result_set
       (Collector.__init__ (H := Demo.host)
          [("of_category", VStr "OST_Walls")])
     = Ok [Demo.wall_1; Demo.wall_2; Demo.wall_type]
  /\ Collector.result_set
       (Collector.__init__ (H := Demo.host)
          ([("of_category", VStr "OST_Walls")]
             ++ [("is_view_independent", VBool false)] ++ []))
     = Collector.result_set
         (Collector.__init__ (H := Demo.host)
            ([("of_category", VStr "OST_Walls")] ++ []))
  /\ Collector.result_set
       (Collector.__init__ (H := Demo.host)
          ([] ++ [("is_view_independent", VBool false)]
              ++ [("of_category", VStr "OST_Walls")]))
     = Collector.result_set
         (Collector.__init__ (H := Demo.host)
            ([] ++ [("of_category", VStr "OST_Walls")])).
Proof.
  assert (Hnd : NoDup (Dict.keys [("of_category", VStr "OST_Walls")])).
  { cbn. constructor; [intros []|constructor]. }
  split; [reflexivity|]. split; [reflexivity|]. split.
  - apply (@C10_view_independent_false_is_skipped Demo.host
             [("of_category", VStr "OST_Walls")] [] (VStr "OST_Walls")).
    + exact Hnd.
    + cbn. intros [Heq|[]]. discriminate.
    + reflexivity.
  - apply (@C10_view_independent_false_is_skipped Demo.host
             [] [("of_category", VStr "OST_Walls")] (VStr "OST_Walls")).
    + exact Hnd.
    + cbn. intros [Heq|[]]. discriminate.
    + reflexivity.
Defined.

(** * Further properties of the code *)

(** ** The chain applies every stored filter, and more than once *)

Section ChainShape.

Context {H : Host}.

Lemma same_ops_chain_once (doc : Value) (filters : dict) :
  same_ops (chain_ops doc filters) (once_ops doc filters).
Proof.
  induction filters as [|[k v] filters IH]; cbn [chain_ops once_ops].
  - cbn. tauto.
  - destruct (narrowing doc k v) as [e|here]; cbn [res_bind];
      [reflexivity|].
    destruct (chain_ops doc filters) as [e1|o1],
             (once_ops doc filters) as [e2|o2];
      cbn in IH |- *; try contradiction; [assumption|].
    intros op. rewrite !in_app_iff. specialize (IH op). tauto.
Qed.

Lemma enumerate_narrowed_filter (ops : list NarrowOp)
      (fec : FilteredElementCollector) :
  enumerate (narrowed ops fec) = List.filter (passes_all ops) (enumerate fec).
Proof.
  unfold enumerate, narrowed, passes_all.
  cbn [fec_applied fec_doc fec_scope].
  induction (scope_elements (fec_doc fec) (fec_scope fec)) as [|e l IH];
    [reflexivity|].
  cbn [List.filter]. rewrite forallb_app.
  destruct (forallb (fun op => op_passes op e) (fec_applied fec));
    cbn [andb List.filter].
  - destruct (forallb (fun op => op_passes op e) ops); now rewrite IH.
  - exact IH.
Qed.

Lemma passes_all_same_members (o1 o2 : list NarrowOp) (e : Elem) :
  (forall op, In op o1 <-> In op o2) -> passes_all o1 e = passes_all o2 e.
Proof.
  intros Hmem. unfold passes_all.
  destruct (forallb (fun op => op_passes op e) o2) eqn:E2.
  - rewrite forallb_forall in *. intros op Hop. apply E2, Hmem, Hop.
  - destruct (forallb (fun op => op_passes op e) o1) eqn:E1; [|reflexivity].
    rewrite <- E2. symmetry. rewrite forallb_forall in *.
    intros op Hop. apply E1, Hmem, Hop.
Qed.

(** What a returning call of [filter] leaves behind, in full. *)
Lemma filter_ok_inv (kw : dict) (c c' : CollectorObj) :
  Collector.filter kw c = (Ok tt, c') ->
  exists co ops,
    _Filter._coerce_filter_values kw = Ok co
    /\ chain_ops (_collector_doc c) (Dict.update (_filters c) co) = Ok ops
    /\ c' = mkCollector (narrowed ops (_revit_object c)) (_collector_doc c)
                        (enumerate (narrowed ops (_revit_object c)))
                        (Dict.update (_filters c) co).
Proof.
  unfold Collector.filter. intros Hcall.
  destruct (_Filter._coerce_filter_values kw) as [e|co] eqn:Hco.
  { rewrite (call_coerce_fails kw c e Hco) in Hcall. discriminate. }
  destruct (chain_ops (_collector_doc c) (Dict.update (_filters c) co))
    as [e|ops] eqn:Hops.
  { destruct (call_chain_fails kw co c e Hco Hops) as (Hd & _).
    rewrite Hcall in Hd. discriminate. }
  rewrite (call_ok kw co c ops Hco Hops) in Hcall.
  injection Hcall as <-. exists co, ops. auto.
Qed.

(** X1: the elements that a returning call of [filter] caches are the
    elements that iterating the Collector gave before the call, restricted
    to those that pass every stored filter, each filter taken once and in
    the dictionary's order: the repeated applications of the recursive
    chain do not show in the result. *)
Theorem filter_caches_what_passes_each_stored_filter
        (kw : dict) (c c' : CollectorObj) :
  Collector.filter kw c = (Ok tt, c') ->
  exists ops,
    once_ops (_collector_doc c') (_filters c') = Ok ops
    /\ elements c' = List.filter (passes_all ops) (Collector.__iter__ c).
Proof.
  intros Hcall.
  destruct (filter_ok_inv kw c c' Hcall) as (co & ops & Hco & Hops & ->).
  cbn [_collector_doc _filters elements].
  pose proof (same_ops_chain_once (_collector_doc c)
                (Dict.update (_filters c) co)) as Hsame.
  rewrite Hops in Hsame.
  destruct (once_ops (_collector_doc c) (Dict.update (_filters c) co))
    as [e|once]; cbn in Hsame; [contradiction|].
  exists once. split; [reflexivity|].
  rewrite enumerate_narrowed_filter. unfold Collector.__iter__.
  apply filter_ext. intros e. now apply passes_all_same_members.
Qed.

(** X2: a call of [filter] never widens.  After two returning calls in a
    row, every element cached by the second was cached by the first,
    whatever the second call stores, also when it stores another value
    under a name that the first call used. *)
Theorem filter_never_widens (kw1 kw2 : dict) (c c1 c2 : CollectorObj) :
  Collector.filter kw1 c = (Ok tt, c1) ->
  Collector.filter kw2 c1 = (Ok tt, c2) ->
  incl (elements c2) (elements c1).
Proof.
  intros H1 H2.
  destruct (filter_ok_inv kw2 c1 c2 H2) as (co & ops & _ & _ & ->).
  cbn [elements]. rewrite enumerate_narrowed_filter.
  change (enumerate (_revit_object c1)) with (Collector.__iter__ c1).
  rewrite (filter_ok_iter kw1 c c1 H1).
  apply incl_filter.
Qed.

End ChainShape.

(** [filter(is_type=False)] on the demo Collector of walls. *)
Lemma filter_caches_what_passes_each_stored_filter_witness :
  Collector.filter [("is_type", VBool false)] Demo.walls
  = (Ok tt,
     mkCollector (H := Demo.host)
       (mkFEC 0 WholeDocument
              [OfClass "Wall"; OfClass "Wall";
               WhereElementIsNotElementType; WhereElementIsNotElementType])
       (VDocument 0) [Demo.wall_1; Demo.wall_2]
       [("of_class", VType "Wall"); ("is_type", VBool false)])
  /\ exists ops,
      once_ops (H := Demo.host) (VDocument 0)
               [("of_class", VType "Wall"); ("is_type", VBool false)]
      = Ok ops
      /\ [Demo.wall_1; Demo.wall_2]
         = List.filter (passes_all (H := Demo.host) ops)
                       (Collector.__iter__ Demo.walls).
Proof.
  split; [reflexivity|].
  apply (@filter_caches_what_passes_each_stored_filter Demo.host
           [("is_type", VBool false)] Demo.walls
           (mkCollector (H := Demo.host)
              (mkFEC 0 WholeDocument
                     [OfClass "Wall"; OfClass "Wall";
                      WhereElementIsNotElementType;
                      WhereElementIsNotElementType])
              (VDocument 0) [Demo.wall_1; Demo.wall_2]
              [("of_class", VType "Wall"); ("is_type", VBool false)])).
  reflexivity.
Defined.

(** [Collector(of_class='Wall')] refiltered with [of_class='WallType']: the
    stored class is replaced, yet no wall type shows up. *)
Lemma filter_never_widens_witness :
  Collector.filter [("of_class", VStr "Wall")] Demo.fresh
  = (Ok tt, Demo.walls)
  /\ Collector.filter [("of_class", VStr "WallType")] Demo.walls
     = (Ok tt,
        mkCollector (H := Demo.host)
          (mkFEC 0 WholeDocument [OfClass "Wall"; OfClass "WallType"])
          (VDocument 0) [] [("of_class", VType "WallType")])
  /\ incl (@nil Z) (elements Demo.walls).
Proof.
  split; [reflexivity|]. split; [reflexivity|].
  apply (@filter_never_widens Demo.host [("of_class", VStr "Wall")]
           [("of_class", VStr "WallType")] Demo.fresh Demo.walls
           (mkCollector (H := Demo.host)
              (mkFEC 0 WholeDocument [OfClass "Wall"; OfClass "WallType"])
              (VDocument 0) [] [("of_class", VType "WallType")]));
    reflexivity.
Defined.

Section ChainCount.

Context {H : Host}.

Lemma narrowing_length (doc : Value) (name : string) (value : Value)
      (ops : list NarrowOp) :
  narrowing doc name value = Ok ops ->
  List.length ops = if skipped name value then 0 else 1.
Proof.
  unfold narrowing, _Filter.apply_filter, bind, lift, gets, raise, ret,
    Dict.getitem, Dict.contains, Raise, Ok.
  destruct (Dict.get name _Filter.MAP) as [m|]; [|discriminate].
  cbn [negb].
  destruct value as [| [|] | | | | | | | | | | |]; cbn [skipped];
    try (destruct (String.eqb name "is_type");
         destruct (String.eqb name "is_not_type"); cbn [orb negb]);
    cbv iota;
    repeat match goal with
      | |- context [if ?b then _ else _] => destruct b
      end;
    cbn [Dict.get _Filter.MAP String.eqb Ascii.eqb Bool.eqb res_bind
         _collector_doc blank orb negb];
    rewrite ?call_collector_spec;
    repeat match goal with
      | |- context [method_op ?a ?b] => destruct (method_op a b)
      | |- context [_FamilyInstanceFilter ?a ?b] =>
          destruct (_FamilyInstanceFilter a b)
      | |- context [_ElementLevelFilter ?a ?b] =>
          destruct (_ElementLevelFilter a b)
      end;
    rewrite ?call_collector_spec;
    repeat match goal with
      | |- context [method_op ?a ?b] => destruct (method_op a b)
      end;
    cbn; intros Heq; try discriminate; injection Heq as <-; reflexivity.
Qed.

Lemma chain_ops_length (doc : Value) (filters : dict)
      (ops : list NarrowOp) :
  chain_ops doc filters = Ok ops ->
  forallb (fun kv => negb (skipped (fst kv) (snd kv))) filters = true ->
  List.length ops + 1 = 2 ^ List.length filters.
Proof.
  revert ops. induction filters as [|[k v] filters IH]; intros ops Hops Hall.
  - injection Hops as <-. reflexivity.
  - cbn [chain_ops] in Hops. cbn [forallb fst snd] in Hall.
    apply andb_true_iff in Hall. destruct Hall as [Hkv Hall].
    destruct (narrowing doc k v) as [e|here] eqn:Hhere; [discriminate|].
    cbn [res_bind] in Hops.
    destruct (chain_ops doc filters) as [e|deeper]; [discriminate|].
    cbn [res_bind] in Hops. injection Hops as <-.
    apply narrowing_length in Hhere.
    destruct (skipped k v); [discriminate|].
    specialize (IH deeper eq_refl Hall).
    rewrite !length_app, Hhere. cbn [List.length Nat.pow]. lia.
Qed.

(** X3: the chain applies more operations than there are filters.  When no
    filter is passed over, a returning chain over [n] filters records
    [2 ^ n - 1] operations on the host collector: after each filter, the
    chain of the filters behind it runs both as the recursive call and as
    the rest of the loop. *)
Theorem chain_records_exponentially_many (filters : dict)
        (c c' : CollectorObj) :
  _Filter._chain filters c = (Ok tt, c') ->
  forallb (fun kv => negb (skipped (fst kv) (snd kv))) filters = true ->
  List.length (fec_applied (_revit_object c')) + 1
  = List.length (fec_applied (_revit_object c)) + 2 ^ List.length filters.
Proof.
  intros Hchain Hall. pose proof (chain_spec filters c) as Hspec.
  destruct (chain_ops (_collector_doc c) filters) as [e|ops] eqn:Hops.
  - destruct Hspec as (He & _). rewrite Hchain in He. discriminate.
  - rewrite Hchain in Hspec. injection Hspec as ->.
    pose proof (chain_ops_length _ _ _ Hops Hall) as Hlen.
    unfold push, narrowed, set_revit_object.
    cbn [_revit_object fec_applied]. rewrite length_app. lia.
Qed.

(** X4: when a call of [filter] returns, every name stored on the Collector
    is a supported filter name. *)
Theorem returning_filter_stores_supported_names (kw : dict)
        (c c' : CollectorObj) :
  Collector.filter kw c = (Ok tt, c') ->
  forall k, In k (Dict.keys (_filters c')) ->
            Dict.contains k _Filter.MAP = true.
Proof.
  intros Hcall k Hin.
  destruct (filter_ok_inv kw c c' Hcall) as (co & ops & _ & Hops & ->).
  cbn [_filters] in Hin. eapply chain_ops_keys; eassumption.
Qed.

End ChainCount.

(** A chain over three filters on a fresh demo Collector: seven
    operations. *)
Lemma chain_records_exponentially_many_witness :
  _Filter._chain
    [("of_class", VType "Wall"); ("is_type", VBool false);
     ("is_view_independent", VBool true)] Demo.fresh
  = (Ok tt,
     mkCollector (H := Demo.host)
       (mkFEC 0 WholeDocument
              [OfClass "Wall"; WhereElementIsNotElementType;
               WhereElementIsViewIndependent; WhereElementIsViewIndependent;
               WhereElementIsNotElementType;
               WhereElementIsViewIndependent; WhereElementIsViewIndependent])
       (VDocument 0) [] [])
  /\ 7 + 1 = 0 + 2 ^ 3.
Proof.
  split; [reflexivity|].
  apply (@chain_records_exponentially_many Demo.host
           [("of_class", VType "Wall"); ("is_type", VBool false);
            ("is_view_independent", VBool true)] Demo.fresh
           (mkCollector (H := Demo.host)
              (mkFEC 0 WholeDocument
                 [OfClass "Wall"; WhereElementIsNotElementType;
                  WhereElementIsViewIndependent;
                  WhereElementIsViewIndependent;
                  WhereElementIsNotElementType;
                  WhereElementIsViewIndependent;
                  WhereElementIsViewIndependent])
              (VDocument 0) [] [])); reflexivity.
Defined.

Lemma returning_filter_stores_supported_names_witness :
  Collector.filter [("of_class", VStr "Wall")] Demo.fresh
  = (Ok tt, Demo.walls)
  /\ forall k, In k (Dict.keys (_filters Demo.walls)) ->
               Dict.contains k _Filter.MAP = true.
Proof.
  split; [reflexivity|].
  apply (@returning_filter_stores_supported_names Demo.host
           [("of_class", VStr "Wall")] Demo.fresh Demo.walls).
  reflexivity.
Defined.

(** ** What a call stores *)

Section StoredFilters.

Context {H : Host}.

Lemma get_update (d s : dict) (k : string) :
  NoDup (Dict.keys s) ->
  Dict.get k (Dict.update d s)
  = match Dict.get k s with
    | Some v => Some v
    | None => Dict.get k d
    end.
Proof.
  unfold Dict.update, Dict.iteritems, Dict.keys. revert d.
  induction s as [|[k1 v1] s IH]; intros d Hnd; [reflexivity|].
  cbn [fold_left fst snd map Dict.get] in *.
  inversion Hnd as [|? ? Hnotin Hnd']. subst.
  rewrite (IH _ Hnd').
  destruct (String.eqb k k1) eqn:E.
  - apply String.eqb_eq in E. subst k1.
    assert (Hnone : Dict.get k s = None).
    { destruct (Dict.get k s) eqn:Eg; [|reflexivity].
      exfalso. apply Hnotin.
      apply (contains_in_keys _ k s). unfold Dict.contains.
      now rewrite Eg. }
    rewrite Hnone. apply get_set_same.
  - apply String.eqb_neq in E.
    destruct (Dict.get k s); [reflexivity|].
    now apply get_set_other.
Qed.

(** X5: after a returning call of [filter], looking a name up in the stored
    filters gives the value of this call (as coerced) when the call named
    it, and the value stored before otherwise: new values override, the
    rest is kept. *)
Theorem filter_stores_new_over_old (kw : dict) (c c' : CollectorObj) :
  NoDup (Dict.keys kw) ->
  Collector.filter kw c = (Ok tt, c') ->
  exists co,
    _Filter._coerce_filter_values kw = Ok co
    /\ Dict.keys co = Dict.keys kw
    /\ forall k, Dict.get k (_filters c')
                 = match Dict.get k co with
                   | Some v => Some v
                   | None => Dict.get k (_filters c)
                   end.
Proof.
  intros Hnd Hcall.
  destruct (filter_ok_inv kw c c' Hcall) as (co & ops & Hco & _ & ->).
  exists co. pose proof (coerce_keys kw co Hco) as Hkeys.
  repeat split; auto.
  intros k. cbn [_filters]. apply get_update. now rewrite Hkeys.
Qed.

Lemma filter_true_id (A : Type) (l : list A) :
  List.filter (fun _ => true) l = l.
Proof. induction l as [|a l IH]; cbn; now rewrite ?IH. Qed.

Lemma enumerate_unnarrowed (d : Z) (s : Scope) :
  enumerate (mkFEC d s []) = scope_elements d s.
Proof. unfold enumerate. cbn. apply filter_true_id. Qed.

Lemma supported_names (name : string) :
  Dict.contains name _Filter.MAP = true ->
  In name ["of_class"; "of_category"; "is_not_type"; "is_type";
           "is_view_independent"; "symbol"; "level"; "not_level";
           "parameter_filter"].
Proof. intros Hc. now apply (contains_in_keys _ name _Filter.MAP) in Hc. Qed.

(** X6: a [False] is passed over for every supported name other than
    [is_type] and [is_not_type], also for the names that expect a class, a
    category, a symbol, a level or a [ParameterFilter]: the chain records
    nothing and raises nothing, and a Collector constructed on that one
    filter caches every element of the document. *)
Theorem false_value_is_passed_over (name : string) :
  Dict.contains name _Filter.MAP = true ->
  name <> "is_type" -> name <> "is_not_type" ->
  (forall c : CollectorObj,
      _Filter.apply_filter name (VBool false) c = (Ok tt, c))
  /\ Collector.__init__ [(name, VBool false)]
     = Ok (mkCollector (mkFEC revit_doc WholeDocument [])
                       (VDocument revit_doc)
                       (scope_elements revit_doc WholeDocument)
                       [(name, VBool false)]).
Proof.
  intros Hc Hit Hint. apply supported_names in Hc. cbn in Hc.
  assert (Hinit : forall es,
             es = scope_elements revit_doc WholeDocument ->
             Ok (mkCollector (mkFEC revit_doc WholeDocument [])
                             (VDocument revit_doc)
                             (enumerate (mkFEC revit_doc WholeDocument []))
                             [(name, VBool false)])
             = Ok (mkCollector (mkFEC revit_doc WholeDocument [])
                               (VDocument revit_doc) es
                               [(name, VBool false)])).
  { intros es ->. now rewrite enumerate_unnarrowed. }
  repeat (destruct Hc as [<-|Hc];
          [first [contradiction
                 | split; [reflexivity|apply Hinit; reflexivity]]|]).
  destruct Hc.
Qed.

(** X7: a [ParameterFilter] value is handed to [WherePasses] as it is under
    every name bound to [WherePasses], because the value's type is tested
    before the name: under [symbol], [level] and [not_level] it filters as
    under [parameter_filter], and [not_level] does not invert it. *)
Theorem parameter_filter_value_under_any_name (name : string)
        (rules : list FilterRule) (inverted : bool) :
  In name ["symbol"; "level"; "not_level"; "parameter_filter"] ->
  Collector.result_set
    (Collector.__init__ [(name, VParameterFilter rules inverted)])
  = Ok (List.filter
          (filter_passes (ElementParameterFilter rules inverted))
          (scope_elements revit_doc WholeDocument)).
Proof.
  intros Hin.
  assert (Hnarrow : narrowing (VDocument revit_doc) name
                              (VParameterFilter rules inverted)
                    = Ok [WherePasses
                            (ElementParameterFilter rules inverted)]).
  { cbn in Hin. destruct Hin as [<-|[<-|[<-|[<-|[]]]]]; reflexivity. }
  rewrite init_single_filter.
  - rewrite Hnarrow. cbn [res_bind]. unfold Collector.result_set, res_map.
    unfold Ok. cbn [res_bind elements]. f_equal.
    unfold enumerate. cbn [fec_applied fec_doc fec_scope].
    apply filter_ext. intros e. cbn. now rewrite andb_true_r.
  - cbn in *. intuition (subst; auto).
  - cbn in Hin. intuition (subst; discriminate).
  - cbn in Hin. intuition (subst; discriminate).
Qed.

End StoredFilters.

(** [filter(is_type=True)] on the demo Collector of walls. *)
Lemma filter_stores_new_over_old_witness :
  NoDup (Dict.keys [("is_type", VBool true)])
  /\ exists co,
      _Filter._coerce_filter_values (H := Demo.host) [("is_type", VBool true)]
      = Ok co
      /\ Dict.keys co = Dict.keys [("is_type", VBool true)]
      /\ forall k,
          Dict.get k [("of_class", VType "Wall"); ("is_type", VBool true)]
          = match Dict.get k co with
            | Some v => Some v
            | None => Dict.get k (_filters Demo.walls)
            end.
Proof.
  assert (Hnd : NoDup (Dict.keys [("is_type", VBool true)])).
  { cbn. constructor; [intros []|constructor]. }
  split; [exact Hnd|].
  apply (@filter_stores_new_over_old Demo.host [("is_type", VBool true)]
           Demo.walls
           (mkCollector (H := Demo.host)
              (mkFEC 0 WholeDocument
                     [OfClass "Wall"; OfClass "Wall";
                      WhereElementIsElementType; WhereElementIsElementType])
              (VDocument 0) []
              [("of_class", VType "Wall"); ("is_type", VBool true)]));
    [exact Hnd|reflexivity].
Defined.

(** [Collector(of_class=False)] on the demo host: the whole document. *)
Lemma false_value_is_passed_over_witness :
  Dict.contains "of_class" _Filter.MAP = true
  /\ Collector.result_set
       (Collector.__init__ (H := Demo.host) [("of_class", VBool false)])
     = Ok [Demo.wall_1; Demo.wall_2; Demo.wall_type; Demo.door].
Proof.
  split; [reflexivity|].
  destruct (@false_value_is_passed_over Demo.host "of_class" eq_refl
              ltac:(discriminate) ltac:(discriminate)) as [_ Hinit].
  rewrite Hinit. reflexivity.
Defined.

(** [Collector(not_level=ParameterFilter(pid, equals=2))] on the demo
    host: the element that equals 2, not the others. *)
Lemma parameter_filter_value_under_any_name_witness :
  In "not_level" ["symbol"; "level"; "not_level"; "parameter_filter"]
  /\ Collector.result_set
       (Collector.__init__ (H := Demo.host)
          [("not_level",
            VParameterFilter
              [Rule "CreateEqualsRule" (VElementId 7) [VInt 2]] false)])
     = Ok [Demo.wall_2].
Proof.
  split; [simpl; tauto|].
  rewrite (@parameter_filter_value_under_any_name Demo.host "not_level"
             [Rule "CreateEqualsRule" (VElementId 7) [VInt 2]] false)
    by (simpl; tauto).
  reflexivity.
Defined.

(** ** ParameterFilter: rejected names and the shape of what is built *)

Section ParameterFilterShape.

Context {H : Host}.

Lemma check_conditions_first (pre post : list string) (k : string) :
  (forall k', In k' pre -> Dict.contains k' ParameterFilter.RULES = true) ->
  Dict.contains k ParameterFilter.RULES = false ->
  ParameterFilter.check_conditions (pre ++ k :: post)
  = Raise (RPW_Exception "Rule not valid: {}" [VStr k]).
Proof.
  intros Hpre Hk. induction pre as [|k0 pre IH];
    cbn [app ParameterFilter.check_conditions].
  - now rewrite Hk.
  - rewrite (Hpre k0) by (simpl; auto). cbn [negb].
    apply IH. intros k' Hk'. apply Hpre. simpl. auto.
Qed.

(** X8: a condition name outside [RULES] is rejected with [RPW_Exception]
    "Rule not valid", naming the first such name in the dictionary's order,
    whatever stands behind it and whatever the host would make of the
    other conditions. *)
Theorem parameter_filter_names_first_unknown_condition
        (parameter_id : Value) (pre post : dict) (k : string) (v : Value) :
  (forall k', In k' (Dict.keys pre) ->
              Dict.contains k' ParameterFilter.RULES = true) ->
  Dict.contains k ParameterFilter.RULES = false ->
  ParameterFilter.__init__ parameter_id (pre ++ (k, v) :: post)
  = Raise (RPW_Exception "Rule not valid: {}" [VStr k]).
Proof.
  intros Hpre Hk. unfold ParameterFilter.__init__.
  rewrite keys_app. cbn [Dict.keys map fst].
  change (map fst post) with (Dict.keys post).
  now rewrite (check_conditions_first _ _ _ Hpre Hk).
Qed.

Lemma check_conditions_ok (ks : list string) :
  ParameterFilter.check_conditions ks = Ok tt ->
  forall k, In k ks -> Dict.contains k ParameterFilter.RULES = true.
Proof.
  induction ks as [|k0 ks IH]; intros Hok k Hin; [destruct Hin|].
  cbn [ParameterFilter.check_conditions] in Hok.
  destruct (Dict.contains k0 ParameterFilter.RULES) eqn:E0; cbn [negb] in Hok;
    [|discriminate].
  destruct Hin as [<-|Hin]; auto.
Qed.

Lemma option_absent (conditions : dict) (k : string) (default : Value) :
  (forall k', In k' (Dict.keys conditions) ->
              Dict.contains k' ParameterFilter.RULES = true) ->
  Dict.contains k ParameterFilter.RULES = false ->
  Dict.get_default k conditions default = default.
Proof.
  intros Hall Hk. unfold Dict.get_default.
  destruct (Dict.get k conditions) eqn:Eg; [|reflexivity].
  assert (Hin : Dict.contains k conditions = true)
    by (unfold Dict.contains; now rewrite Eg).
  apply contains_in_keys in Hin. rewrite (Hall k Hin) in Hk. discriminate.
Qed.

Lemma not_prefix_on_rules (name : string) :
  Dict.contains name ParameterFilter.RULES = true ->
  str_contains "not_" name = String.prefix "not_" name.
Proof.
  intros Hc. apply (contains_in_keys _ name ParameterFilter.RULES) in Hc.
  cbn in Hc.
  repeat (destruct Hc as [<-|Hc]; [reflexivity|]). destruct Hc.
Qed.

Lemma build_rule_shape (parameter_id : Value) (name : string)
      (value : Value) (r : FilterRule) :
  ParameterFilter.build_rule parameter_id ParameterFilter.CASE_SENSITIVE
                             ParameterFilter.FLOAT_PRECISION name value
  = Ok r ->
  rule_for parameter_id (name, value) r.
Proof.
  unfold ParameterFilter.build_rule, rule_for. cbn [fst snd].
  destruct (Dict.get name ParameterFilter.RULES) as [factory|] eqn:Ef;
    [|discriminate].
  unfold Ok at 1. cbn [res_bind]. unfold ParameterFilter.call_factory.
  assert (Hnot : str_contains "not_" name = String.prefix "not_" name).
  { apply not_prefix_on_rules. unfold Dict.contains. now rewrite Ef. }
  rewrite Hnot. intros Hr. exists factory. split; [reflexivity|].
  destruct value; cbn [is_str is_float app default_extra_args] in *;
    match type of Hr with
    | context [factory_accepts ?f ?p ?a] =>
        destruct (factory_accepts f p a); [|discriminate]
    end;
    cbn in Hr; now injection Hr as <-.
Qed.

Lemma build_rules_shape (parameter_id : Value) (items : dict) :
  forall acc rules,
    ParameterFilter.build_rules parameter_id ParameterFilter.CASE_SENSITIVE
                                ParameterFilter.FLOAT_PRECISION items acc
    = Ok rules ->
    exists new, rules = acc ++ new
                /\ Forall2 (rule_for parameter_id) items new.
Proof.
  induction items as [|[name value] items IH]; intros acc rules Hb.
  - injection Hb as <-. exists []. now rewrite app_nil_r.
  - cbn [ParameterFilter.build_rules] in Hb.
    destruct (ParameterFilter.build_rule parameter_id
                ParameterFilter.CASE_SENSITIVE ParameterFilter.FLOAT_PRECISION
                name value) as [e|r] eqn:Hr; [discriminate|].
    cbn [res_bind] in Hb. destruct (IH _ _ Hb) as (new & -> & Hall).
    exists (r :: new). split; [now rewrite <- app_assoc|].
    constructor; [now apply build_rule_shape|assumption].
Qed.

(** X9: what a [ParameterFilter] holds once it is built.  There was at
    least one condition, every name was a rule name, and the filter holds
    one rule per condition, in the dictionary's order: the rule of the
    factory method the name is bound to, on the value followed by [True]
    (case sensitive) after a string and by the default precision after a
    float, inside [FilterInverseRule] exactly for the [not_] names.  The
    filter itself is never inverted. *)
Theorem parameter_filter_built_shape (parameter_id : Value)
        (conditions : dict) (pf : Value) :
  ParameterFilter.__init__ parameter_id conditions = Ok pf ->
  conditions <> []
  /\ (forall k, In k (Dict.keys conditions) ->
                Dict.contains k ParameterFilter.RULES = true)
  /\ exists rules,
      pf = VParameterFilter rules false
      /\ Forall2 (rule_for parameter_id) conditions rules.
Proof.
  unfold ParameterFilter.__init__. intros Hinit.
  destruct (ParameterFilter.check_conditions (Dict.keys conditions))
    as [e|[]] eqn:Hcheck; [discriminate|]. cbn [res_bind] in Hinit.
  pose proof (check_conditions_ok _ Hcheck) as Hall.
  rewrite !(option_absent conditions _ _ Hall) in Hinit by reflexivity.
  destruct (ParameterFilter.build_rules parameter_id
              ParameterFilter.CASE_SENSITIVE ParameterFilter.FLOAT_PRECISION
              (Dict.iteritems conditions) []) as [e|rules] eqn:Hb;
    [discriminate|]. cbn [res_bind] in Hinit.
  destruct (build_rules_shape _ _ _ _ Hb) as (new & -> & Hrules).
  cbn [app] in *. unfold Dict.iteritems in Hrules.
  destruct new as [|r new]; [discriminate|].
  cbn in Hinit. injection Hinit as <-.
  split; [|split; [exact Hall|]].
  - intros ->. inversion Hrules.
  - exists (r :: new). auto.
Qed.

End ParameterFilterShape.

(** [ParameterFilter(pid, equals=2, bogus=1, reverse=True)] on the demo
    host: the first unknown name is named. *)
Lemma parameter_filter_names_first_unknown_condition_witness :
  Dict.contains "bogus" ParameterFilter.RULES = false
  /\ ParameterFilter.__init__ (H := Demo.host) (VElementId 7)
       ([("equals", VInt 2)] ++ ("bogus", VInt 1) :: [("reverse", VBool true)])
     = Raise (RPW_Exception "Rule not valid: {}" [VStr "bogus"]).
Proof.
  split; [reflexivity|].
  apply (@parameter_filter_names_first_unknown_condition Demo.host
           (VElementId 7) [("equals", VInt 2)] [("reverse", VBool true)]
           "bogus" (VInt 1)).
  - cbn. intros k' [<-|[]]. reflexivity.
  - reflexivity.
Defined.

(** [ParameterFilter(pid, not_equals='a', greater=1.5)] on the demo host. *)
Lemma parameter_filter_built_shape_witness :
  ParameterFilter.__init__ (H := Demo.host) (VElementId 7)
    [("not_equals", VStr "a"); ("greater", VFloat 1.5)]
  = Ok (VParameterFilter
          [FilterInverseRule
             (Rule "CreateEqualsRule" (VElementId 7) [VStr "a"; VBool true]);
           Rule "CreateGreaterRule" (VElementId 7)
                [VFloat 1.5; ParameterFilter.FLOAT_PRECISION]] false)
  /\ exists rules,
      VParameterFilter
        [FilterInverseRule
           (Rule "CreateEqualsRule" (VElementId 7) [VStr "a"; VBool true]);
         Rule "CreateGreaterRule" (VElementId 7)
              [VFloat 1.5; ParameterFilter.FLOAT_PRECISION]] false
      = VParameterFilter rules false
      /\ Forall2 (rule_for (VElementId 7))
                 [("not_equals", VStr "a"); ("greater", VFloat 1.5)] rules.
Proof.
  split; [reflexivity|].
  apply (@parameter_filter_built_shape Demo.host (VElementId 7)
           [("not_equals", VStr "a"); ("greater", VFloat 1.5)]).
  reflexivity.
Defined.

(** ** The constructor: rejected names and the scope it binds *)

Section ConstructorFacts.

Context {H : Host}.

Lemma check_filters_ok (ks : list string) :
  Collector.check_filters ks = Ok tt ->
  forall k, In k ks -> Dict.contains k _Filter.MAP = true.
Proof.
  induction ks as [|k0 ks IH]; intros Hok k Hin; [destruct Hin|].
  cbn [Collector.check_filters] in Hok.
  destruct (Dict.contains k0 _Filter.MAP) eqn:E0; cbn [negb] in Hok;
    [|discriminate].
  destruct Hin as [<-|Hin]; auto.
Qed.

(** X10: the constructor rejects a keyword that is neither the scope it
    picked nor a supported filter name with [RPW_Exception]
    "Collector Filter not valid", naming the first such keyword in the
    dictionary's order; no Collector is built. *)
Theorem constructor_names_first_unsupported_keyword
        (kw : dict) (doc : Value) (fec : FilteredElementCollector)
        (pre post : dict) (k : string) (v : Value) :
  Collector.pick_scope kw = Ok (doc, fec, pre ++ (k, v) :: post) ->
  (forall k', In k' (Dict.keys pre) -> Dict.contains k' _Filter.MAP = true) ->
  Dict.contains k _Filter.MAP = false ->
  Collector.__init__ kw
  = Raise (RPW_Exception "Collector Filter not valid: {}" [VStr k]).
Proof.
  intros Hpick Hpre Hk. unfold Collector.__init__. rewrite Hpick.
  unfold Ok. cbn [res_bind].
  rewrite keys_app, check_filters_app.
  rewrite (check_filters_accepts _ Hpre). unfold Ok. cbn [res_bind].
  cbn [Dict.keys map fst Collector.check_filters]. now rewrite Hk.
Qed.

Lemma new_collector_unnarrowed (doc : Value) (scope : Scope)
      (fec : FilteredElementCollector) :
  new_FilteredElementCollector doc scope = Ok fec -> fec_applied fec = [].
Proof.
  unfold new_FilteredElementCollector.
  destruct doc; intros Heq; try discriminate. now injection Heq as <-.
Qed.

Lemma new_collector_in_view_unnarrowed (doc view_id : Value)
      (fec : FilteredElementCollector) :
  Collector.new_collector_in_view doc view_id = Ok fec ->
  fec_applied fec = [].
Proof.
  unfold Collector.new_collector_in_view.
  destruct view_id; try discriminate. apply new_collector_unnarrowed.
Qed.

Lemma new_collector_among_unnarrowed (doc ids : Value)
      (fec : FilteredElementCollector) :
  Collector.new_collector_among doc ids = Ok fec -> fec_applied fec = [].
Proof.
  unfold Collector.new_collector_among.
  destruct (List_ElementId ids); [discriminate|]. cbn [res_bind].
  apply new_collector_unnarrowed.
Qed.

Lemma bind_scope_unnarrowed (doc view els ids : option Value) (d : Value)
      (fec : FilteredElementCollector) :
  bind_scope doc view els ids = Ok (d, fec) ->
  d = match doc with Some v => v | None => VDocument revit_doc end
  /\ fec_applied fec = [].
Proof.
  unfold bind_scope.
  set (collector_doc := match doc with
                        | Some v => v
                        | None => VDocument revit_doc
                        end).
  clearbody collector_doc.
  destruct view as [view|];
    [|destruct els as [els|]; [|destruct ids as [ids|]]].
  - destruct (if isinstance view "ElementId" then Ok view else get_Id view)
      as [e|view_id]; [discriminate|]. cbn [res_bind].
    destruct (Collector.new_collector_in_view collector_doc view_id)
      as [e|f] eqn:Hf; [discriminate|]. cbn [res_bind].
    intros [= <- <-]. eauto using new_collector_in_view_unnarrowed.
  - destruct (to_element_ids els) as [e|els']; [discriminate|].
    cbn [res_bind].
    destruct (Collector.new_collector_among collector_doc els')
      as [e|f] eqn:Hf; [discriminate|]. cbn [res_bind].
    intros [= <- <-]. eauto using new_collector_among_unnarrowed.
  - destruct (Collector.new_collector_among collector_doc ids)
      as [e|f] eqn:Hf; [discriminate|]. cbn [res_bind].
    intros [= <- <-]. eauto using new_collector_among_unnarrowed.
  - destruct (new_FilteredElementCollector collector_doc WholeDocument)
      as [e|f] eqn:Hf; [discriminate|]. cbn [res_bind].
    intros [= <- <-]. eauto using new_collector_unnarrowed.
Qed.

Lemma leftover_rejected (kw : dict) (k : string) :
  Dict.contains k (after_scope kw) = true ->
  Dict.contains k _Filter.MAP = false ->
  Collector.check_filters (Dict.keys (after_scope kw)) <> Ok tt.
Proof.
  intros Hleft Hk Hok. apply contains_in_keys in Hleft.
  rewrite (check_filters_ok _ Hok k Hleft) in Hk. discriminate.
Qed.

Lemma keys_update_present (d s : dict) :
  (forall k, In k (Dict.keys s) -> Dict.contains k d = true) ->
  Dict.keys (Dict.update d s) = Dict.keys d.
Proof.
  unfold Dict.update, Dict.iteritems. revert d.
  induction s as [|[k v] s IH]; intros d Hall; [reflexivity|].
  cbn [fold_left fst snd].
  rewrite IH.
  - apply keys_set_present. apply Hall. cbn. auto.
  - intros k' Hk'. apply contains_set. apply Hall. cbn. auto.
Qed.

(** X11: what a constructed Collector is bound to.  The document and the
    scope of its host collector are those that the four scope arguments
    bind by precedence; at most one of [view], [elements] and [element_ids]
    was supplied; and the names it stores are the keywords that are left,
    all of them supported filter names. *)
Theorem constructed_collector_scope (kw : dict) (c : CollectorObj) :
  Collector.__init__ kw = Ok c ->
  bind_scope (Dict.get "doc" kw) (Dict.get "view" kw)
             (Dict.get "elements" kw) (Dict.get "element_ids" kw)
  = Ok (_collector_doc c,
        mkFEC (fec_doc (_revit_object c)) (fec_scope (_revit_object c)) [])
  /\ (Dict.contains "view" kw = true ->
      Dict.contains "elements" kw = false
      /\ Dict.contains "element_ids" kw = false)
  /\ (Dict.contains "elements" kw = true ->
      Dict.contains "element_ids" kw = false)
  /\ Dict.keys (_filters c) = Dict.keys (after_scope kw)
  /\ forall k, In k (Dict.keys (_filters c)) ->
               Dict.contains k _Filter.MAP = true.
Proof.
  intros Hinit. rewrite init_spec, pick_scope_spec in Hinit.
  destruct (bind_scope (Dict.get "doc" kw) (Dict.get "view" kw)
                       (Dict.get "elements" kw) (Dict.get "element_ids" kw))
    as [e|[d fec]] eqn:Hbind; [discriminate|].
  destruct (bind_scope_unnarrowed _ _ _ _ _ _ Hbind) as [_ Hfresh].
  unfold Ok in Hinit. cbn [res_bind fst snd] in Hinit.
  destruct (Collector.check_filters (Dict.keys (after_scope kw)))
    as [e|[]] eqn:Hcheck; [discriminate|]. cbn [res_bind] in Hinit.
  pose proof (check_filters_ok _ Hcheck) as Hvalid.
  assert (Hscope : (Dict.contains "view" kw = true ->
                    Dict.contains "elements" kw = false
                    /\ Dict.contains "element_ids" kw = false)
                   /\ (Dict.contains "elements" kw = true ->
                       Dict.contains "element_ids" kw = false)).
  { assert (Hrem : forall k, k <> "doc" ->
               Dict.contains k (Dict.remove "doc" kw) = Dict.contains k kw)
      by (intros; now apply contains_remove_other).
    split.
    - intros Hview.
      assert (Hrest : after_scope kw
                      = Dict.remove "view" (Dict.remove "doc" kw)).
      { unfold after_scope. now rewrite Hrem, Hview by discriminate. }
      split.
      + destruct (Dict.contains "elements" kw) eqn:E; [|reflexivity].
        exfalso. apply (leftover_rejected kw "elements"); auto.
        rewrite Hrest, contains_remove_other, Hrem; auto; discriminate.
      + destruct (Dict.contains "element_ids" kw) eqn:E; [|reflexivity].
        exfalso. apply (leftover_rejected kw "element_ids"); auto.
        rewrite Hrest, contains_remove_other, Hrem; auto; discriminate.
    - intros Hels.
      destruct (Dict.contains "element_ids" kw) eqn:E; [|reflexivity].
      exfalso.
      destruct (Dict.contains "view" kw) eqn:Hview.
      + apply (leftover_rejected kw "elements"); auto.
        unfold after_scope. rewrite Hrem, Hview by discriminate.
        rewrite contains_remove_other, Hrem; auto; discriminate.
      + apply (leftover_rejected kw "element_ids"); auto.
        unfold after_scope. rewrite !Hrem, Hview, Hels by discriminate.
        rewrite contains_remove_other, Hrem; auto; discriminate. }
  destruct Hscope as [Hview Hels].
  destruct (Dict.nonempty (after_scope kw)).
  - destruct (_Filter._coerce_filter_values (after_scope kw))
      as [e|co] eqn:Hco; [discriminate|]. cbn [res_bind] in Hinit.
    destruct (chain_ops d (Dict.update (after_scope kw) co)) as [e|ops]
      eqn:Hops; [discriminate|]. cbn [res_bind] in Hinit.
    injection Hinit as <-.
    cbn [_collector_doc _revit_object _filters].
    assert (Hkeys : Dict.keys (Dict.update (after_scope kw) co)
                    = Dict.keys (after_scope kw)).
    { apply keys_update_present. intros k Hk. apply contains_in_keys.
      now rewrite <- (coerce_keys _ _ Hco). }
    split; [|split; [exact Hview|split; [exact Hels|split]]].
    + unfold narrowed. cbn [fec_doc fec_scope]. rewrite <- Hfresh.
      now destruct fec.
    + exact Hkeys.
    + intros k Hk. rewrite Hkeys in Hk. auto.
  - injection Hinit as <-. cbn [_collector_doc _revit_object _filters].
    split; [|split; [exact Hview|split; [exact Hels|split]]]; auto.
    rewrite <- Hfresh. now destruct fec.
Qed.

End ConstructorFacts.

(** [Collector(view=v, of_class='Wall', colour='red', size=3)] on the demo
    host. *)
Lemma constructor_names_first_unsupported_keyword_witness :
  Collector.pick_scope (H := Demo.host)
    [("view", VElementId 5); ("of_class", VStr "Wall");
     ("colour", VStr "red"); ("size", VInt 3)]
  = Ok (VDocument 0, mkFEC 0 (InView 5) [],
        [("of_class", VStr "Wall")] ++ ("colour", VStr "red")
           :: [("size", VInt 3)])
  /\ Collector.__init__ (H := Demo.host)
       [("view", VElementId 5); ("of_class", VStr "Wall");
        ("colour", VStr "red"); ("size", VInt 3)]
     = Raise (RPW_Exception "Collector Filter not valid: {}" [VStr "colour"]).
Proof.
  split; [reflexivity|].
  apply (@constructor_names_first_unsupported_keyword Demo.host
           [("view", VElementId 5); ("of_class", VStr "Wall");
            ("colour", VStr "red"); ("size", VInt 3)]
           (VDocument 0) (mkFEC 0 (InView 5) [])
           [("of_class", VStr "Wall")] [("size", VInt 3)]
           "colour" (VStr "red")).
  - reflexivity.
  - cbn. intros k' [<-|[]]. reflexivity.
  - reflexivity.
Defined.

(** [Collector(doc=d, view=v, of_class='Wall')] on the demo host. *)
Lemma constructed_collector_scope_witness :
  Collector.__init__ (H := Demo.host)
    [("doc", VDocument 3); ("view", VElementId 5); ("of_class", VStr "Wall")]
  = Ok (mkCollector (H := Demo.host)
          (mkFEC 3 (InView 5) [OfClass "Wall"]) (VDocument 3)
          [Demo.wall_1] [("of_class", VType "Wall")])
  /\ bind_scope (H := Demo.host)
       (Some (VDocument 3)) (Some (VElementId 5)) None None
     = Ok (VDocument 3, mkFEC 3 (InView 5) []).
Proof.
  split; [reflexivity|].
  apply (@constructed_collector_scope Demo.host
           [("doc", VDocument 3); ("view", VElementId 5);
            ("of_class", VStr "Wall")]
           (mkCollector (H := Demo.host)
              (mkFEC 3 (InView 5) [OfClass "Wall"]) (VDocument 3)
              [Demo.wall_1] [("of_class", VType "Wall")])).
  reflexivity.
Defined.

(** ** Name resolution *)

Section CoerceFacts.

Context {H : Host}.

Lemma coerce_one_key (resolve : string -> Res Value) (key : string)
      (d co : dict) :
  match Dict.get key d with
  | Some (VStr (String a s)) =>
      (try v <- resolve (String a s); Ok (Dict.set key v d))%res
  | _ => Ok d
  end = Ok co ->
  Dict.keys co = Dict.keys d
  /\ (forall k, k <> key -> Dict.get k co = Dict.get k d)
  /\ resolved resolve (Dict.get key d) (Dict.get key co).
Proof.
  unfold resolved.
  destruct (Dict.get key d) as [[| | | | [|a s] | | | | | | | |]|] eqn:Eg;
    try (intros [= <-]; rewrite ?Eg; auto).
  destruct (resolve (String a s)) as [e|v]; [discriminate|].
  cbn [res_bind]. intros [= <-]. split; [|split].
  - apply keys_set_present. unfold Dict.contains. now rewrite Eg.
  - intros k Hk. now apply get_set_other.
  - exists v. split; [reflexivity|apply get_set_same].
Qed.

(** X12: name resolution touches two values and nothing else.  When
    [_coerce_filter_values] returns, the keys are the same in the same
    order, every value under another name than [of_category] and [of_class]
    is untouched, and under these two names a non-empty string has been
    replaced by what [BicEnum.get], respectively [getattr(DB, name)],
    returns for it, while any other value is untouched. *)
Theorem coerce_resolves_the_two_names (d co : dict) :
  _Filter._coerce_filter_values d = Ok co ->
  Dict.keys co = Dict.keys d
  /\ (forall k, k <> "of_category" -> k <> "of_class" ->
                Dict.get k co = Dict.get k d)
  /\ resolved BicEnum_get (Dict.get "of_category" d)
              (Dict.get "of_category" co)
  /\ resolved DB_getattr (Dict.get "of_class" d) (Dict.get "of_class" co).
Proof.
  unfold _Filter._coerce_filter_values. intros Hco.
  destruct (match Dict.get "of_category" d with
            | Some (VStr (String a s)) =>
                (try v <- BicEnum_get (String a s);
                 Ok (Dict.set "of_category" v d))%res
            | _ => Ok d
            end) as [e|mid] eqn:Hmid; [discriminate|].
  cbn [res_bind] in Hco.
  destruct (coerce_one_key BicEnum_get "of_category" d mid Hmid)
    as (Hk1 & Ho1 & Hr1).
  destruct (coerce_one_key DB_getattr "of_class" mid co Hco)
    as (Hk2 & Ho2 & Hr2).
  split; [congruence|]. split; [|split].
  - intros k Hcat Hcls. now rewrite Ho2, Ho1.
  - rewrite Ho2 by discriminate. exact Hr1.
  - rewrite <- (Ho1 "of_class") by discriminate. exact Hr2.
Qed.

(** X13: when name resolution fails inside a call of [filter], the call
    raises the resolver's own exception and the Collector is as it was:
    nothing was stored, applied or cached. *)
Theorem failed_resolution_leaves_collector (kw : dict) (c : CollectorObj)
        (e : exn) :
  _Filter._coerce_filter_values kw = Raise e ->
  Collector.filter kw c = (Raise e, c)
  /\ ((exists s, Dict.get "of_category" kw = Some (VStr s)
                 /\ BicEnum_get s = Raise e)
      \/ (exists s, Dict.get "of_class" kw = Some (VStr s)
                    /\ DB_getattr s = Raise e)).
Proof.
  intros Hco. split; [now apply call_coerce_fails|].
  unfold _Filter._coerce_filter_values in Hco.
  destruct (Dict.get "of_category" kw)
    as [[| | | | [|a s] | | | | | | | |]|] eqn:Ecat;
    try (cbn [res_bind] in Hco; unfold Ok in Hco; cbn [res_bind] in Hco;
         right;
         destruct (Dict.get "of_class" kw)
           as [[| | | | [|a' s'] | | | | | | | |]|] eqn:Ecls;
         try discriminate;
         destruct (DB_getattr (String a' s')) as [e'|v'] eqn:Er;
         [|discriminate]; injection Hco as <-; eauto).
  destruct (BicEnum_get (String a s)) as [e'|v] eqn:Er; cbn [res_bind] in Hco.
  - injection Hco as <-. left. eauto.
  - right. unfold Ok in Hco. cbn [res_bind] in Hco.
    rewrite (get_set_other _ "of_class" "of_category") in Hco
      by discriminate.
    destruct (Dict.get "of_class" kw)
      as [[| | | | [|a' s'] | | | | | | | |]|] eqn:Ecls;
      try discriminate.
    destruct (DB_getattr (String a' s')) as [e'|v'] eqn:Er';
      [|discriminate]. injection Hco as <-. eauto.
Qed.

End CoerceFacts.

(** [of_category='OST_Walls'], [of_class] already a class, [is_type=True]
    on the demo host. *)
Lemma coerce_resolves_the_two_names_witness :
  _Filter._coerce_filter_values (H := Demo.host)
    [("of_category", VStr "OST_Walls"); ("of_class", VType "Wall");
     ("is_type", VBool true)]
  = Ok [("of_category", VCategory 2000011); ("of_class", VType "Wall");
        ("is_type", VBool true)]
  /\ resolved (BicEnum_get (Host := Demo.host))
              (Some (VStr "OST_Walls")) (Some (VCategory 2000011)).
Proof.
  split; [reflexivity|].
  apply (@coerce_resolves_the_two_names Demo.host
           [("of_category", VStr "OST_Walls"); ("of_class", VType "Wall");
            ("is_type", VBool true)]
           [("of_category", VCategory 2000011); ("of_class", VType "Wall");
            ("is_type", VBool true)]).
  reflexivity.
Defined.

(** [filter(is_type=True, of_category='OST_Nothing')] on the demo Collector
    of walls. *)
Lemma failed_resolution_leaves_collector_witness :
  _Filter._coerce_filter_values (H := Demo.host)
    [("is_type", VBool true); ("of_category", VStr "OST_Nothing")]
  = Raise (LookupError "OST_Nothing")
  /\ Collector.filter
       [("is_type", VBool true); ("of_category", VStr "OST_Nothing")]
       Demo.walls
     = (Raise (LookupError "OST_Nothing"), Demo.walls).
Proof.
  split; [reflexivity|].
  apply (@failed_resolution_leaves_collector Demo.host
           [("is_type", VBool true); ("of_category", VStr "OST_Nothing")]
           Demo.walls (LookupError "OST_Nothing")).
  reflexivity.
Defined.

(** ** Symbol and level filters *)

Section SubFilterFacts.

Context {H : Host}.

Lemma result_of_single_filter (name : string) (value : Value)
      (op : NarrowOp) :
  In name (Dict.keys _Filter.MAP) ->
  name <> "of_category" -> name <> "of_class" ->
  narrowing (VDocument revit_doc) name value = Ok [op] ->
  Collector.result_set (Collector.__init__ [(name, value)])
  = Ok (List.filter (op_passes op) (scope_elements revit_doc WholeDocument)).
Proof.
  intros Hin Hcat Hcls Hnarrow.
  rewrite init_single_filter by assumption. rewrite Hnarrow.
  cbn [res_bind]. unfold Collector.result_set, res_map, Ok.
  cbn [res_bind elements]. f_equal. unfold enumerate.
  cbn [fec_applied fec_doc fec_scope].
  apply filter_ext. intros e. cbn. now rewrite andb_true_r.
Qed.

(** X14: a symbol may be given by its id or by reference.
    [Collector(symbol=...)] on the id and on a [FamilySymbol] with that id
    cache the same elements: the instances of that symbol in the document. *)
Theorem symbol_by_id_or_by_reference (id : Z) :
  Collector.result_set (Collector.__init__ [("symbol", VElementId id)])
  = Ok (List.filter (instance_of_symbol revit_doc id)
                    (scope_elements revit_doc WholeDocument))
  /\ Collector.result_set
       (Collector.__init__ [("symbol", VElement "FamilySymbol" id)])
     = Ok (List.filter (instance_of_symbol revit_doc id)
                       (scope_elements revit_doc WholeDocument)).
Proof.
  split;
    apply (result_of_single_filter "symbol" _
             (WherePasses (FamilyInstanceFilter revit_doc id)));
    try reflexivity; try discriminate; cbn; tauto.
Qed.

(** X15: [level] and [not_level] split the document.  For a level given by
    its id or by reference, [Collector(level=...)] caches the elements on
    that level and [Collector(not_level=...)] caches exactly the others,
    both in the store's order. *)
Theorem level_and_not_level_split (id : Z) (level : Value) :
  level = VElementId id \/ level = VElement "Level" id ->
  Collector.result_set (Collector.__init__ [("level", level)])
  = Ok (List.filter (on_level id)
                    (scope_elements revit_doc WholeDocument))
  /\ Collector.result_set (Collector.__init__ [("not_level", level)])
     = Ok (List.filter (fun e => negb (on_level id e))
                       (scope_elements revit_doc WholeDocument)).
Proof.
  intros Hlevel. split.
  - rewrite (result_of_single_filter "level" level
               (WherePasses (ElementLevelFilter id false))).
    + reflexivity.
    + cbn. tauto.
    + discriminate.
    + discriminate.
    + destruct Hlevel as [->| ->]; reflexivity.
  - rewrite (result_of_single_filter "not_level" level
               (WherePasses (ElementLevelFilter id true))).
    + reflexivity.
    + cbn. tauto.
    + discriminate.
    + discriminate.
    + destruct Hlevel as [->| ->]; reflexivity.
Qed.

End SubFilterFacts.

(** [Collector(level=Level 10)] and [Collector(not_level=Level 10)] on the
    demo host. *)
Lemma level_and_not_level_split_witness :
  Collector.result_set
    (Collector.__init__ (H := Demo.host) [("level", VElement "Level" 10)])
  = Ok [Demo.wall_1; Demo.wall_2]
  /\ Collector.result_set
       (Collector.__init__ (H := Demo.host)
          [("not_level", VElement "Level" 10)])
     = Ok [Demo.wall_type; Demo.door].
Proof.
  destruct (@level_and_not_level_split Demo.host 10 (VElement "Level" 10)
              (or_intror eq_refl)) as [Hon Hoff].
  rewrite Hon, Hoff. split; reflexivity.
Defined.

(** ** The order of the keyword dictionary *)

Section OrderFacts.

Context {H : Host}.

Lemma get_in (d : dict) (k : string) (v : Value) :
  Dict.get k d = Some v -> In (k, v) d.
Proof.
  induction d as [|[k1 v1] d IH]; cbn [Dict.get]; [discriminate|].
  destruct (String.eqb k k1) eqn:E.
  - apply String.eqb_eq in E. intros [= ->]. subst. now left.
  - intros Hg. right. auto.
Qed.

Lemma in_get (d : dict) (k : string) (v : Value) :
  NoDup (Dict.keys d) -> In (k, v) d -> Dict.get k d = Some v.
Proof.
  unfold Dict.keys.
  induction d as [|[k1 v1] d IH]; cbn [Dict.get map fst]; intros Hnd Hin;
    [destruct Hin|].
  inversion Hnd as [|? ? Hnotin Hnd']. subst.
  destruct Hin as [[= -> ->]|Hin].
  - now rewrite String.eqb_refl.
  - destruct (String.eqb k k1) eqn:E; [|auto].
    apply String.eqb_eq in E. subst k1. exfalso. apply Hnotin.
    apply (in_map fst) in Hin. exact Hin.
Qed.

Lemma get_perm (d1 d2 : dict) (k : string) :
  NoDup (Dict.keys d1) -> Permutation d1 d2 ->
  Dict.get k d1 = Dict.get k d2.
Proof.
  intros Hnd Hperm.
  assert (Hnd2 : NoDup (Dict.keys d2)).
  { revert Hnd. apply Permutation_NoDup. now apply Permutation_map. }
  destruct (Dict.get k d1) as [v|] eqn:E1.
  - symmetry. apply in_get; [assumption|].
    eapply Permutation_in; [eassumption|]. now apply get_in.
  - destruct (Dict.get k d2) as [v|] eqn:E2; [|reflexivity].
    apply get_in in E2. apply Permutation_sym in Hperm.
    apply (Permutation_in _ Hperm) in E2.
    apply in_get in E2; [congruence|assumption].
Qed.

Lemma filter_other_keys (d : dict) (k : string) :
  ~ In k (Dict.keys d) ->
  List.filter (fun kv => negb (String.eqb k (fst kv))) d = d.
Proof.
  unfold Dict.keys.
  induction d as [|[k2 v2] d IH]; cbn [List.filter fst map]; intros Hk;
    [reflexivity|].
  assert (E2 : String.eqb k k2 = false).
  { apply String.eqb_neq. intros ->. apply Hk. now left. }
  rewrite E2. cbn [negb]. f_equal. apply IH.
  intros Hin. apply Hk. now right.
Qed.

Lemma remove_as_filter (d : dict) (k : string) :
  NoDup (Dict.keys d) ->
  Dict.remove k d = List.filter (fun kv => negb (String.eqb k (fst kv))) d.
Proof.
  unfold Dict.keys.
  induction d as [|[k1 v1] d IH]; cbn [Dict.remove List.filter map fst];
    intros Hnd; [reflexivity|].
  inversion Hnd as [|? ? Hnotin Hnd']. subst.
  destruct (String.eqb k k1) eqn:E; cbn [negb].
  - apply String.eqb_eq in E. subst k1.
    symmetry. now apply filter_other_keys.
  - now rewrite IH.
Qed.

Lemma filter_perm (A : Type) (f : A -> bool) (l1 l2 : list A) :
  Permutation l1 l2 -> Permutation (List.filter f l1) (List.filter f l2).
Proof.
  induction 1 as [|x l l' _ IH|x y l|l l' l'' _ IH1 _ IH2];
    cbn [List.filter].
  - constructor.
  - destruct (f x); [now constructor|assumption].
  - destruct (f x), (f y); try reflexivity. apply perm_swap.
  - now transitivity (List.filter f l').
Qed.

Lemma remove_perm (d1 d2 : dict) (k : string) :
  NoDup (Dict.keys d1) -> Permutation d1 d2 ->
  Permutation (Dict.remove k d1) (Dict.remove k d2).
Proof.
  intros Hnd Hperm.
  assert (Hnd2 : NoDup (Dict.keys d2)).
  { revert Hnd. apply Permutation_NoDup. now apply Permutation_map. }
  rewrite !remove_as_filter by assumption. now apply filter_perm.
Qed.

Lemma map_other_keys (d : dict) (k : string) (v : Value) :
  ~ In k (Dict.keys d) ->
  map (fun kv => if String.eqb k (fst kv) then (k, v) else kv) d = d.
Proof.
  unfold Dict.keys.
  induction d as [|[k2 v2] d IH]; cbn [fst map]; intros Hk; [reflexivity|].
  assert (E2 : String.eqb k k2 = false).
  { apply String.eqb_neq. intros ->. apply Hk. now left. }
  rewrite E2. f_equal. apply IH.
  intros Hin. apply Hk. now right.
Qed.

Lemma set_as_map (d : dict) (k : string) (v : Value) :
  NoDup (Dict.keys d) -> Dict.contains k d = true ->
  Dict.set k v d
  = map (fun kv => if String.eqb k (fst kv) then (k, v) else kv) d.
Proof.
  unfold Dict.keys, Dict.contains.
  induction d as [|[k1 v1] d IH]; cbn [Dict.set Dict.get map fst];
    intros Hnd Hc; [discriminate|].
  inversion Hnd as [|? ? Hnotin Hnd']. subst.
  destruct (String.eqb k k1) eqn:E.
  - apply String.eqb_eq in E. subst k1. f_equal.
    symmetry. now apply map_other_keys.
  - f_equal. now apply IH.
Qed.

Lemma set_perm (d1 d2 : dict) (k : string) (v : Value) :
  NoDup (Dict.keys d1) -> Dict.contains k d1 = true ->
  Permutation d1 d2 ->
  Permutation (Dict.set k v d1) (Dict.set k v d2).
Proof.
  intros Hnd Hc Hperm.
  assert (Hnd2 : NoDup (Dict.keys d2)).
  { revert Hnd. apply Permutation_NoDup. now apply Permutation_map. }
  assert (Hc2 : Dict.contains k d2 = true).
  { unfold Dict.contains in *. now rewrite <- (get_perm d1 d2 k). }
  rewrite !set_as_map by assumption. now apply Permutation_map.
Qed.

Lemma NoDup_keys_perm (d1 d2 : dict) :
  NoDup (Dict.keys d1) -> Permutation d1 d2 -> NoDup (Dict.keys d2).
Proof.
  intros Hnd Hperm. revert Hnd. apply Permutation_NoDup.
  now apply Permutation_map.
Qed.

Lemma after_scope_perm (d1 d2 : dict) :
  NoDup (Dict.keys d1) -> Permutation d1 d2 ->
  Permutation (after_scope d1) (after_scope d2).
Proof.
  intros Hnd Hperm. unfold after_scope, Dict.contains.
  assert (Hnd0 : NoDup (Dict.keys (Dict.remove "doc" d1)))
    by now apply NoDup_keys_remove.
  assert (Hp0 : Permutation (Dict.remove "doc" d1) (Dict.remove "doc" d2))
    by now apply remove_perm.
  rewrite <- !(get_perm _ _ _ Hnd0 Hp0).
  destruct (Dict.get "view" (Dict.remove "doc" d1));
    [now apply remove_perm|].
  destruct (Dict.get "elements" (Dict.remove "doc" d1));
    [now apply remove_perm|].
  destruct (Dict.get "element_ids" (Dict.remove "doc" d1));
    [now apply remove_perm|assumption].
Qed.

Lemma NoDup_after_scope (d : dict) :
  NoDup (Dict.keys d) -> NoDup (Dict.keys (after_scope d)).
Proof.
  intros Hnd. unfold after_scope.
  repeat match goal with
    | |- context [if ?b then _ else _] => destruct b
    end; repeat apply NoDup_keys_remove; assumption.
Qed.

End OrderFacts.

Section OrderIndependence.

Context {H : Host}.

Lemma coerce_one_key_perm (resolve : string -> Res Value) (key : string)
      (d1 d2 co1 : dict) :
  NoDup (Dict.keys d1) -> Permutation d1 d2 ->
  match Dict.get key d1 with
  | Some (VStr (String a s)) =>
      (try v <- resolve (String a s); Ok (Dict.set key v d1))%res
  | _ => Ok d1
  end = Ok co1 ->
  exists co2,
    match Dict.get key d2 with
    | Some (VStr (String a s)) =>
        (try v <- resolve (String a s); Ok (Dict.set key v d2))%res
    | _ => Ok d2
    end = Ok co2
    /\ Permutation co1 co2 /\ NoDup (Dict.keys co1).
Proof.
  intros Hnd Hperm. rewrite <- (get_perm d1 d2 key Hnd Hperm).
  destruct (Dict.get key d1) as [[| | | | [|a s] | | | | | | | |]|] eqn:Eg;
    try (intros [= <-]; exists d2; auto).
  destruct (resolve (String a s)) as [e|v]; [discriminate|].
  cbn [res_bind]. intros [= <-].
  assert (Hc : Dict.contains key d1 = true)
    by (unfold Dict.contains; now rewrite Eg).
  exists (Dict.set key v d2). split; [reflexivity|]. split.
  - now apply set_perm.
  - now rewrite keys_set_present.
Qed.

Lemma res_bind_Ok (A B : Type) (a : A) (k : A -> Res B) :
  res_bind (Ok a) k = k a.
Proof. reflexivity. Qed.

Lemma coerce_perm (d1 d2 co1 : dict) :
  NoDup (Dict.keys d1) -> Permutation d1 d2 ->
  _Filter._coerce_filter_values d1 = Ok co1 ->
  exists co2, _Filter._coerce_filter_values d2 = Ok co2
              /\ Permutation co1 co2.
Proof.
  intros Hnd Hperm. unfold _Filter._coerce_filter_values. intros Hco.
  destruct (match Dict.get "of_category" d1 with
            | Some (VStr (String a s)) =>
                (try v <- BicEnum_get (String a s);
                 Ok (Dict.set "of_category" v d1))%res
            | _ => Ok d1
            end) as [e|mid1] eqn:Hmid; [discriminate|].
  cbn [res_bind] in Hco.
  destruct (coerce_one_key_perm BicEnum_get "of_category" d1 d2 mid1
              Hnd Hperm Hmid) as (mid2 & -> & Hpmid & Hndmid).
  rewrite res_bind_Ok.
  destruct (coerce_one_key_perm DB_getattr "of_class" mid1 mid2 co1
              Hndmid Hpmid Hco) as (co2 & -> & Hpco & _).
  eauto.
Qed.

Lemma chain_ops_each (doc : Value) (filters : dict) (ops : list NarrowOp) :
  chain_ops doc filters = Ok ops ->
  (forall kv, In kv filters ->
              exists here, narrowing doc (fst kv) (snd kv) = Ok here
                           /\ incl here ops)
  /\ (forall op, In op ops ->
                 exists kv here, In kv filters
                                 /\ narrowing doc (fst kv) (snd kv) = Ok here
                                 /\ In op here).
Proof.
  revert ops. induction filters as [|[k v] filters IH]; intros ops Hops.
  - injection Hops as <-. split; [intros kv []|intros op []].
  - cbn [chain_ops] in Hops.
    destruct (narrowing doc k v) as [e|here] eqn:Hhere; [discriminate|].
    cbn [res_bind] in Hops.
    destruct (chain_ops doc filters) as [e|deeper]; [discriminate|].
    cbn [res_bind] in Hops. injection Hops as <-.
    destruct (IH deeper eq_refl) as [Heach Hmem]. split.
    + intros kv [<-|Hin].
      * exists here. split; [assumption|]. now apply incl_appl.
      * destruct (Heach kv Hin) as (h & Hh & Hincl).
        exists h. split; [assumption|].
        apply incl_appr, incl_appl. assumption.
    + intros op Hop. rewrite !in_app_iff in Hop.
      destruct Hop as [Hop|[Hop|Hop]].
      * exists (k, v), here. cbn. auto.
      * destruct (Hmem op Hop) as (kv & h & Hin & Hh & Hoph).
        exists kv, h. cbn. auto.
      * destruct (Hmem op Hop) as (kv & h & Hin & Hh & Hoph).
        exists kv, h. cbn. auto.
Qed.

Lemma chain_ops_returns (doc : Value) (filters : dict) :
  (forall kv, In kv filters ->
              exists here, narrowing doc (fst kv) (snd kv) = Ok here) ->
  exists ops, chain_ops doc filters = Ok ops.
Proof.
  induction filters as [|[k v] filters IH]; intros Hall.
  - now exists [].
  - destruct (Hall (k, v)) as (here & Hhere); [now left|].
    destruct IH as (deeper & Hdeeper).
    { intros kv Hin. apply Hall. now right. }
    cbn [chain_ops fst snd] in *. rewrite Hhere, Hdeeper. cbn. eauto.
Qed.

(** A chain that returns on some filters returns on the same filters in
    any order, with the same operations recorded. *)
Lemma chain_ops_same_filters (doc : Value) (l1 l2 : dict)
      (o1 : list NarrowOp) :
  chain_ops doc l1 = Ok o1 ->
  (forall kv, In kv l1 <-> In kv l2) ->
  exists o2, chain_ops doc l2 = Ok o2
             /\ forall op, In op o1 <-> In op o2.
Proof.
  intros H1 Hsame. destruct (chain_ops_each doc l1 o1 H1) as [Heach1 Hmem1].
  destruct (chain_ops_returns doc l2) as (o2 & H2).
  { intros kv Hin. destruct (Heach1 kv (proj2 (Hsame kv) Hin))
      as (here & Hhere & _). eauto. }
  exists o2. split; [assumption|].
  destruct (chain_ops_each doc l2 o2 H2) as [Heach2 Hmem2].
  intros op. split; intros Hop.
  - destruct (Hmem1 op Hop) as (kv & here & Hin & Hhere & Hoph).
    destruct (Heach2 kv (proj1 (Hsame kv) Hin)) as (here' & Hhere' & Hincl).
    apply Hincl. rewrite Hhere in Hhere'. now injection Hhere' as <-.
  - destruct (Hmem2 op Hop) as (kv & here & Hin & Hhere & Hoph).
    destruct (Heach1 kv (proj2 (Hsame kv) Hin)) as (here' & Hhere' & Hincl).
    apply Hincl. rewrite Hhere in Hhere'. now injection Hhere' as <-.
Qed.

Lemma check_filters_perm (l1 l2 : list string) :
  Permutation l1 l2 ->
  Collector.check_filters l1 = Ok tt -> Collector.check_filters l2 = Ok tt.
Proof.
  intros Hperm Hok. apply check_filters_accepts. intros k Hk.
  apply (check_filters_ok l1 Hok).
  eapply Permutation_in; [apply Permutation_sym; eassumption|assumption].
Qed.

(** X16: the order of the keyword dictionary does not matter to a
    construction that returns.  If [Collector] returns on some keyword
    arguments with distinct names, it returns on the same arguments in every
    other order, with the same elements cached and the same filters
    stored. *)
Theorem construction_ignores_keyword_order (kw1 kw2 : dict)
        (c1 : CollectorObj) :
  NoDup (Dict.keys kw1) -> Permutation kw1 kw2 ->
  Collector.__init__ kw1 = Ok c1 ->
  exists c2, Collector.__init__ kw2 = Ok c2
             /\ elements c2 = elements c1
             /\ Permutation (_filters c1) (_filters c2).
Proof.
  intros Hnd Hperm Hinit. rewrite init_spec, pick_scope_spec in *.
  rewrite <- !(get_perm kw1 kw2 _ Hnd Hperm).
  destruct (bind_scope (Dict.get "doc" kw1) (Dict.get "view" kw1)
                       (Dict.get "elements" kw1)
                       (Dict.get "element_ids" kw1))
    as [e|[doc fec]]; [discriminate|].
  unfold Ok in Hinit |- *. cbn [res_bind fst snd] in Hinit |- *.
  pose proof (after_scope_perm kw1 kw2 Hnd Hperm) as Hrest.
  pose proof (NoDup_after_scope kw1 Hnd) as Hnd1.
  pose proof (NoDup_keys_perm _ _ Hnd1 Hrest) as Hnd2.
  revert Hinit Hrest Hnd1 Hnd2.
  generalize (after_scope kw1) (after_scope kw2).
  intros f1 f2 Hinit Hrest Hnd1 Hnd2.
  destruct (Collector.check_filters (Dict.keys f1)) as [e|[]] eqn:Hcheck;
    [discriminate|]. cbn [res_bind] in Hinit.
  rewrite (check_filters_perm (Dict.keys f1) (Dict.keys f2)
             (Permutation_map fst Hrest) Hcheck).
  cbn [res_bind].
  destruct f1 as [|kv1 f1].
  - apply Permutation_nil in Hrest. subst f2. cbn [Dict.nonempty] in *.
    injection Hinit as <-. eexists. split; [reflexivity|]. cbn. auto.
  - assert (Hne2 : Dict.nonempty f2 = true).
    { destruct f2; [|reflexivity].
      apply Permutation_sym, Permutation_nil in Hrest. discriminate. }
    rewrite Hne2. cbn [Dict.nonempty] in Hinit.
    destruct (_Filter._coerce_filter_values (kv1 :: f1)) as [e|co1] eqn:Hco1;
      [discriminate|]. cbn [res_bind] in Hinit.
    destruct (coerce_perm _ f2 co1 Hnd1 Hrest Hco1) as (co2 & Hco2 & Hpco).
    rewrite Hco2. unfold Ok. cbn [res_bind].
    rewrite (update_same_keys _ _ co1 Hnd1 (coerce_keys _ co1 Hco1)) in Hinit.
    rewrite (update_same_keys _ _ co2 Hnd2 (coerce_keys _ co2 Hco2)).
    destruct (chain_ops doc co1) as [e|o1] eqn:Hops1; [discriminate|].
    cbn [res_bind] in Hinit. injection Hinit as <-.
    destruct (chain_ops_same_filters doc co1 co2 o1 Hops1) as (o2 & -> & Hmem).
    { intros kv. split; apply Permutation_in;
        [assumption|now apply Permutation_sym]. }
    unfold Ok. cbn [res_bind]. eexists. split; [reflexivity|].
    cbn [elements _filters]. split; [|assumption].
    symmetry. now apply enumerate_narrowed_same.
Qed.

End OrderIndependence.

(** [Collector(of_class='Wall', is_type=False, view=v)] and the same
    keywords in another order, on the demo host. *)
Lemma construction_ignores_keyword_order_witness :
  Collector.__init__ (H := Demo.host)
    [("of_class", VStr "Wall"); ("is_type", VBool false);
     ("view", VElementId 5)]
  = Ok (mkCollector (H := Demo.host)
          (mkFEC 0 (InView 5)
                 [OfClass "Wall"; WhereElementIsNotElementType;
                  WhereElementIsNotElementType])
          (VDocument 0) [Demo.wall_1]
          [("of_class", VType "Wall"); ("is_type", VBool false)])
  /\ exists c2,
      Collector.__init__ (H := Demo.host)
        [("view", VElementId 5); ("is_type", VBool false);
         ("of_class", VStr "Wall")] = Ok c2
      /\ elements c2 = [Demo.wall_1]
      /\ Permutation
           [("of_class", VType "Wall"); ("is_type", VBool false)]
           (_filters c2).
Proof.
  split; [reflexivity|].
  apply (@construction_ignores_keyword_order Demo.host
           [("of_class", VStr "Wall"); ("is_type", VBool false);
            ("view", VElementId 5)]
           [("view", VElementId 5); ("is_type", VBool false);
            ("of_class", VStr "Wall")]
           (mkCollector (H := Demo.host)
              (mkFEC 0 (InView 5)
                     [OfClass "Wall"; WhereElementIsNotElementType;
                      WhereElementIsNotElementType])
              (VDocument 0) [Demo.wall_1]
              [("of_class", VType "Wall"); ("is_type", VBool false)])).
  - cbn. repeat constructor; cbn; intuition discriminate.
  - apply Permutation_trans
      with (l' := [("of_class", VStr "Wall"); ("view", VElementId 5);
                   ("is_type", VBool false)]).
    + apply perm_skip. apply perm_swap.
    + apply Permutation_trans
        with (l' := [("view", VElementId 5); ("of_class", VStr "Wall");
                     ("is_type", VBool false)]).
      * apply perm_swap.
      * apply perm_skip. apply perm_swap.
  - reflexivity.
Defined.

(** ** A construction followed by a call *)

Section MergeFacts.

Context {H : Host}.

Lemma get_app_left (a b : dict) (k : string) :
  Dict.get k b = None -> Dict.get k (a ++ b) = Dict.get k a.
Proof.
  intros Hb. induction a as [|[k1 v1] a IH]; cbn [app Dict.get];
    [assumption|].
  now destruct (String.eqb k k1).
Qed.

Lemma get_app_right (a b : dict) (k : string) :
  Dict.get k a = None -> Dict.get k (a ++ b) = Dict.get k b.
Proof.
  induction a as [|[k1 v1] a IH]; cbn [app Dict.get]; [reflexivity|].
  destruct (String.eqb k k1); [discriminate|assumption].
Qed.

Lemma remove_app_left (a b : dict) (k : string) :
  Dict.get k b = None -> Dict.remove k (a ++ b) = Dict.remove k a ++ b.
Proof.
  intros Hb. induction a as [|[k1 v1] a IH]; cbn [app Dict.remove].
  - now apply remove_absent.
  - destruct (String.eqb k k1); [reflexivity|]. cbn [app]. now rewrite IH.
Qed.

Lemma set_app_left (a b : dict) (k : string) (v : Value) :
  Dict.contains k a = true -> Dict.set k v (a ++ b) = Dict.set k v a ++ b.
Proof.
  unfold Dict.contains.
  induction a as [|[k1 v1] a IH]; cbn [app Dict.set Dict.get];
    [discriminate|].
  destruct (String.eqb k k1); [reflexivity|].
  intros Hc. cbn [app]. now rewrite IH.
Qed.

Lemma get_none_not_in (d : dict) (k : string) :
  Dict.get k d = None <-> ~ In k (Dict.keys d).
Proof.
  rewrite <- contains_in_keys. unfold Dict.contains.
  destruct (Dict.get k d); split; intros Hx;
    try discriminate; try reflexivity; exfalso; now apply Hx.
Qed.

Lemma after_scope_app (a b : dict) :
  (forall k, In k scope_keys -> Dict.get k b = None) ->
  after_scope (a ++ b) = after_scope a ++ b.
Proof.
  intros Hb. unfold after_scope, Dict.contains.
  rewrite (remove_app_left a b "doc") by (apply Hb; cbn; auto).
  rewrite !get_app_left by (apply Hb; cbn; auto 6).
  destruct (Dict.get "view" (Dict.remove "doc" a));
    [apply remove_app_left, Hb; cbn; auto|].
  destruct (Dict.get "elements" (Dict.remove "doc" a));
    [apply remove_app_left, Hb; cbn; auto|].
  destruct (Dict.get "element_ids" (Dict.remove "doc" a));
    [apply remove_app_left, Hb; cbn; auto 6|reflexivity].
Qed.

Lemma NoDup_app_disjoint (A : Type) (l l' : list A) (a : A) :
  NoDup (l ++ l') -> In a l -> In a l' -> False.
Proof.
  induction l as [|x l IH]; cbn [app]; intros Hnd Hl Hl'; [destruct Hl|].
  inversion Hnd as [|? ? Hnotin Hnd']. subst.
  destruct Hl as [->|Hl]; [|now apply IH].
  apply Hnotin. apply in_or_app. now right.
Qed.

Lemma coerce_one_key_app (resolve : string -> Res Value) (key : string)
      (a b a' b' : dict) :
  NoDup (Dict.keys (a ++ b)) ->
  match Dict.get key a with
  | Some (VStr (String c s)) =>
      (try v <- resolve (String c s); Ok (Dict.set key v a))%res
  | _ => Ok a
  end = Ok a' ->
  match Dict.get key b with
  | Some (VStr (String c s)) =>
      (try v <- resolve (String c s); Ok (Dict.set key v b))%res
  | _ => Ok b
  end = Ok b' ->
  match Dict.get key (a ++ b) with
  | Some (VStr (String c s)) =>
      (try v <- resolve (String c s); Ok (Dict.set key v (a ++ b)))%res
  | _ => Ok (a ++ b)
  end = Ok (a' ++ b')
  /\ Dict.keys a' = Dict.keys a /\ Dict.keys b' = Dict.keys b.
Proof.
  intros Hnd Ha Hb.
  destruct (Dict.get key a) as [va|] eqn:Ega.
  - assert (Hgb : Dict.get key b = None).
    { apply get_none_not_in. intros Hin.
      rewrite keys_app in Hnd.
      apply (NoDup_app_disjoint _ _ _ key Hnd); [|assumption].
      apply contains_in_keys. unfold Dict.contains. now rewrite Ega. }
    rewrite Hgb in Hb. injection Hb as <-.
    rewrite (get_app_left a b key Hgb), Ega.
    assert (Hca : Dict.contains key a = true)
      by (unfold Dict.contains; now rewrite Ega).
    destruct va as [| | | | [|c s] | | | | | | | |];
      try (injection Ha as <-; auto).
    destruct (resolve (String c s)) as [e|v]; [discriminate|].
    cbn [res_bind] in *. injection Ha as <-.
    rewrite set_app_left by assumption.
    rewrite keys_set_present by assumption. auto.
  - injection Ha as <-. rewrite (get_app_right a b key Ega).
    destruct (Dict.get key b) as [[| | | | [|c s] | | | | | | | |]|] eqn:Egb;
      try (injection Hb as <-; auto).
    destruct (resolve (String c s)) as [e|v]; [discriminate|].
    cbn [res_bind] in *. injection Hb as <-.
    rewrite set_app_notin by (now apply get_none_not_in).
    rewrite keys_set_present
      by (unfold Dict.contains; now rewrite Egb). auto.
Qed.

Lemma coerce_app (a b a' b' : dict) :
  NoDup (Dict.keys (a ++ b)) ->
  _Filter._coerce_filter_values a = Ok a' ->
  _Filter._coerce_filter_values b = Ok b' ->
  _Filter._coerce_filter_values (a ++ b) = Ok (a' ++ b').
Proof.
  intros Hnd Ha Hb. unfold _Filter._coerce_filter_values in *.
  destruct (match Dict.get "of_category" a with
            | Some (VStr (String c s)) =>
                (try v <- BicEnum_get (String c s);
                 Ok (Dict.set "of_category" v a))%res
            | _ => Ok a
            end) as [e|ma] eqn:Hma; [discriminate|].
  destruct (match Dict.get "of_category" b with
            | Some (VStr (String c s)) =>
                (try v <- BicEnum_get (String c s);
                 Ok (Dict.set "of_category" v b))%res
            | _ => Ok b
            end) as [e|mb] eqn:Hmb; [discriminate|].
  cbn [res_bind] in Ha, Hb.
  destruct (coerce_one_key_app BicEnum_get "of_category" a b ma mb
              Hnd Hma Hmb) as (Hstage & Hka & Hkb).
  match goal with
  | |- res_bind ?m _ = _ =>
      replace m with (Ok (ma ++ mb)) by (symmetry; exact Hstage)
  end.
  rewrite res_bind_Ok.
  apply (coerce_one_key_app DB_getattr "of_class" ma mb a' b'); auto.
  rewrite keys_app, Hka, Hkb, <- keys_app. assumption.
Qed.

Lemma update_disjoint (d s : dict) :
  NoDup (Dict.keys (d ++ s)) -> Dict.update d s = d ++ s.
Proof.
  unfold Dict.update, Dict.iteritems. revert d.
  induction s as [|[k v] s IH]; intros d Hnd; cbn [fold_left fst snd].
  - now rewrite app_nil_r.
  - assert (Hk : Dict.get k d = None).
    { apply get_none_not_in. intros Hin. rewrite keys_app in Hnd.
      apply (NoDup_app_disjoint _ _ _ k Hnd Hin). cbn. now left. }
    rewrite set_absent by assumption.
    rewrite IH; rewrite <- app_assoc; [reflexivity|assumption].
Qed.

(** What a returning construction leaves behind, in full. *)
Lemma init_ok_inv (kw : dict) (c : CollectorObj) :
  Collector.__init__ kw = Ok c ->
  exists doc fec co ops,
    bind_scope (Dict.get "doc" kw) (Dict.get "view" kw)
               (Dict.get "elements" kw) (Dict.get "element_ids" kw)
    = Ok (doc, fec)
    /\ Collector.check_filters (Dict.keys (after_scope kw)) = Ok tt
    /\ _Filter._coerce_filter_values (after_scope kw) = Ok co
    /\ chain_ops doc (Dict.update (after_scope kw) co) = Ok ops
    /\ _collector_doc c = doc
    /\ _filters c = Dict.update (after_scope kw) co
    /\ _revit_object c = narrowed ops fec.
Proof.
  intros Hinit. rewrite init_spec, pick_scope_spec in Hinit.
  destruct (bind_scope (Dict.get "doc" kw) (Dict.get "view" kw)
                       (Dict.get "elements" kw) (Dict.get "element_ids" kw))
    as [e|[doc fec]]; [discriminate|].
  unfold Ok in Hinit. cbn [res_bind fst snd] in Hinit.
  destruct (Collector.check_filters (Dict.keys (after_scope kw)))
    as [e|[]]; [discriminate|]. cbn [res_bind] in Hinit.
  destruct (after_scope kw) as [|kv rest] eqn:Hrest;
    cbn [Dict.nonempty] in Hinit.
  - injection Hinit as <-. exists doc, fec, [], [].
    repeat split. unfold narrowed. cbn [_revit_object].
    rewrite app_nil_r. now destruct fec.
  - destruct (_Filter._coerce_filter_values (kv :: rest)) as [e|co];
      [discriminate|]. cbn [res_bind] in Hinit.
    destruct (chain_ops doc (Dict.update (kv :: rest) co)) as [e|ops] eqn:Hops;
      [discriminate|]. cbn [res_bind] in Hinit.
    injection Hinit as <-. exists doc, fec, co, ops. repeat split.
    exact Hops.
Qed.

End MergeFacts.

Section MergeEquivalence.

Context {H : Host}.

Lemma enumerate_narrowed_absorbs (o1 o2 : list NarrowOp)
      (fec : FilteredElementCollector) :
  incl o1 o2 ->
  enumerate (narrowed o2 (narrowed o1 fec)) = enumerate (narrowed o2 fec).
Proof.
  intros Hincl. destruct fec as [d s a]. unfold narrowed.
  cbn [fec_doc fec_scope fec_applied].
  apply enumerate_same_members. intros op. rewrite !in_app_iff.
  specialize (Hincl op). tauto.
Qed.

Lemma chain_ops_prefix (doc : Value) (a b : dict) (oa o : list NarrowOp) :
  chain_ops doc a = Ok oa -> chain_ops doc (a ++ b) = Ok o -> incl oa o.
Proof.
  intros Ha Hab op Hop.
  destruct (chain_ops_each doc a oa Ha) as [_ Hmem].
  destruct (chain_ops_each doc (a ++ b) o Hab) as [Heach _].
  destruct (Hmem op Hop) as (kv & here & Hin & Hhere & Hoph).
  destruct (Heach kv) as (here' & Hhere' & Hincl);
    [apply in_or_app; now left|].
  apply Hincl. rewrite Hhere in Hhere'. now injection Hhere' as <-.
Qed.

(** X17: a construction followed by a call of [filter] is one
    construction.  When [Collector] returns on some keyword arguments and
    [filter] then returns on further ones with other names, [Collector]
    returns on all of them together, with the same elements cached and the
    same filters stored (provided any filter is stored at all: a Collector
    constructed without filters caches nothing, while a call of [filter]
    without filters caches the whole scope). *)
Theorem filter_after_construction_is_one_construction
        (kw1 kw2 : dict) (c1 c2 : CollectorObj) :
  NoDup (Dict.keys (kw1 ++ kw2)) ->
  Collector.__init__ kw1 = Ok c1 ->
  Collector.filter kw2 c1 = (Ok tt, c2) ->
  _filters c2 <> [] ->
  exists c, Collector.__init__ (kw1 ++ kw2) = Ok c
            /\ elements c = elements c2
            /\ _filters c = _filters c2.
Proof.
  intros Hnd Hinit Hcall Hne.
  destruct (init_ok_inv kw1 c1 Hinit)
    as (doc & fec & co1 & ops1 & Hbind & Hcheck1 & Hco1 & Hops1
        & Hdoc & Hf1 & Hfec1).
  destruct (filter_ok_inv kw2 c1 c2 Hcall)
    as (co2 & ops2 & Hco2 & Hops2 & ->).
  rewrite Hdoc, Hf1 in Hops2. cbn [_filters elements] in Hne |- *.
  rewrite Hf1 in Hne. rewrite Hf1, Hfec1.
  assert (Hvalid2 : forall k, In k (Dict.keys kw2) ->
                              Dict.contains k _Filter.MAP = true).
  { intros k Hk. eapply chain_ops_keys; [exact Hops2|].
    apply contains_in_keys, contains_update_new.
    now rewrite (coerce_keys kw2 co2 Hco2). }
  assert (Hscope2 : forall k, In k scope_keys -> Dict.get k kw2 = None).
  { intros k Hk. apply get_none_not_in. intros Hin. apply Hvalid2 in Hin.
    cbn in Hk. repeat (destruct Hk as [<-|Hk]; [discriminate|]).
    destruct Hk. }
  pose proof (NoDup_after_scope (kw1 ++ kw2) Hnd) as HndF.
  rewrite after_scope_app in HndF by assumption.
  assert (HndF1 : NoDup (Dict.keys (after_scope kw1))).
  { rewrite keys_app in HndF. eapply NoDup_app_remove_r; eauto. }
  pose proof (coerce_keys _ _ Hco1) as Hk1.
  pose proof (coerce_keys _ _ Hco2) as Hk2.
  rewrite (update_same_keys _ _ co1 HndF1 Hk1) in Hops1, Hops2, Hne |- *.
  assert (HndC : NoDup (Dict.keys (co1 ++ co2))).
  { now rewrite keys_app, Hk1, Hk2, <- keys_app. }
  rewrite (update_disjoint co1 co2 HndC) in Hops2, Hne |- *.
  rewrite init_spec, pick_scope_spec.
  rewrite !(get_app_left kw1 kw2) by (apply Hscope2; cbn; auto 6).
  rewrite Hbind. rewrite res_bind_Ok. cbn [fst snd]. rewrite res_bind_Ok.
  rewrite after_scope_app by assumption.
  rewrite keys_app, check_filters_app, Hcheck1, res_bind_Ok.
  rewrite (check_filters_accepts _ Hvalid2), res_bind_Ok.
  assert (Hnonempty : Dict.nonempty (after_scope kw1 ++ kw2) = true).
  { destruct (after_scope kw1 ++ kw2) as [|kv rest] eqn:Hrest;
      [|reflexivity].
    exfalso. apply Hne.
    assert (Hkeys : Dict.keys (co1 ++ co2) = []).
    { rewrite keys_app, Hk1, Hk2, <- keys_app, Hrest. reflexivity. }
    destruct (co1 ++ co2); [reflexivity|discriminate]. }
  rewrite Hnonempty.
  rewrite (coerce_app _ _ co1 co2 HndF Hco1 Hco2), res_bind_Ok.
  rewrite (update_same_keys _ (after_scope kw1 ++ kw2) (co1 ++ co2) HndF)
    by (now rewrite !keys_app, Hk1, Hk2).
  rewrite Hops2, res_bind_Ok.
  eexists. split; [reflexivity|]. cbn [elements _filters].
  split; [|reflexivity].
  symmetry. apply enumerate_narrowed_absorbs.
  eapply chain_ops_prefix; eassumption.
Qed.

End MergeEquivalence.

(** [Collector(of_class='Wall').filter(is_type=False)] against
    [Collector(of_class='Wall', is_type=False)] on the demo host. *)
Lemma filter_after_construction_is_one_construction_witness :
  Collector.__init__ (H := Demo.host) [("of_class", VStr "Wall")]
  = Ok Demo.walls
  /\ exists c,
      Collector.__init__ (H := Demo.host)
        ([("of_class", VStr "Wall")] ++ [("is_type", VBool false)]) = Ok c
      /\ elements c = [Demo.wall_1; Demo.wall_2]
      /\ _filters c
         = [("of_class", VType "Wall"); ("is_type", VBool false)].
Proof.
  split; [reflexivity|].
  apply (@filter_after_construction_is_one_construction Demo.host
           [("of_class", VStr "Wall")] [("is_type", VBool false)]
           Demo.walls
           (mkCollector (H := Demo.host)
              (mkFEC 0 WholeDocument
                     [OfClass "Wall"; OfClass "Wall";
                      WhereElementIsNotElementType;
                      WhereElementIsNotElementType])
              (VDocument 0) [Demo.wall_1; Demo.wall_2]
              [("of_class", VType "Wall"); ("is_type", VBool false)])).
  - cbn. repeat constructor; cbn; intuition discriminate.
  - reflexivity.
  - reflexivity.
  - discriminate.
Defined.

(** ** The wall wrappers *)

Section WallFacts.

Context {H : Host} {W : Wrappers}.

(** What [Collector] caches on the parameters of [WallType]: the elements
    of the document that are of class [WallType] and are element types. *)
Lemma wall_type_collector :
  exists c,
    Collector.__init__ WallType._collector_params = Ok c
    /\ elements c
       = List.filter (fun e => has_class "WallType" e && is_element_type e)
                     (scope_elements revit_doc WholeDocument).
Proof.
  rewrite init_spec. cbv -[enumerate scope_elements has_class is_element_type
                           revit_doc List.filter andb].
  eexists. split; [reflexivity|]. cbn [elements]. unfold enumerate.
  cbn [fec_applied fec_doc fec_scope]. apply filter_ext. intros e. cbn.
  destruct (has_class "WallType" e); destruct (is_element_type e);
    reflexivity.
Qed.

(** X18: the wall types of a wall kind are the wrapped elements of the
    document that are of class [WallType], are element types and whose
    [Kind] is the kind, in the store's order; the call never raises. *)
Theorem wall_types_of_kind (kind : Z) :
  WallKind.wall_types kind
  = Ok (List.filter
          (fun w => Z.eqb (Kind w) kind)
          (map Element_Factory
               (List.filter
                  (fun e => has_class "WallType" e && is_element_type e)
                  (scope_elements revit_doc WholeDocument)))).
Proof.
  unfold WallKind.wall_types.
  destruct wall_type_collector as (c & -> & Hel).
  rewrite res_bind_Ok. unfold CollectorViews.wrapped_elements.
  now rewrite Hel.
Qed.

(** X19: the category of a wall kind is read off the first wall type of the
    document, whatever the kind.  In a document without wall types the
    property fails on [None] with an [AttributeError] that is not seen
    outside: the outcome is what the wrapper's [__getattr__] returns or
    raises for the name [category]. *)
Theorem category_of_first_wall_type (kind : Z) :
  WallKind.category kind
  = match List.filter
            (fun e => has_class "WallType" e && is_element_type e)
            (scope_elements revit_doc WholeDocument) with
    | wall_type :: _ => Ok (Category wall_type)
    | [] => wall_kind_getattr kind "category"
    end.
Proof.
  unfold WallKind.category, WallKind.category_getter.
  destruct wall_type_collector as (c & Hc & Hel).
  change [("of_class", VType "WallType"); ("is_type", VBool true)]
    with WallType._collector_params.
  rewrite Hc, res_bind_Ok. unfold Collector.first. rewrite Hel.
  now destruct (List.filter _ _).
Qed.

(** What [Collector] caches on a parameter filter and the parameters of
    [Wall]: the elements of the document that are of class [Wall], are not
    element types and pass the parameter filter. *)
Lemma wall_collector_with_filter (rules : list FilterRule)
      (inverted : bool) :
  exists c,
    Collector.__init__ (("parameter_filter",
                         VParameterFilter rules inverted)
                          :: Wall._collector_params) = Ok c
    /\ elements c
       = List.filter
           (fun e => has_class "Wall" e && negb (is_element_type e)
                     && filter_passes
                          (ElementParameterFilter rules inverted) e)
           (scope_elements revit_doc WholeDocument).
Proof.
  rewrite init_spec.
  cbv -[enumerate scope_elements has_class is_element_type filter_passes
        revit_doc List.filter].
  eexists. split; [reflexivity|]. cbn [elements]. unfold enumerate.
  cbn [fec_applied fec_doc fec_scope]. apply filter_ext. intros e.
  cbn [forallb op_passes].
  destruct (filter_passes _ e); destruct (has_class "Wall" e);
    destruct (is_element_type e); reflexivity.
Qed.

(** The instances of a wall type, run through: the id of the built-in
    parameter is looked up, the rule factory is called on the name with the
    default option for its type, and the Collector narrows the document. *)
Lemma wall_type_instances_run (self : Wrapped) :
  WallType.instances self
  = (try bip <- BipEnum_get_id "SYMBOL_NAME_PARAM";
     let args :=
       wrapped_name self :: default_extra_args (wrapped_name self) in
     if factory_accepts "CreateEqualsRule" bip args then
       Ok (map Element_Factory
               (List.filter
                  (fun e => has_class "Wall" e && negb (is_element_type e)
                            && atomic_passes "CreateEqualsRule" bip args e)
                  (scope_elements revit_doc WholeDocument)))
     else Raise (TypeError "CreateEqualsRule"))%res.
Proof.
  unfold WallType.instances.
  destruct (BipEnum_get_id "SYMBOL_NAME_PARAM") as [e|bip]; [reflexivity|].
  cbn [res_bind].
  assert (Hpf : ParameterFilter.__init__ bip [("equals", wrapped_name self)]
                = if factory_accepts "CreateEqualsRule" bip
                       (wrapped_name self
                          :: default_extra_args (wrapped_name self))
                  then Ok (VParameterFilter
                             [Rule "CreateEqualsRule" bip
                                   (wrapped_name self
                                      :: default_extra_args
                                           (wrapped_name self))] false)
                  else Raise (TypeError "CreateEqualsRule")).
  { unfold ParameterFilter.__init__.
    cbn -[factory_accepts]. unfold ParameterFilter.call_factory.
    destruct (wrapped_name self);
      cbn [is_str is_float app default_extra_args];
      match goal with
      | |- context [factory_accepts ?n ?b ?a] =>
          destruct (factory_accepts n b a)
      end; reflexivity. }
  rewrite Hpf.
  destruct (factory_accepts "CreateEqualsRule" bip
              (wrapped_name self :: default_extra_args (wrapped_name self)));
    [|reflexivity].
  rewrite res_bind_Ok.
  destruct (wall_collector_with_filter
              [Rule "CreateEqualsRule" bip
                    (wrapped_name self
                       :: default_extra_args (wrapped_name self))] false)
    as (c & -> & Hel).
  rewrite res_bind_Ok. unfold CollectorViews.wrapped_elements.
  rewrite Hel. do 2 f_equal. apply filter_ext. intros e.
  cbn [filter_passes forallb rule_passes xorb].
  now rewrite andb_true_r.
Qed.

(** X20: the instances of a wall type are found by name.  When the id of
    [SYMBOL_NAME_PARAM] is found and the rule factory accepts the name, the
    property returns the wrapped elements of the document that are of
    class [Wall], are not element types and pass the equality rule on the
    name, in the store's order. *)
Theorem wall_type_instances_by_name (self : Wrapped) (bip : Value) :
  BipEnum_get_id "SYMBOL_NAME_PARAM" = Ok bip ->
  factory_accepts "CreateEqualsRule" bip
    (wrapped_name self :: default_extra_args (wrapped_name self)) = true ->
  WallType.instances self
  = Ok (map Element_Factory
            (List.filter
               (fun e => has_class "Wall" e && negb (is_element_type e)
                         && atomic_passes
                              "CreateEqualsRule" bip
                              (wrapped_name self
                                 :: default_extra_args (wrapped_name self))
                              e)
               (scope_elements revit_doc WholeDocument))).
Proof.
  intros Hbip Haccepts. rewrite wall_type_instances_run, Hbip, res_bind_Ok.
  cbv zeta. now rewrite Haccepts.
Qed.

(** X21: a wall type of the document is among its own siblings, and every
    sibling is of its kind. *)
Theorem wall_type_among_its_siblings (e : Elem) :
  In e (scope_elements revit_doc WholeDocument) ->
  has_class "WallType" e = true ->
  is_element_type e = true ->
  exists siblings,
    WallTypeLinks.siblings (Element_Factory e) = Ok siblings
    /\ In (Element_Factory e) siblings
    /\ forall w, In w siblings -> Kind w = Kind (Element_Factory e).
Proof.
  intros Hin Hcls Htype. unfold WallTypeLinks.siblings, WallKind.wall_types.
  destruct wall_type_collector as (c & -> & Hel).
  rewrite res_bind_Ok. unfold CollectorViews.wrapped_elements. rewrite Hel.
  eexists. split; [reflexivity|]. split.
  - apply filter_In. split; [|apply Z.eqb_refl].
    apply in_map, filter_In. split; [exact Hin|].
    now rewrite Hcls, Htype.
  - intros w Hw. apply filter_In in Hw. now apply Z.eqb_eq.
Qed.

(** The loop of [wall_kind.instances]: what it returns holds what it
    started from and what each wall type contributes. *)
Lemma extend_instances_members (wall_types acc found : list Wrapped) :
  WallKind.extend_instances wall_types acc = Ok found ->
  forall w,
    In w found
    <-> In w acc
        \/ exists wall_type its,
            In wall_type wall_types
            /\ WallType.instances wall_type = Ok its /\ In w its.
Proof.
  revert acc. induction wall_types as [|wt wts IH]; intros acc Hrun w.
  - injection Hrun as <-. split; [now left|].
    intros [Hacc|(wt & its & [] & _)]. exact Hacc.
  - cbn [WallKind.extend_instances] in Hrun.
    destruct (WallType.instances wt) as [e|its] eqn:Hits; [discriminate|].
    cbn [res_bind] in Hrun. rewrite (IH _ Hrun w), in_app_iff. split.
    + intros [[Hacc|Hhere]|(wt' & its' & Hin & Hrun' & Hw)].
      * now left.
      * right. exists wt, its. split; [now left|]. now split.
      * right. exists wt', its'. split; [now right|]. now split.
    + intros [Hacc|(wt' & its' & [<-|Hin] & Hrun' & Hw)].
      * left. now left.
      * left. right. rewrite Hits in Hrun'. now injection Hrun' as <-.
      * right. exists wt', its'. now split.
Qed.

(** What the instances of a wall kind hold when they are returned. *)
Lemma wall_kind_instances_inv (kind : Z) (found : list Wrapped) :
  WallKind.instances kind = Ok found ->
  forall w,
    In w found
    <-> exists t bip e,
        In t (scope_elements revit_doc WholeDocument)
        /\ has_class "WallType" t = true
        /\ is_element_type t = true
        /\ Kind (Element_Factory t) = kind
        /\ BipEnum_get_id "SYMBOL_NAME_PARAM" = Ok bip
        /\ w = Element_Factory e
        /\ In e (scope_elements revit_doc WholeDocument)
        /\ has_class "Wall" e = true
        /\ is_element_type e = false
        /\ atomic_passes
             "CreateEqualsRule" bip
             (wrapped_name (Element_Factory t)
                :: default_extra_args (wrapped_name (Element_Factory t)))
             e = true.
Proof.
  unfold WallKind.instances, WallKind.wall_types.
  destruct wall_type_collector as (c & -> & Hel).
  rewrite !res_bind_Ok. unfold CollectorViews.wrapped_elements.
  rewrite Hel. intros Hrun w.
  rewrite (extend_instances_members _ _ _ Hrun w). cbn [In]. split.
  - intros [[]|(wt & its & Hwt & Hits & Hw)].
    apply filter_In in Hwt. destruct Hwt as [Hwt Hkind].
    apply in_map_iff in Hwt. destruct Hwt as (t & <- & Ht).
    apply filter_In in Ht. destruct Ht as [Ht Htype].
    apply andb_true_iff in Htype. destruct Htype as [Hcls Htype].
    apply Z.eqb_eq in Hkind.
    rewrite wall_type_instances_run in Hits.
    destruct (BipEnum_get_id "SYMBOL_NAME_PARAM") as [x|bip];
      [discriminate|].
    rewrite res_bind_Ok in Hits. cbv zeta in Hits.
    destruct (factory_accepts _ _ _); [|discriminate].
    injection Hits as <-.
    apply in_map_iff in Hw. destruct Hw as (e & <- & He).
    apply filter_In in He. destruct He as [He Hpass].
    apply andb_true_iff in Hpass. destruct Hpass as [Hpass Hrule].
    apply andb_true_iff in Hpass. destruct Hpass as [Hwall Hnot].
    apply negb_true_iff in Hnot.
    exists t, bip, e. auto 12.
  - intros (t & bip & e & Ht & Hcls & Htype & Hkind & Hbip & -> & He
            & Hwall & Hnot & Hrule).
    right. exists (Element_Factory t).
    destruct (WallType.instances (Element_Factory t)) as [x|its] eqn:Hits.
    + exfalso.
      (* the loop has run the instances of [t], which therefore returned *)
      assert (Hwt : In (Element_Factory t)
                       (List.filter
                          (fun wall_type => Z.eqb (Kind wall_type) kind)
                          (map Element_Factory
                               (List.filter
                                  (fun e => has_class "WallType" e
                                            && is_element_type e)
                                  (scope_elements revit_doc
                                                  WholeDocument))))).
      { apply filter_In. split; [|now apply Z.eqb_eq].
        apply in_map, filter_In. split; [exact Ht|].
        now rewrite Hcls, Htype. }
      revert Hrun Hwt Hits. generalize (@nil Wrapped).
      generalize (List.filter
                    (fun wall_type => Z.eqb (Kind wall_type) kind)
                    (map Element_Factory
                         (List.filter
                            (fun e => has_class "WallType" e
                                      && is_element_type e)
                            (scope_elements revit_doc WholeDocument)))).
      intros wts. induction wts as [|wt wts IH]; intros acc Hrun Hwt Hits.
      * destruct Hwt.
      * cbn [WallKind.extend_instances] in Hrun.
        destruct Hwt as [->|Hwt].
        -- rewrite Hits in Hrun. discriminate.
        -- destruct (WallType.instances wt); [discriminate|].
           cbn [res_bind] in Hrun. eapply IH; eassumption.
    + exists its. split.
      * apply filter_In. split; [|now apply Z.eqb_eq].
        apply in_map, filter_In. split; [exact Ht|].
        now rewrite Hcls, Htype.
      * split; [reflexivity|].
        rewrite wall_type_instances_run, Hbip, res_bind_Ok in Hits.
        cbv zeta in Hits.
        destruct (factory_accepts _ _ _); [|discriminate].
        injection Hits as <-. apply in_map, filter_In.
        split; [exact He|]. now rewrite Hwall, Hnot, Hrule.
Qed.

(** The loop of [wall_kind.instances] returns when the instances of each
    wall type do. *)
Lemma extend_instances_returns (wall_types acc : list Wrapped) :
  (forall wall_type, In wall_type wall_types ->
                     exists its, WallType.instances wall_type = Ok its) ->
  exists found, WallKind.extend_instances wall_types acc = Ok found.
Proof.
  revert acc. induction wall_types as [|wt wts IH]; intros acc Hall.
  - now exists acc.
  - cbn [WallKind.extend_instances].
    destruct (Hall wt) as (its & ->); [now left|]. rewrite res_bind_Ok.
    apply IH. intros wt' Hin. apply Hall. now right.
Qed.

(** X22: the instances of a wall kind are the walls typed by name after a
    wall type of the kind.  When the id of [SYMBOL_NAME_PARAM] is found and
    the rule factory accepts the name of every wall type of the kind, the
    property returns, and a wrapped element is returned exactly when it is
    of class [Wall], is not an element type and passes the equality rule on
    the name of a wall type of the document whose [Kind] is the kind. *)
Theorem wall_kind_instances_by_name (kind : Z) (bip : Value) :
  BipEnum_get_id "SYMBOL_NAME_PARAM" = Ok bip ->
  (forall t,
      In t (scope_elements revit_doc WholeDocument) ->
      has_class "WallType" t = true ->
      is_element_type t = true ->
      Kind (Element_Factory t) = kind ->
      factory_accepts
        "CreateEqualsRule" bip
        (wrapped_name (Element_Factory t)
           :: default_extra_args (wrapped_name (Element_Factory t)))
      = true) ->
  exists found,
    WallKind.instances kind = Ok found
    /\ forall w,
        In w found
        <-> exists t e,
            In t (scope_elements revit_doc WholeDocument)
            /\ has_class "WallType" t = true
            /\ is_element_type t = true
            /\ Kind (Element_Factory t) = kind
            /\ w = Element_Factory e
            /\ In e (scope_elements revit_doc WholeDocument)
            /\ has_class "Wall" e = true
            /\ is_element_type e = false
            /\ atomic_passes
                 "CreateEqualsRule" bip
                 (wrapped_name (Element_Factory t)
                    :: default_extra_args (wrapped_name (Element_Factory t)))
                 e = true.
Proof.
  intros Hbip Haccepts.
  assert (Hreturns : exists found, WallKind.instances kind = Ok found).
  { unfold WallKind.instances, WallKind.wall_types.
    destruct wall_type_collector as (c & -> & Hel).
    rewrite !res_bind_Ok. unfold CollectorViews.wrapped_elements.
    rewrite Hel. apply extend_instances_returns. intros wt Hwt.
    apply filter_In in Hwt. destruct Hwt as [Hwt Hkind].
    apply in_map_iff in Hwt. destruct Hwt as (t & <- & Ht).
    apply filter_In in Ht. destruct Ht as [Ht Htype].
    apply andb_true_iff in Htype. destruct Htype as [Hcls Htype].
    apply Z.eqb_eq in Hkind.
    rewrite wall_type_instances_run, Hbip, res_bind_Ok. cbv zeta.
    rewrite (Haccepts t Ht Hcls Htype Hkind). eauto. }
  destruct Hreturns as (found & Hfound). exists found.
  split; [exact Hfound|]. intros w.
  rewrite (wall_kind_instances_inv kind found Hfound w). split.
  - intros (t & bip' & e & Ht & Hcls & Htype & Hkind & Hbip' & Hrest).
    rewrite Hbip in Hbip'. injection Hbip' as <-. exists t, e. auto 12.
  - intros (t & e & Ht & Hcls & Htype & Hkind & Hrest).
    exists t, bip, e. auto 12.
Qed.


End WallFacts.

(** The instances of the demo wall type: the wall typed by its name. *)
Lemma wall_type_instances_by_name_witness :
  WallType.instances (H := Demo.host) (W := DemoWalls.wrappers)
                     Demo.wall_type
  = Ok [Demo.wall_1].
Proof.
  apply (@wall_type_instances_by_name Demo.host DemoWalls.wrappers
           Demo.wall_type (VElementId 7)); reflexivity.
Defined.

(** The demo wall type among its own siblings. *)
Lemma wall_type_among_its_siblings_witness :
  exists siblings,
    WallTypeLinks.siblings (H := Demo.host) (W := DemoWalls.wrappers)
                           Demo.wall_type = Ok siblings
    /\ In Demo.wall_type siblings
    /\ forall w, In w siblings -> Z.modulo w 2 = 1%Z.
Proof.
  apply (@wall_type_among_its_siblings Demo.host DemoWalls.wrappers
           Demo.wall_type).
  - cbn. auto.
  - reflexivity.
  - reflexivity.
Defined.

(** The instances of the kind of the demo wall type. *)
Lemma wall_kind_instances_by_name_witness :
  exists found,
    WallKind.instances (H := Demo.host) (W := DemoWalls.wrappers) 1%Z
    = Ok found
    /\ forall w,
        In w found
        <-> exists t e,
            In t [Demo.wall_1; Demo.wall_2; Demo.wall_type; Demo.door]
            /\ has_class (Host := Demo.host) "WallType" t = true
            /\ is_element_type (Host := Demo.host) t = true
            /\ Z.modulo t 2 = 1%Z
            /\ w = e
            /\ In e [Demo.wall_1; Demo.wall_2; Demo.wall_type; Demo.door]
            /\ has_class (Host := Demo.host) "Wall" e = true
            /\ is_element_type (Host := Demo.host) e = false
            /\ atomic_passes (Host := Demo.host) "CreateEqualsRule"
                             (VElementId 7) [VInt (t - 2)%Z] e = true.
Proof.
  apply (@wall_kind_instances_by_name Demo.host DemoWalls.wrappers 1%Z
           (VElementId 7)).
  - reflexivity.
  - reflexivity.
Defined.


(** ** Values of the wrong shape *)

Section WrongShape.

Context {H : Host}.

(** Storing a value under a name puts the pair somewhere in the
    dictionary, behind a stretch that the dictionary already had. *)
Lemma set_splits (k : string) (v : Value) (d : dict) :
  exists a b b', Dict.set k v d = a ++ (k, v) :: b /\ d = a ++ b'.
Proof.
  induction d as [|[k1 v1] d IH]; cbn [Dict.set].
  - now exists [], [], [].
  - destruct (String.eqb k k1).
    + now exists [], d, ((k1, v1) :: d).
    + destruct IH as (a & b & b' & -> & ->).
      now exists ((k1, v1) :: a), b, b'.
Qed.

(** Two dictionaries that share the stretch before a pair still do after
    the same value is stored in both under another name. *)
Lemma set_keeps_shared_stretch (name k : string) (value v : Value)
      (a b b' : dict) :
  k <> name ->
  exists a1 b1 b1',
    Dict.set k v (a ++ (name, value) :: b) = a1 ++ (name, value) :: b1
    /\ Dict.set k v (a ++ b') = a1 ++ b1'.
Proof.
  intros Hne. induction a as [|[k1 v1] a IH]; cbn [app Dict.set].
  - apply String.eqb_neq in Hne. rewrite Hne.
    now exists [], (Dict.set k v b), (Dict.set k v b').
  - destruct (String.eqb k k1).
    + now exists ((k, v) :: a), b, b'.
    + destruct IH as (a1 & b1 & b1' & -> & ->).
      now exists ((k1, v1) :: a1), b1, b1'.
Qed.

Lemma update_keeps_shared_stretch (name : string) (value : Value)
      (src a b b' : dict) :
  ~ In name (Dict.keys src) ->
  exists a1 b1 b1',
    Dict.update (a ++ (name, value) :: b) src = a1 ++ (name, value) :: b1
    /\ Dict.update (a ++ b') src = a1 ++ b1'.
Proof.
  unfold Dict.update, Dict.iteritems. revert a b b'.
  induction src as [|[k v] src IH]; intros a b b' Hout;
    cbn [fold_left fst snd].
  - now exists a, b, b'.
  - destruct (set_keeps_shared_stretch name k value v a b b')
      as (a1 & b1 & b1' & -> & ->).
    { intros ->. apply Hout. now left. }
    apply IH. intros Hin. apply Hout. now right.
Qed.

(** What is stored after a call on keywords with the pair and after the
    call on the others. *)
Lemma update_shared_stretch (name : string) (value : Value)
      (stored p q : dict) :
  ~ In name (Dict.keys q) ->
  exists a b b',
    Dict.update stored (p ++ [(name, value)] ++ q) = a ++ (name, value) :: b
    /\ Dict.update stored (p ++ q) = a ++ b'.
Proof.
  intros Hout. unfold Dict.update, Dict.iteritems.
  rewrite !fold_left_app. cbn [fold_left fst snd].
  destruct (set_splits name value
              (fold_left (fun d kv => Dict.set (fst kv) (snd kv) d) p stored))
    as (a & b & b' & Hset & Hwas).
  rewrite Hset, Hwas.
  exact (update_keeps_shared_stretch name value q a b b' Hout).
Qed.

(** A chain meets the filters in the dictionary's order: when it returns
    on a stretch, a filter that raises right behind that stretch makes the
    chain raise the same. *)
Lemma chain_ops_first_bad (doc : Value) (a b b' : dict)
      (ops : list NarrowOp) (name : string) (value : Value) (e : exn) :
  chain_ops doc (a ++ b') = Ok ops ->
  narrowing doc name value = Raise e ->
  chain_ops doc (a ++ (name, value) :: b) = Raise e.
Proof.
  revert ops. induction a as [|[k v] a IH]; intros ops Hops Hbad;
    cbn [app chain_ops].
  - now rewrite Hbad.
  - cbn [app chain_ops] in Hops.
    destruct (narrowing doc k v) as [e1|here]; [discriminate|].
    cbn [res_bind] in Hops |- *.
    destruct (chain_ops doc (a ++ b')) as [e1|deeper]; [discriminate|].
    now rewrite (IH deeper eq_refl Hbad).
Qed.

(** The three kinds of wrong shape, for any document. *)
Lemma narrowing_wrong_shape (doc : Value) (name : string) (value : Value)
      (err : exn) :
  is_bool value = false -> is_parameter_filter value = false ->
  (name = "symbol"
   /\ isinstance value "ElementId" = false
   /\ isinstance value "FamilySymbol" = false
   /\ err = RPW_TypeError "FamilySymbol or FamilySymbol Id"
                          (type_name value))
  \/ (In name ["level"; "not_level"]
      /\ isinstance value "ElementId" = false
      /\ isinstance value "Level" = false
      /\ err = RPW_TypeError "Level or Level Id" (type_name value))
  \/ (In name ["parameter_filter"; "is_type"; "is_not_type";
               "is_view_independent"]
      /\ err = RPW_Exception "unknown parameter filter error: {}:{}"
                             [VStr name; value]) ->
  narrowing doc name value = Raise err
  /\ In name (Dict.keys _Filter.MAP)
  /\ name <> "of_category" /\ name <> "of_class".
Proof.
  intros Hb Hp [(-> & Hid & Hsym & ->)|[(Hin & Hid & Hlvl & ->)|(Hin & ->)]].
  - split; [now apply narrowing_symbol_wrong|].
    cbn. intuition discriminate.
  - split; [now apply narrowing_level_wrong|].
    cbn in *. intuition (subst; auto; discriminate).
  - split; [now apply narrowing_unknown_shape|].
    cbn in *. intuition (subst; auto; discriminate).
Qed.

(** The other side of the type test: a symbol of a class derived from
    [FamilySymbol] is accepted like a [FamilySymbol]. *)
Lemma symbol_of_derived_class (cls : string) (id : Z) :
  cls <> "ElementId" ->
  derives_from cls "FamilySymbol" = true ->
  isinstance (VElement cls id) "FamilySymbol" = true
  /\ Collector.result_set
       (Collector.__init__ [("symbol", VElement cls id)])
     = Ok (List.filter (instance_of_symbol revit_doc id)
                       (scope_elements revit_doc WholeDocument)).
Proof.
  intros Hne Hsub.
  assert (Hinst : isinstance (VElement cls id) "FamilySymbol" = true).
  { cbn [isinstance]. rewrite Hsub. apply orb_true_r. }
  assert (Hid : isinstance (VElement cls id) "ElementId" = false).
  { cbn [isinstance]. apply String.eqb_neq in Hne. rewrite Hne.
    reflexivity. }
  split; [exact Hinst|].
  apply (result_of_single_filter "symbol" _
           (WherePasses (FamilyInstanceFilter revit_doc id)));
    try discriminate; [cbn; tauto|].
  unfold narrowing, _Filter.apply_filter, bind, lift, gets,
    _FamilyInstanceFilter.
  cbn [Dict.getitem Dict.get _Filter.MAP String.eqb Ascii.eqb Bool.eqb
       Dict.contains negb Ok].
  rewrite Hid, Hinst. reflexivity.
Qed.

(** C8, as the code has it.  For a value that is neither a boolean nor a
    [ParameterFilter]: a [symbol] that is neither an id nor an instance of
    [FamilySymbol] or of a class derived from it, and a [level] or
    [not_level] that is neither an id nor an instance of [Level] or of a
    class derived from it, raise [RPW_TypeError]; a [parameter_filter],
    [is_type], [is_not_type] or [is_view_independent] raises
    [RPW_Exception] "unknown parameter filter error".  The step of the
    chain raises this on every Collector and leaves it as it was; the
    constructor raises it on the keyword alone, and with the keyword
    anywhere among other keywords (scope arguments and filters, [pre]
    before and [post] behind) on which the constructor returns; and a call
    of [filter] raises it with the keyword anywhere among keywords on
    which the call returns. *)
Theorem C8_wrong_shape_errors (name : string) (value : Value) (err : exn)
        (pre post : dict) :
  is_bool value = false -> is_parameter_filter value = false ->
  (name = "symbol"
   /\ isinstance value "ElementId" = false
   /\ isinstance value "FamilySymbol" = false
   /\ err = RPW_TypeError "FamilySymbol or FamilySymbol Id"
                          (type_name value))
  \/ (In name ["level"; "not_level"]
      /\ isinstance value "ElementId" = false
      /\ isinstance value "Level" = false
      /\ err = RPW_TypeError "Level or Level Id" (type_name value))
  \/ (In name ["parameter_filter"; "is_type"; "is_not_type";
               "is_view_independent"]
      /\ err = RPW_Exception "unknown parameter filter error: {}:{}"
                             [VStr name; value]) ->
  NoDup (Dict.keys (pre ++ post)) ->
  ~ In name (Dict.keys (pre ++ post)) ->
  (forall c : CollectorObj,
      _Filter.apply_filter name value c = (Raise err, c))
  /\ Collector.__init__ [(name, value)] = Raise err
  /\ (forall c' : CollectorObj,
         Collector.__init__ (pre ++ post) = Ok c' ->
         Collector.__init__ (pre ++ [(name, value)] ++ post) = Raise err)
  /\ (forall c c' : CollectorObj,
         Collector.filter (pre ++ post) c = (Ok tt, c') ->
         fst (Collector.filter (pre ++ [(name, value)] ++ post) c)
         = Raise err).
Proof.
  intros Hb Hp Hshape Hnd Hout.
  assert (Hbad : forall doc, narrowing doc name value = Raise err).
  { intros doc. now apply (narrowing_wrong_shape doc name value err Hb Hp). }
  destruct (narrowing_wrong_shape (VDocument revit_doc) name value err
              Hb Hp Hshape) as (_ & Hmap & Hcat & Hcls).
  assert (Hx : forall k, In k (Dict.keys [(name, value)]) ->
                         Dict.contains k _Filter.MAP = true).
  { cbn. intros k [<-|[]]. now apply contains_in_keys. }
  assert (Hy : forall k, In k (Dict.keys (@nil (string * Value))) ->
                         Dict.contains k _Filter.MAP = true)
    by (cbn; intros k []).
  assert (Hxc : ~ In "of_category" (Dict.keys [(name, value)])
                /\ ~ In "of_class" (Dict.keys [(name, value)])).
  { cbn. split; intros [Heq|[]]; subst; auto. }
  assert (Hyc : ~ In "of_category" (Dict.keys (@nil (string * Value)))
                /\ ~ In "of_class" (Dict.keys (@nil (string * Value))))
    by (cbn; tauto).
  assert (Hd : differ_at [(name, value)] []
                         (pre ++ [(name, value)] ++ post) (pre ++ post))
    by (now exists pre, post).
  split; [|split; [|split]].
  - intros c. rewrite apply_filter_spec, Hbad. reflexivity.
  - rewrite init_single_filter by assumption. now rewrite Hbad.
  - intros c' Hinit. rewrite init_spec in Hinit |- *.
    destruct (differ_pick_scope _ _ Hx Hy _ _ Hd) as (r & -> & Hpick).
    rewrite Hpick in Hinit.
    destruct r as [e|[doc fec]]; [discriminate|].
    unfold Ok in Hinit |- *. cbn [res_bind fst snd] in Hinit |- *.
    pose proof (differ_after_scope _ _ Hx Hy _ _ Hd) as Hrest.
    pose proof (NoDup_after_scope _
                  (NoDup_keys_insert pre post name value Hnd Hout)) as Hnd1.
    pose proof (NoDup_after_scope _ Hnd) as Hnd2.
    revert Hinit Hrest Hnd1 Hnd2.
    generalize (after_scope (pre ++ [(name, value)] ++ post))
               (after_scope (pre ++ post)).
    intros f1 f2 Hinit Hf Hnd1 Hnd2.
    rewrite (differ_check_filters _ _ Hx Hy f1 f2 Hf).
    destruct (Collector.check_filters (Dict.keys f2)) as [e|[]];
      [discriminate|]. cbn [res_bind] in Hinit |- *.
    assert (Hne : Dict.nonempty f1 = true).
    { destruct Hf as (p & q & -> & _). now destruct p. }
    rewrite Hne.
    assert (Hothers : exists co2 ops2,
               _Filter._coerce_filter_values f2 = inr co2
               /\ chain_ops doc (Dict.update f2 co2) = inr ops2).
    { destruct f2 as [|kv f2]; cbn [Dict.nonempty] in Hinit.
      - now exists [], [].
      - destruct (_Filter._coerce_filter_values (kv :: f2)) as [e|co2];
          [discriminate|]. cbn [res_bind] in Hinit.
        destruct (chain_ops doc (Dict.update (kv :: f2) co2))
          as [e|ops2] eqn:Hops2; [discriminate|]. now exists co2, ops2. }
    destruct Hothers as (co2 & ops2 & Hco2 & Hops2).
    pose proof (differ_coerce _ _ Hxc Hyc f1 f2 Hf) as Hco.
    rewrite Hco2 in Hco.
    destruct (_Filter._coerce_filter_values f1) as [e1|co1] eqn:Hco1;
      [contradiction|]. cbn [res_bind].
    rewrite (update_same_keys _ f1 co1 Hnd1 (coerce_keys f1 co1 Hco1)).
    rewrite (update_same_keys _ f2 co2 Hnd2 (coerce_keys f2 co2 Hco2))
      in Hops2.
    destruct Hco as (p & q & -> & ->). cbn [app].
    now rewrite (chain_ops_first_bad doc p q q ops2 name value err
                   Hops2 (Hbad doc)).
  - intros c c' Hcall.
    destruct (filter_ok_inv _ _ _ Hcall) as (co2 & ops2 & Hco2 & Hops2 & _).
    pose proof (differ_coerce _ _ Hxc Hyc _ _ Hd) as Hco.
    unfold Ok in Hco2. rewrite Hco2 in Hco.
    destruct (_Filter._coerce_filter_values
                (pre ++ [(name, value)] ++ post)) as [e1|co1] eqn:Hco1;
      [contradiction|].
    destruct Hco as (p & q & -> & ->). cbn [app] in Hco2, Hops2.
    assert (Hq : ~ In name (Dict.keys q)).
    { intros Hin. apply Hout.
      rewrite <- (coerce_keys _ _ Hco2), keys_app.
      apply in_or_app. now right. }
    destruct (update_shared_stretch name value (_filters c) p q Hq)
      as (a & b & b' & Hwith & Hwithout).
    rewrite Hwithout in Hops2.
    unfold Collector.filter.
    apply (call_chain_fails _ _ c err Hco1).
    rewrite Hwith.
    exact (chain_ops_first_bad _ a b b' ops2 name value err Hops2
             (Hbad _)).
Qed.

End WrongShape.

(** [symbol='x'], [level='x'] and [is_type='x'] on the demo host: alone,
    between [of_class='Wall'] and [is_not_type=True] in a construction, and
    in a call of [filter] on the Collector of the walls. *)
Lemma C8_witness :
  Collector.__init__ (H := Demo.host) [("symbol", VStr "x")]
  = Raise (RPW_TypeError "FamilySymbol or FamilySymbol Id" "str")
  /\ Collector.__init__ (H := Demo.host)
       ([("of_class", VStr "Wall")] ++ [("level", VStr "x")]
          ++ [("is_not_type", VBool true)])
     = Raise (RPW_TypeError "Level or Level Id" "str")
  /\ fst (Collector.filter (H := Demo.host)
            ([] ++ [("is_type", VStr "x")] ++ [("of_class", VStr "Wall")])
            Demo.walls)
     = Raise (RPW_Exception "unknown parameter filter error: {}:{}"
                            [VStr "is_type"; VStr "x"]).
Proof.
  assert (Hnd0 : NoDup (Dict.keys (@nil (string * Value) ++ [])))
    by constructor.
  assert (Hnd1 : NoDup (Dict.keys ([("of_class", VStr "Wall")]
                                     ++ [("is_not_type", VBool true)]))).
  { cbn. repeat constructor; cbn; intuition discriminate. }
  assert (Hnd2 : NoDup (Dict.keys ([] ++ [("of_class", VStr "Wall")]))).
  { cbn. repeat constructor; cbn; intuition discriminate. }
  destruct (@C8_wrong_shape_errors Demo.host "symbol" (VStr "x")
              (RPW_TypeError "FamilySymbol or FamilySymbol Id" "str")
              [] [] eq_refl eq_refl
              (or_introl (conj eq_refl (conj eq_refl (conj eq_refl eq_refl))))
              Hnd0 (fun F => F))
    as (_ & Hsym & _).
  destruct (@C8_wrong_shape_errors Demo.host "level" (VStr "x")
              (RPW_TypeError "Level or Level Id" "str")
              [("of_class", VStr "Wall")] [("is_not_type", VBool true)]
              eq_refl eq_refl
              (or_intror (or_introl
                 (conj (or_introl eq_refl)
                       (conj eq_refl (conj eq_refl eq_refl)))))
              Hnd1)
    as (_ & _ & Hlvl & _).
  { cbn. intuition discriminate. }
  destruct (@C8_wrong_shape_errors Demo.host "is_type" (VStr "x")
              (RPW_Exception "unknown parameter filter error: {}:{}"
                             [VStr "is_type"; VStr "x"])
              [] [("of_class", VStr "Wall")]
              eq_refl eq_refl
              (or_intror (or_intror
                 (conj (or_intror (or_introl eq_refl)) eq_refl)))
              Hnd2)
    as (_ & _ & _ & Hcall).
  { cbn. intuition discriminate. }
  split; [exact Hsym|]. split.
  - exact (Hlvl
             (mkCollector (H := Demo.host)
                (mkFEC 0 WholeDocument
                       [OfClass "Wall"; WhereElementIsNotElementType;
                        WhereElementIsNotElementType])
                (VDocument 0) [Demo.wall_1; Demo.wall_2]
                [("of_class", VType "Wall"); ("is_not_type", VBool true)])
             eq_refl).
  - exact (Hcall Demo.walls
             (mkCollector (H := Demo.host)
                (mkFEC 0 WholeDocument [OfClass "Wall"; OfClass "Wall"])
                (VDocument 0) [Demo.wall_1; Demo.wall_2]
                [("of_class", VType "Wall")])
             eq_refl).
Defined.

(** A [parameter_filter] value that is not a [ParameterFilter] raises
    [RPW_Exception], not [RPW_TypeError]. *)
Lemma C8_counterexample :
  Collector.__init__ (H := Demo.host) [("parameter_filter", VInt 5)]
  = Raise (RPW_Exception "unknown parameter filter error: {}:{}"
                         [VStr "parameter_filter"; VInt 5])
  /\ forall expected received,
      Collector.__init__ (H := Demo.host) [("parameter_filter", VInt 5)]
      <> Raise (RPW_TypeError expected received).
Proof.
  split; [reflexivity|]. intros expected received. discriminate.
Qed.

(** ** Read views *)

Section ViewFacts.

Context {H : Host}.

(** C9, as the code has it: size, emptiness and [first] read the cached
    elements ([first] is [None] when there are none); iterating yields the
    cached elements, in order, for a Collector constructed with filters and
    after every call of [filter] that returns; a Collector constructed
    without filters has cached nothing, while iterating it enumerates the
    host collector that the scope arguments bind, with nothing applied to
    it: every element of the scope, in the store's order. *)
Theorem C9_read_views (kw : dict) (c : CollectorObj) :
  Collector.__init__ kw = Ok c ->
  Collector.__len__ c = List.length (elements c)
  /\ Collector.__bool__ c = negb (Nat.eqb (List.length (elements c)) 0)
  /\ Collector.first c = hd_error (elements c)
  /\ (elements c = [] -> Collector.first c = None)
  /\ (_filters c <> [] -> Collector.__iter__ c = elements c)
  /\ (_filters c = [] -> elements c = [])
  /\ (_filters c = [] ->
      bind_scope (Dict.get "doc" kw) (Dict.get "view" kw)
                 (Dict.get "elements" kw) (Dict.get "element_ids" kw)
      = Ok (_collector_doc c, _revit_object c)
      /\ fec_applied (_revit_object c) = []
      /\ Collector.__iter__ c
         = scope_elements (fec_doc (_revit_object c))
                          (fec_scope (_revit_object c)))
  /\ forall kw' c', Collector.filter kw' c = (Ok tt, c') ->
                    Collector.__iter__ c' = elements c'
                    /\ Collector.__len__ c' = List.length (elements c')
                    /\ Collector.first c' = hd_error (elements c').
Proof.
  intros Hinit.
  split; [reflexivity|].
  split; [unfold Collector.__bool__; now destruct (elements c)|].
  split; [unfold Collector.first; now destruct (elements c)|].
  split; [unfold Collector.first; now intros ->|].
  assert (Hcases : (_filters c <> [] /\ Collector.__iter__ c = elements c)
                   \/ (_filters c = [] /\ elements c = []
                       /\ bind_scope (Dict.get "doc" kw) (Dict.get "view" kw)
                                     (Dict.get "elements" kw)
                                     (Dict.get "element_ids" kw)
                          = Ok (_collector_doc c, _revit_object c))).
  { rewrite init_spec, pick_scope_spec in Hinit.
    destruct (bind_scope (Dict.get "doc" kw) (Dict.get "view" kw)
                         (Dict.get "elements" kw) (Dict.get "element_ids" kw))
      as [e|[doc fec]]; [discriminate|].
    unfold Ok in Hinit. cbn [res_bind fst snd] in Hinit.
    destruct (Collector.check_filters (Dict.keys (after_scope kw)))
      as [e|[]]; [discriminate|]. cbn [res_bind] in Hinit.
    destruct (after_scope kw) as [|kv filters];
      cbn [Dict.nonempty] in Hinit.
    - injection Hinit as <-. right. auto.
    - destruct (_Filter._coerce_filter_values (kv :: filters)) as [e|co];
        [discriminate|]. cbn [res_bind] in Hinit.
      destruct (chain_ops doc (Dict.update (kv :: filters) co)) as [e|ops];
        [discriminate|]. cbn [res_bind] in Hinit.
      injection Hinit as <-. left. split; [|reflexivity].
      cbn [_filters]. apply update_nonempty. discriminate. }
  split; [|split; [|split]].
  - intros Hne. destruct Hcases as [[_ Hiter]|[Hnil _]]; [assumption|].
    contradiction.
  - intros Hnil. destruct Hcases as [[Hne _]|(_ & Hels & _)];
      [contradiction|]. assumption.
  - intros Hnil. destruct Hcases as [[Hne _]|(_ & _ & Hbind)];
      [contradiction|].
    destruct (bind_scope_unnarrowed _ _ _ _ _ _ Hbind) as [_ Hnone].
    split; [exact Hbind|]. split; [exact Hnone|].
    unfold Collector.__iter__, enumerate. rewrite Hnone.
    cbn [forallb]. clear.
    induction (scope_elements (fec_doc (_revit_object c))
                              (fec_scope (_revit_object c))) as [|e l IH];
      [reflexivity|]. cbn [List.filter]. now rewrite IH.
  - intros kw' c' Hcall. split; [eapply filter_ok_iter; eassumption|].
    split; [reflexivity|]. unfold Collector.first. now destruct (elements c').
Qed.

End ViewFacts.

(** [Collector(of_class='Wall')] on the demo host. *)
Lemma C9_witness :
  Collector.__init__ (H := Demo.host) [("of_class", VStr "Wall")]
  = Ok Demo.walls
  /\ Collector.__iter__ Demo.walls = [Demo.wall_1; Demo.wall_2]
  /\ Collector.__len__ Demo.walls = 2
  /\ Collector.first Demo.walls = Some Demo.wall_1
  /\ (_filters Demo.walls <> [] ->
      Collector.__iter__ Demo.walls = elements Demo.walls).
Proof.
  split; [reflexivity|]. split; [reflexivity|]. split; [reflexivity|].
  split; [reflexivity|].
  apply (@C9_read_views Demo.host [("of_class", VStr "Wall")] Demo.walls).
  reflexivity.
Defined.

(** [Collector(view=...)] without filters on the demo host: nothing is
    cached, yet iterating yields the elements of the view. *)
Lemma C9_counterexample :
  exists c : CollectorObj (H := Demo.host),
    Collector.__init__ (H := Demo.host) [("view", VElementId 5)] = Ok c
    /\ elements c = []
    /\ Collector.__len__ c = 0
    /\ Collector.first c = None
    /\ Collector.__iter__ c = [Demo.wall_1; Demo.door]
    /\ Collector.__iter__ c <> elements c.
Proof.
  eexists. split; [reflexivity|]. repeat split; discriminate.
Qed.
